(** * AAKAR-3D backend: authentication and session issuance

    A shallow embedding of [backend/server.js]: the Mongoose [User] model
    (lines 29-59), the [/api/signup], [/api/login] and [/api/profile]
    handlers (lines 68-235) and the [authenticateToken] middleware
    (lines 416-432), followed by the properties the specification states
    about them.

    Modelling conventions.
    - A JavaScript string is a sequence of UTF-16 code units; a Rocq
      [string] stands for the JavaScript string that has the same code
      units, each below 256 (the Latin-1 range, not a byte encoding), so
      that [String.length] is [.length].  [toLowerCase], [trim] and the
      class [\s] are JavaScript's on that range.  Strings with a code unit
      of 256 or more are outside the model.
    - A request body field is an [option string]: [None] is a field that is
      absent ([undefined]).  Fields holding JSON numbers, booleans, arrays or
      objects are outside the model.
    - The collection is the list of its documents in natural (insertion)
      order; [findOne] returns the first match.
    - [bcryptjs] and [jsonwebtoken] are external libraries: they enter as the
      interfaces [Hasher] and [JwtCodec] together with the laws their
      documentation states.
    - Mongoose runs the schema setters on query filters from version 5 on
      and not by default in version 4; the version is not pinned under the
      sources, so the flag [runSettersOnQuery] is a parameter and every
      theorem holds for both values. *)

From Stdlib Require Import String Ascii List ZArith Lia Bool Arith.
Import ListNotations.
Open Scope string_scope.

(* ===================================================================== *)
(** ** JavaScript string primitives *)
(* ===================================================================== *)

Module JsString.

(** The letters [A-Z]. *)
Definition isUpper (c : ascii) : bool :=
  let n := nat_of_ascii c in (65 <=? n)%nat && (n <=? 90)%nat.

(** The upper-case letters above 127: U+00C0 to U+00DE without the
    multiplication sign U+00D7. *)
Definition isUpperLatin1 (c : ascii) : bool :=
  let n := nat_of_ascii c in
  ((192 <=? n)%nat && (n <=? 214)%nat) || ((216 <=? n)%nat && (n <=? 222)%nat).

(** [String.prototype.toLowerCase], on one character: every upper-case
    letter below 256 has its lower-case form 32 places up, and no other
    character below 256 is changed. *)
Definition lowerChar (c : ascii) : ascii :=
  if isUpper c || isUpperLatin1 c
  then ascii_of_nat (nat_of_ascii c + 32) else c.

Fixpoint toLowerCase (s : string) : string :=
  match s with
  | EmptyString => EmptyString
  | String c r => String (lowerChar c) (toLowerCase r)
  end.

(** White space and line terminators as [String.prototype.trim] and the
    class [\s] see them: TAB, LF, VT, FF, CR, SPACE and the no-break space
    U+00A0 (the others lie above 255). *)
Definition isWhiteSpace (c : ascii) : bool :=
  let n := nat_of_ascii c in
  ((9 <=? n)%nat && (n <=? 13)%nat) || (n =? 32)%nat || (n =? 160)%nat.

Fixpoint trimStart (s : string) : string :=
  match s with
  | EmptyString => EmptyString
  | String c r => if isWhiteSpace c then trimStart r else s
  end.

Fixpoint trimEnd (s : string) : string :=
  match s with
  | EmptyString => EmptyString
  | String c r =>
      match trimEnd r with
      | EmptyString => if isWhiteSpace c then EmptyString else String c EmptyString
      | r' => String c r'
      end
  end.

Definition trim (s : string) : string := trimEnd (trimStart s).

(** [s.split(' ')]: the pieces between single spaces, never an empty array. *)
Fixpoint split_space (s : string) : list string :=
  match s with
  | EmptyString => [EmptyString]
  | String c r =>
      if Ascii.eqb c " " then EmptyString :: split_space r
      else match split_space r with
           | h :: t => String c h :: t
           | [] => [String c EmptyString]
           end
  end.

(** [s] contains no space character. *)
Fixpoint no_space (s : string) : bool :=
  match s with
  | EmptyString => true
  | String c r => negb (Ascii.eqb c " ") && no_space r
  end.

(** Truthiness of a possibly undefined string: [undefined] and [""] are
    falsy, every other string is truthy. *)
Definition truthy (v : option string) : bool :=
  match v with
  | Some (String _ _) => true
  | _ => false
  end.

End JsString.
Import JsString.

(* ===================================================================== *)
(** ** JSON values and HTTP responses *)
(* ===================================================================== *)

(** MongoDB [ObjectId]s, kept abstract as numbers. *)
Definition ObjectId := nat.

(** What [res.json] is given: strings, object ids, dates (milliseconds
    since the epoch) and objects as key/value lists in source order. *)
#[warnings="-register-all"] Inductive json : Type :=
| JString (s : string)
| JObjectId (i : ObjectId)
| JDate (ms : Z)
| JObject (fields : list (string * json)).

Record Response := mkResponse { status : Z; body : json }.

(** [obj[key]] on a JSON value. *)
Definition field (key : string) (j : json) : option json :=
  match j with
  | JObject fs =>
      match find (fun kv => String.eqb (fst kv) key) fs with
      | Some kv => Some (snd kv)
      | None => None
      end
  | _ => None
  end.

Definition keys (j : json) : list string :=
  match j with
  | JObject fs => map fst fs
  | _ => []
  end.

(** [res.status(code).json({ error: msg })]. *)
Definition errorResponse (code : Z) (msg : string) : Response :=
  mkResponse code (JObject [("error", JString msg)]).

(* ===================================================================== *)
(** ** External libraries: bcryptjs and jsonwebtoken *)
(* ===================================================================== *)

(** [bcrypt.hash(plain, rounds)] draws a random salt, which is an explicit
    argument here.  [bcrypt.compare(candidate, hash)] hashes the candidate
    with the salt and the cost that [hash] carries and compares the two
    hashes.  The algorithm reads at most the first 72 bytes of its input,
    and these lie within the first 72 characters.  A hash is not its own
    plaintext.  A bcrypt hash is 60 characters long; the model uses only
    that it is not shorter than the 6 the schema asks of [password].
    Nothing is assumed about two different inputs having different
    hashes. *)
Class Hasher := {
  Salt : Type;
  bcrypt_hash : Salt -> nat -> string -> string;
  bcrypt_compare : string -> string -> bool;
  compare_rehash : forall s n p q,
      bcrypt_compare q (bcrypt_hash s n p)
      = String.eqb (bcrypt_hash s n q) (bcrypt_hash s n p);
  hash_first_72 : forall s n p,
      bcrypt_hash s n p = bcrypt_hash s n (substring 0 72 p);
  hash_not_plain : forall s n p, bcrypt_hash s n p <> p;
  hash_long : forall s n p, (6 <= String.length (bcrypt_hash s n p))%nat
}.

(** The plaintext that was hashed verifies. *)
Lemma compare_same `{Hasher} s n p :
  bcrypt_compare p (bcrypt_hash s n p) = true.
Proof. rewrite compare_rehash. apply String.eqb_refl. Qed.

(** So does every candidate with the same first 72 characters. *)
Lemma compare_first_72 `{Hasher} s n p q :
  substring 0 72 q = substring 0 72 p ->
  bcrypt_compare q (bcrypt_hash s n p) = true.
Proof.
  intros E. rewrite compare_rehash, (hash_first_72 s n q), E,
    <- (hash_first_72 s n p).
  apply String.eqb_refl.
Qed.

(** The payload of a session token: the claims the handlers sign, and the
    [iat] and [exp] fields [jwt.sign] adds (seconds since the epoch). *)
Record JwtPayload := mkPayload {
  userId : ObjectId;
  jwt_username : string;
  jwt_email : string;
  iat : Z;
  exp : option Z
}.

(** The compact serialisation with its signature.  [jwt_decode key t] is
    [None] when [t] is malformed or its signature does not verify under
    [key]; a token is a non-empty word without spaces. *)
Class JwtCodec := {
  jwt_encode : string -> JwtPayload -> string;
  jwt_decode : string -> string -> option JwtPayload;
  decode_encode : forall k p, jwt_decode k (jwt_encode k p) = Some p;
  encode_nonempty : forall k p, jwt_encode k p <> EmptyString;
  encode_no_space : forall k p, no_space (jwt_encode k p) = true
}.

Inductive JwtError := JsonWebTokenError | TokenExpiredError.

(** The claims object passed to [jwt.sign]. *)
Record Claims := mkClaims {
  c_userId : ObjectId;
  c_username : string;
  c_email : string
}.

(** [expiresIn: '7d'] in seconds. *)
Definition expiresIn_7d : Z := 7 * 24 * 60 * 60.

(** [jwt.sign(claims, secret, { expiresIn })] at clock [nowMs]. *)
Definition jwt_sign `{JwtCodec} (nowMs : Z) (c : Claims) (secret : string)
    (expiresIn : Z) : string :=
  let timestamp := (nowMs / 1000)%Z in
  jwt_encode secret
    {| userId := c_userId c;
       jwt_username := c_username c;
       jwt_email := c_email c;
       iat := timestamp;
       exp := Some (timestamp + expiresIn)%Z |}.

(** [jwt.verify(token, secret)] at clock [nowMs]: decoding and signature
    first, then [clockTimestamp >= payload.exp] rejects. *)
Definition jwt_verify `{JwtCodec} (nowMs : Z) (token secret : string)
    : JwtError + JwtPayload :=
  match jwt_decode secret token with
  | None => inl JsonWebTokenError
  | Some p =>
      match exp p with
      | Some e => if (e <=? nowMs / 1000)%Z then inl TokenExpiredError else inr p
      | None => inr p
      end
  end.

(* ===================================================================== *)
(** ** The User model (server.js, lines 29-59)

    The schema is in the source; what Mongoose and MongoDB do with it
    (setters on assignment, validation and unique indexes on [save],
    timestamps, [findOne] in natural order) follows their documentation
    and the store contract of the specification, section 4.1. *)
(* ===================================================================== *)

Record UserDoc := mkUser {
  _id : ObjectId;
  fullName : string;
  username : string;
  email : string;
  password : string;
  createdAt : Z;
  updatedAt : Z
}.

(** The collection, in natural order. *)
Definition Store := list UserDoc.

(** Schema setters: [fullName] has [trim]; [username] and [email] have
    [trim] and [lowercase]. *)
Definition set_fullName (s : string) : string := trim s.
Definition set_lower (s : string) : string := toLowerCase (trim s).

Inductive MongoError := ValidationError | DuplicateKey.

Section Model.

Context {hasher : Hasher} {codec : JwtCodec}.

(** Whether query filters are cast through the schema setters. *)
Variable runSettersOnQuery : bool.

Definition castForQuery (s : string) : string :=
  if runSettersOnQuery then set_lower s else s.

(** [User.findOne({ $or: [{ email: e }, { username: u }] })]. *)
Definition findOne_or (st : Store) (e u : string) : option UserDoc :=
  let qe := castForQuery e in
  let qu := castForQuery u in
  find (fun d => String.eqb (email d) qe || String.eqb (username d) qu) st.

(** [User.findById(id)]. *)
Definition findById (st : Store) (id : ObjectId) : option UserDoc :=
  find (fun d => Nat.eqb (_id d) id) st.

(** [new User({ fullName, username, email, password })]: the setters run
    on assignment; the timestamps are filled in by [save]. *)
Definition new_User (id : ObjectId) (fn un em pw : string) : UserDoc :=
  {| _id := id;
     fullName := set_fullName fn;
     username := set_lower un;
     email := set_lower em;
     password := pw;
     createdAt := 0;
     updatedAt := 0 |}.

(** Schema validation run by [save]: every path is [required] (a string
    path is missing when empty) and [password] has [minlength: 6]. *)
Definition validateSync (d : UserDoc) : bool :=
  negb (String.eqb (fullName d) "") &&
  negb (String.eqb (username d) "") &&
  negb (String.eqb (email d) "") &&
  negb (String.eqb (password d) "") &&
  (6 <=? String.length (password d))%nat.

(** The unique indexes on [_id], [username] and [email]. *)
Definition violatesUnique (st : Store) (d : UserDoc) : bool :=
  existsb (fun x => Nat.eqb (_id x) (_id d)
                    || String.eqb (username x) (username d)
                    || String.eqb (email x) (email d)) st.

(** [doc.save()] at clock [nowMs]: validation, then the insert, which
    appends to the collection and stamps the document. *)
Definition save (nowMs : Z) (st : Store) (d : UserDoc)
    : MongoError + (UserDoc * Store) :=
  if negb (validateSync d) then inl ValidationError
  else if violatesUnique st d then inl DuplicateKey
  else
    let saved := {| _id := _id d; fullName := fullName d;
                    username := username d; email := email d;
                    password := password d;
                    createdAt := nowMs; updatedAt := nowMs |} in
    inr (saved, (st ++ [saved])%list).

(** *** Requests and the per-request environment *)

(** [req.body] of [POST /api/signup]. *)
Record SignupBody := mkSignup {
  sb_fullName : option string;
  sb_username : option string;
  sb_email : option string;
  sb_password : option string
}.

(** [req.body] of [POST /api/login]. *)
Record LoginBody := mkLogin {
  lb_emailOrUsername : option string;
  lb_password : option string
}.

(** What a request takes from its environment: the clock (milliseconds),
    the [ObjectId] the driver generates and the salt [bcrypt] draws. *)
Record Env := mkEnv {
  nowMs : Z;
  freshId : ObjectId;
  freshSalt : Salt
}.

(** A body field after the truthiness guard has passed. *)
Definition str (v : option string) : string :=
  match v with
  | Some s => s
  | None => EmptyString
  end.

Definition JWT_SECRET : string := "aakar3d_secret_key_2025".

Definition saltRounds : nat := 12.

(** The object literal [{ id, fullName, username, email }] of the signup
    and login responses. *)
Definition userView (u : UserDoc) : json :=
  JObject [("id", JObjectId (_id u));
           ("fullName", JString (fullName u));
           ("username", JString (username u));
           ("email", JString (email u))].

(** The claims literal [{ userId, username, email }]. *)
Definition claimsOf (u : UserDoc) : Claims :=
  {| c_userId := _id u; c_username := username u; c_email := email u |}.

(** *** POST /api/signup (lines 69-146) *)

(** The [if (existingUser) { ... }] block: [Some r] is an early return. *)
Definition duplicateCheck (existingUser : option UserDoc) (em un : string)
    : option Response :=
  match existingUser with
  | Some u =>
      if String.eqb (email u) em
      then Some (errorResponse 400 "Email already registered")
      else if String.eqb (username u) un
      then Some (errorResponse 400 "Username already taken")
      else None
  | None => None
  end.

Definition signup (env : Env) (st : Store) (b : SignupBody)
    : Response * Store :=
  if negb (truthy (sb_fullName b)) || negb (truthy (sb_username b))
     || negb (truthy (sb_email b)) || negb (truthy (sb_password b))
  then (errorResponse 400 "All fields are required", st)
  else
    let fn := str (sb_fullName b) in
    let un := str (sb_username b) in
    let em := str (sb_email b) in
    let pw := str (sb_password b) in
    if (String.length pw <? 6)%nat
    then (errorResponse 400 "Password must be at least 6 characters long", st)
    else
      let existingUser := findOne_or st em un in
      match duplicateCheck existingUser em un with
      | Some r => (r, st)
      | None =>
          let hashedPassword := bcrypt_hash (freshSalt env) saltRounds pw in
          let newUser := new_User (freshId env) fn un em hashedPassword in
          match save (nowMs env) st newUser with
          | inl _ =>
              (errorResponse 500 "Internal server error. Please try again.", st)
          | inr (newUser, st') =>
              let token :=
                jwt_sign (nowMs env) (claimsOf newUser) JWT_SECRET expiresIn_7d in
              (mkResponse 201
                 (JObject [("message", JString "Account created successfully!");
                           ("token", JString token);
                           ("user", userView newUser)]),
               st')
          end
      end.

(** *** POST /api/login (lines 149-211) *)

Definition login (env : Env) (st : Store) (b : LoginBody)
    : Response * Store :=
  if negb (truthy (lb_emailOrUsername b)) || negb (truthy (lb_password b))
  then (errorResponse 400 "Email/Username and password are required", st)
  else
    let emailOrUsername := str (lb_emailOrUsername b) in
    let pw := str (lb_password b) in
    match findOne_or st (toLowerCase emailOrUsername)
                        (toLowerCase emailOrUsername) with
    | None => (errorResponse 400 "Invalid credentials", st)
    | Some user =>
        let isPasswordValid := bcrypt_compare pw (password user) in
        if negb isPasswordValid
        then (errorResponse 400 "Invalid credentials", st)
        else
          let token :=
            jwt_sign (nowMs env) (claimsOf user) JWT_SECRET expiresIn_7d in
          (mkResponse 200
             (JObject [("message", JString "Login successful!");
                       ("token", JString token);
                       ("user", userView user)]),
           st)
    end.

(** *** authenticateToken (lines 417-432) *)

(** The middleware either answers itself or calls [next()] with
    [req.user] set. *)
Inductive Middleware :=
| Respond (r : Response)
| Next (user : JwtPayload).

(** [authHeader && authHeader.split(' ')[1]]. *)
Definition extractToken (authHeader : option string) : option string :=
  if truthy authHeader
  then nth_error (split_space (str authHeader)) 1
  else authHeader.

Definition authenticateToken (now : Z) (authHeader : option string)
    : Middleware :=
  let token := extractToken authHeader in
  if negb (truthy token)
  then Respond (errorResponse 401 "Access token required")
  else
    match jwt_verify now (str token) JWT_SECRET with
    | inl _ => Respond (errorResponse 403 "Invalid or expired token")
    | inr user => Next user
    end.

(** *** GET /api/profile (lines 214-235) *)

(** A document read with [.select('-password')]. *)
Record ProfileDoc := mkProfile {
  p_id : ObjectId;
  p_fullName : string;
  p_username : string;
  p_email : string;
  p_createdAt : Z
}.

Definition select_minus_password (u : UserDoc) : ProfileDoc :=
  {| p_id := _id u; p_fullName := fullName u; p_username := username u;
     p_email := email u; p_createdAt := createdAt u |}.

Definition profileHandler (st : Store) (user : JwtPayload) : Response :=
  match option_map select_minus_password (findById st (userId user)) with
  | None => errorResponse 404 "User not found"
  | Some u =>
      mkResponse 200
        (JObject [("user",
                   JObject [("id", JObjectId (p_id u));
                            ("fullName", JString (p_fullName u));
                            ("username", JString (p_username u));
                            ("email", JString (p_email u));
                            ("createdAt", JDate (p_createdAt u))])])
  end.

Definition profile (env : Env) (st : Store) (authHeader : option string)
    : Response * Store :=
  match authenticateToken (nowMs env) authHeader with
  | Respond r => (r, st)
  | Next user => (profileHandler st user, st)
  end.

(** *** The service as a transition system *)

Inductive Request :=
| PostSignup (b : SignupBody)
| PostLogin (b : LoginBody)
| GetProfile (authorization : option string).

Definition handle (env : Env) (st : Store) (r : Request) : Response * Store :=
  match r with
  | PostSignup b => signup env st b
  | PostLogin b => login env st b
  | GetProfile h => profile env st h
  end.

(** The collections the service can reach from the empty one. *)
Inductive reachable : Store -> Prop :=
| reach_empty : reachable []
| reach_step : forall st env r,
    reachable st -> reachable (snd (handle env st r)).

End Model.

(* ===================================================================== *)
(** ** Executable instances of the two library interfaces

    They exist to run the handlers on concrete requests and to show that
    the laws of [Hasher] and [JwtCodec] can be met; they carry no
    cryptographic content. *)
(* ===================================================================== *)

Module Reference.

(** *** A hasher that tags the first 72 characters of the plaintext *)

(** The first character of the tag is chosen to differ from the first
    character of the plaintext. *)
Definition tag_hash (_ : unit) (_ : nat) (p : string) : string :=
  match p with
  | String c _ =>
      String (if Ascii.eqb c "$" then "#"%char else "$"%char)
             ("2a$12$" ++ substring 0 72 p)
  | EmptyString => "$2a$12$"
  end.

Definition tag_compare (q h : string) : bool :=
  String.eqb (tag_hash tt 12 q) h.

Lemma tag_compare_rehash s n p q :
  tag_compare q (tag_hash s n p)
  = String.eqb (tag_hash s n q) (tag_hash s n p).
Proof. destruct s. reflexivity. Qed.

Lemma substring_prefix_idem n p :
  substring 0 n (substring 0 n p) = substring 0 n p.
Proof.
  revert p. induction n as [|n IH]; intros [|c r]; cbn; try reflexivity.
  now rewrite IH.
Qed.

Lemma tag_hash_first_72 s n p :
  tag_hash s n p = tag_hash s n (substring 0 72 p).
Proof.
  destruct p as [|c r]; [reflexivity|].
  unfold tag_hash. rewrite substring_prefix_idem. reflexivity.
Qed.

Lemma tag_hash_not_plain s n p : tag_hash s n p <> p.
Proof.
  destruct p as [|c r]; [discriminate|].
  unfold tag_hash. intros E. injection E as E _.
  destruct (Ascii.eqb c "$") eqn:C.
  - apply Ascii.eqb_eq in C. subst c. discriminate.
  - subst c. discriminate.
Qed.

Lemma tag_hash_long s n p : (6 <= String.length (tag_hash s n p))%nat.
Proof. destruct p; cbn; lia. Qed.

#[export] Instance tagHasher : Hasher :=
  {| Salt := unit;
     bcrypt_hash := tag_hash;
     bcrypt_compare := tag_compare;
     compare_rehash := tag_compare_rehash;
     hash_first_72 := tag_hash_first_72;
     hash_not_plain := tag_hash_not_plain;
     hash_long := tag_hash_long |}.

(** *** A codec that writes the key and the payload as binary digits *)

Definition bitChar (b : bool) : ascii := if b then "1"%char else "0"%char.

Fixpoint string_of_bits (l : list bool) : string :=
  match l with
  | [] => EmptyString
  | b :: r => String (bitChar b) (string_of_bits r)
  end.

Fixpoint bits_of_string (s : string) : option (list bool) :=
  match s with
  | EmptyString => Some []
  | String c r =>
      match bits_of_string r with
      | Some l =>
          if Ascii.eqb c "1" then Some (true :: l)
          else if Ascii.eqb c "0" then Some (false :: l)
          else None
      | None => None
      end
  end.

(** Self-delimiting encoders, each taking the bits that follow. *)
Fixpoint enc_pos (p : positive) (k : list bool) : list bool :=
  match p with
  | xH => false :: k
  | xO q => true :: false :: enc_pos q k
  | xI q => true :: true :: enc_pos q k
  end.

Fixpoint dec_pos (fuel : nat) (l : list bool) : option (positive * list bool) :=
  match fuel with
  | O => None
  | S fuel' =>
      match l with
      | false :: k => Some (xH, k)
      | true :: b :: r =>
          match dec_pos fuel' r with
          | Some (q, k) => Some (if b then xI q else xO q, k)
          | None => None
          end
      | _ => None
      end
  end.

Definition enc_Z (z : Z) (k : list bool) : list bool :=
  match z with
  | Z0 => false :: false :: k
  | Zpos p => false :: true :: enc_pos p k
  | Zneg p => true :: false :: enc_pos p k
  end.

Definition dec_Z (l : list bool) : option (Z * list bool) :=
  match l with
  | false :: false :: k => Some (Z0, k)
  | false :: true :: r =>
      option_map (fun pk => (Zpos (fst pk), snd pk)) (dec_pos (List.length r) r)
  | true :: false :: r =>
      option_map (fun pk => (Zneg (fst pk), snd pk)) (dec_pos (List.length r) r)
  | _ => None
  end.

Definition enc_optZ (o : option Z) (k : list bool) : list bool :=
  match o with
  | None => false :: k
  | Some z => true :: enc_Z z k
  end.

Definition dec_optZ (l : list bool) : option (option Z * list bool) :=
  match l with
  | false :: k => Some (None, k)
  | true :: r => option_map (fun zk => (Some (fst zk), snd zk)) (dec_Z r)
  | [] => None
  end.

Definition enc_ascii (c : ascii) (k : list bool) : list bool :=
  let (b0, b1, b2, b3, b4, b5, b6, b7) := c in
  b0 :: b1 :: b2 :: b3 :: b4 :: b5 :: b6 :: b7 :: k.

Fixpoint enc_string (s : string) (k : list bool) : list bool :=
  match s with
  | EmptyString => false :: k
  | String c r => true :: enc_ascii c (enc_string r k)
  end.

Fixpoint dec_string (fuel : nat) (l : list bool) : option (string * list bool) :=
  match fuel with
  | O => None
  | S fuel' =>
      match l with
      | false :: k => Some (EmptyString, k)
      | true :: b0 :: b1 :: b2 :: b3 :: b4 :: b5 :: b6 :: b7 :: r =>
          match dec_string fuel' r with
          | Some (s, k) => Some (String (Ascii b0 b1 b2 b3 b4 b5 b6 b7) s, k)
          | None => None
          end
      | _ => None
      end
  end.

Definition bits_encode (key : string) (p : JwtPayload) : string :=
  string_of_bits
    (enc_string key
       (enc_Z (Z.of_nat (userId p))
          (enc_string (jwt_username p)
             (enc_string (jwt_email p)
                (enc_Z (iat p) (enc_optZ (exp p) [])))))).

Definition bits_decode (key token : string) : option JwtPayload :=
  match bits_of_string token with
  | None => None
  | Some l0 =>
      match dec_string (List.length l0) l0 with
      | None => None
      | Some (key', l1) =>
          if negb (String.eqb key' key) then None else
          match dec_Z l1 with
          | None => None
          | Some (uid, l2) =>
              match dec_string (List.length l2) l2 with
              | None => None
              | Some (un, l3) =>
                  match dec_string (List.length l3) l3 with
                  | None => None
                  | Some (em, l4) =>
                      match dec_Z l4 with
                      | None => None
                      | Some (i, l5) =>
                          match dec_optZ l5 with
                          | Some (e, []) =>
                              Some {| userId := Z.to_nat uid;
                                      jwt_username := un;
                                      jwt_email := em;
                                      iat := i;
                                      exp := e |}
                          | _ => None
                          end
                      end
                  end
              end
          end
      end
  end.

Lemma bits_of_string_of_bits l : bits_of_string (string_of_bits l) = Some l.
Proof.
  induction l as [|b r IH]; [reflexivity|].
  cbn [string_of_bits bits_of_string]. rewrite IH. now destruct b.
Qed.

Lemma string_of_bits_no_space l : no_space (string_of_bits l) = true.
Proof.
  induction l as [|b r IH]; [reflexivity|].
  cbn [string_of_bits no_space]. rewrite IH. now destruct b.
Qed.

Lemma dec_enc_pos p : forall k fuel,
  (List.length (enc_pos p k) <= fuel)%nat ->
  dec_pos fuel (enc_pos p k) = Some (p, k).
Proof.
  induction p as [q IH|q IH|]; intros k [|fuel] Hlen; cbn in Hlen; try lia;
    cbn [enc_pos dec_pos]; try reflexivity;
    rewrite IH by lia; reflexivity.
Qed.

Lemma dec_enc_Z z k : dec_Z (enc_Z z k) = Some (z, k).
Proof.
  destruct z as [|p|p]; cbn [enc_Z dec_Z]; try reflexivity;
    rewrite dec_enc_pos by lia; reflexivity.
Qed.

Lemma dec_enc_optZ o k : dec_optZ (enc_optZ o k) = Some (o, k).
Proof.
  destruct o as [z|]; cbn [enc_optZ dec_optZ]; [|reflexivity].
  now rewrite dec_enc_Z.
Qed.

Lemma dec_enc_string s : forall k fuel,
  (List.length (enc_string s k) <= fuel)%nat ->
  dec_string fuel (enc_string s k) = Some (s, k).
Proof.
  induction s as [|c r IH]; intros k [|fuel] Hlen; cbn in Hlen; try lia;
    [reflexivity|].
  destruct c as [b0 b1 b2 b3 b4 b5 b6 b7].
  cbn [enc_string enc_ascii dec_string] in *.
  rewrite IH by (cbn in Hlen; lia). reflexivity.
Qed.

Lemma bits_decode_encode k p : bits_decode k (bits_encode k p) = Some p.
Proof.
  unfold bits_decode, bits_encode.
  rewrite bits_of_string_of_bits, dec_enc_string by lia.
  rewrite String.eqb_refl. cbn [negb].
  rewrite dec_enc_Z, !dec_enc_string by lia.
  rewrite dec_enc_Z, dec_enc_optZ, Nat2Z.id.
  now destruct p.
Qed.

Lemma bits_encode_nonempty k p : bits_encode k p <> EmptyString.
Proof.
  unfold bits_encode. destruct k as [|c r]; [discriminate|].
  cbn [enc_string string_of_bits]. discriminate.
Qed.

Lemma bits_encode_no_space k p : no_space (bits_encode k p) = true.
Proof. apply string_of_bits_no_space. Qed.

#[export] Instance bitCodec : JwtCodec :=
  {| jwt_encode := bits_encode;
     jwt_decode := bits_decode;
     decode_encode := bits_decode_encode;
     encode_nonempty := bits_encode_nonempty;
     encode_no_space := bits_encode_no_space |}.

End Reference.

(* ===================================================================== *)
(** ** Facts about the string primitives *)
(* ===================================================================== *)

Example toLowerCase_ex : toLowerCase "JANE@X.COM" = "jane@x.com".
Proof. reflexivity. Qed.

Example trim_ex : trim "  Jane Doe " = "Jane Doe".
Proof. reflexivity. Qed.

(** Above 127: a no-break space (U+00A0) is trimmed, and E with acute
    accent (U+00C9) is lower-cased to U+00E9. *)
Example setters_above_127 :
  toLowerCase
    (trim (String (ascii_of_nat 160) (String (ascii_of_nat 201) "COLE ")))
  = String (ascii_of_nat 233) "cole".
Proof. reflexivity. Qed.

Example split_bearer : split_space "Bearer abc.def" = ["Bearer"; "abc.def"].
Proof. reflexivity. Qed.

Example split_double_space : split_space "a  b" = ["a"; ""; "b"].
Proof. reflexivity. Qed.

Example split_empty : split_space "" = [""].
Proof. reflexivity. Qed.

Ltac all_chars c :=
  destruct c as [[] [] [] [] [] [] [] []]; reflexivity.

Lemma lowerChar_idem c : lowerChar (lowerChar c) = lowerChar c.
Proof. all_chars c. Qed.

Lemma isWhiteSpace_lowerChar c : isWhiteSpace (lowerChar c) = isWhiteSpace c.
Proof. all_chars c. Qed.

Lemma toLowerCase_idem s : toLowerCase (toLowerCase s) = toLowerCase s.
Proof.
  induction s as [|c r IH]; [reflexivity|].
  cbn [toLowerCase]. now rewrite lowerChar_idem, IH.
Qed.

Lemma trimStart_lower s : trimStart (toLowerCase s) = toLowerCase (trimStart s).
Proof.
  induction s as [|c r IH]; [reflexivity|].
  cbn [toLowerCase trimStart]. rewrite isWhiteSpace_lowerChar.
  destruct (isWhiteSpace c); [exact IH | reflexivity].
Qed.

Lemma trimEnd_lower s : trimEnd (toLowerCase s) = toLowerCase (trimEnd s).
Proof.
  induction s as [|c r IH]; [reflexivity|].
  cbn [toLowerCase trimEnd]. rewrite IH, isWhiteSpace_lowerChar.
  destruct (trimEnd r); cbn [toLowerCase]; [|reflexivity].
  now destruct (isWhiteSpace c).
Qed.

Lemma trim_lower s : trim (toLowerCase s) = toLowerCase (trim s).
Proof. unfold trim. now rewrite trimStart_lower, trimEnd_lower. Qed.

Lemma trimEnd_idem s : trimEnd (trimEnd s) = trimEnd s.
Proof.
  induction s as [|c r IH]; [reflexivity|].
  cbn [trimEnd]. destruct (trimEnd r) as [|c' r'] eqn:E.
  - destruct (isWhiteSpace c) eqn:W; cbn [trimEnd]; [reflexivity|].
    now rewrite W.
  - change (trimEnd (String c (String c' r')) = String c (String c' r')).
    cbn [trimEnd] in IH |- *.
    destruct (trimEnd r') as [|c'' r'']; cbn [trimEnd].
    + destruct (isWhiteSpace c'); [discriminate|]. now rewrite IH.
    + now rewrite IH.
Qed.

(** What [trimStart] leaves is empty or begins with a visible character. *)
Lemma trimStart_head s :
  trimStart s = EmptyString \/
  exists c r, trimStart s = String c r /\ isWhiteSpace c = false.
Proof.
  induction s as [|c r IH]; [now left|].
  cbn [trimStart]. destruct (isWhiteSpace c) eqn:W; [exact IH|].
  right. now exists c, r.
Qed.

Lemma trimEnd_visible_head c r :
  isWhiteSpace c = false -> exists r', trimEnd (String c r) = String c r'.
Proof.
  intros W. cbn [trimEnd]. destruct (trimEnd r) as [|c' r'].
  - rewrite W. now exists EmptyString.
  - now exists (String c' r').
Qed.

Lemma trim_idem s : trim (trim s) = trim s.
Proof.
  unfold trim. destruct (trimStart_head s) as [E | (c & r & E & W)]; rewrite E.
  - reflexivity.
  - destruct (trimEnd_visible_head c r W) as [r' E'].
    rewrite E'. cbn [trimStart]. rewrite W, <- E'. apply trimEnd_idem.
Qed.

Lemma set_lower_idem s : set_lower (set_lower s) = set_lower s.
Proof.
  unfold set_lower. now rewrite trim_lower, toLowerCase_idem, trim_idem.
Qed.

(** The two setters of [username] and [email] commute, so the order in
    which Mongoose applies them is immaterial. *)
Lemma set_lower_commute s : toLowerCase (trim s) = trim (toLowerCase s).
Proof. symmetry. apply trim_lower. Qed.

Lemma set_lower_lower s : toLowerCase (set_lower s) = set_lower s.
Proof. unfold set_lower. apply toLowerCase_idem. Qed.

Lemma no_space_split s : no_space s = true -> split_space s = [s].
Proof.
  induction s as [|c r IH]; [reflexivity|].
  cbn [no_space split_space]. intros H.
  apply andb_true_iff in H as [Hc Hr].
  destruct (Ascii.eqb c " "); [discriminate|]. now rewrite IH.
Qed.

(** A header whose first space comes right after the word [w]. *)
Lemma split_space_word w t :
  no_space w = true ->
  split_space (w ++ String " " t) = w :: split_space t.
Proof.
  induction w as [|c r IH]; [reflexivity|].
  cbn [no_space append split_space]. intros H.
  apply andb_true_iff in H as [Hc Hr].
  destruct (Ascii.eqb c " "); [discriminate|]. now rewrite IH.
Qed.

Lemma truthy_append_space w t : truthy (Some (w ++ String " " t)) = true.
Proof. now destruct w. Qed.

Lemma truthy_false v :
  truthy v = false <-> v = None \/ v = Some EmptyString.
Proof.
  split.
  - destruct v as [[|c r]|]; try discriminate; auto.
  - now intros [-> | ->].
Qed.

(** *** Letter case and white space, by character code *)

(** The upper-case letters below 256: A to Z, U+00C0 to U+00D6 and U+00D8
    to U+00DE. *)
Definition UpperCaseLetter (c : ascii) : Prop :=
  let n := nat_of_ascii c in
  (65 <= n <= 90)%nat \/ (192 <= n <= 214)%nat \/ (216 <= n <= 222)%nat.

(** TAB, LF, VT, FF, CR, SPACE and the no-break space. *)
Definition WhiteSpaceChar (c : ascii) : Prop :=
  let n := nat_of_ascii c in
  (9 <= n <= 13)%nat \/ n = 32%nat \/ n = 160%nat.

(** Every character of [s] satisfies [P]. *)
Definition everyChar (P : ascii -> Prop) (s : string) : Prop :=
  forall i c, String.get i s = Some c -> P c.

(** [s] has no upper-case letter. *)
Definition lowerCased (s : string) : Prop :=
  everyChar (fun c => ~ UpperCaseLetter c) s.

(** [s] neither begins nor ends with a white-space character. *)
Definition trimmed (s : string) : Prop :=
  forall c r,
    (s = String c r -> ~ WhiteSpaceChar c) /\
    (s = r ++ String c EmptyString -> ~ WhiteSpaceChar c).

(** [out] is [inp] with every upper-case letter replaced by the character
    32 places up, its lower-case form, and every other character kept. *)
Definition lowerCaseOf (inp out : string) : Prop :=
  String.length out = String.length inp /\
  forall i c, String.get i inp = Some c ->
    (UpperCaseLetter c ->
     String.get i out = Some (ascii_of_nat (nat_of_ascii c + 32))) /\
    (~ UpperCaseLetter c -> String.get i out = Some c).

(** [out] is [inp] without the white space at its two ends. *)
Definition trimOf (inp out : string) : Prop :=
  trimmed out /\
  exists l r, inp = l ++ out ++ r /\
              everyChar WhiteSpaceChar l /\ everyChar WhiteSpaceChar r.

Lemma upper_spec c :
  UpperCaseLetter c <-> (isUpper c || isUpperLatin1 c) = true.
Proof.
  unfold UpperCaseLetter, isUpper, isUpperLatin1. cbn zeta.
  rewrite !orb_true_iff, !andb_true_iff, !Nat.leb_le. tauto.
Qed.

Lemma white_spec c : WhiteSpaceChar c <-> isWhiteSpace c = true.
Proof.
  unfold WhiteSpaceChar, isWhiteSpace. cbn zeta.
  rewrite !orb_true_iff, !andb_true_iff, !Nat.leb_le, !Nat.eqb_eq. tauto.
Qed.

Lemma lowerChar_upper c :
  UpperCaseLetter c -> lowerChar c = ascii_of_nat (nat_of_ascii c + 32).
Proof. intros H. apply upper_spec in H. unfold lowerChar. now rewrite H. Qed.

Lemma lowerChar_other c : ~ UpperCaseLetter c -> lowerChar c = c.
Proof.
  intros H. unfold lowerChar.
  destruct (isUpper c || isUpperLatin1 c) eqn:E; [|reflexivity].
  now apply upper_spec in E.
Qed.

Lemma lowerChar_not_upper c : ~ UpperCaseLetter (lowerChar c).
Proof.
  intros H. apply upper_spec in H. revert H.
  destruct c as [[] [] [] [] [] [] [] []]; vm_compute; discriminate.
Qed.

Lemma get_toLowerCase s : forall i,
  String.get i (toLowerCase s) = option_map lowerChar (String.get i s).
Proof.
  induction s as [|c r IH]; intros [|i]; cbn; trivial.
Qed.

Lemma length_toLowerCase s : String.length (toLowerCase s) = String.length s.
Proof. induction s as [|c r IH]; cbn; congruence. Qed.

Lemma toLowerCase_spec s : lowerCaseOf s (toLowerCase s).
Proof.
  split; [apply length_toLowerCase|].
  intros i c H. rewrite get_toLowerCase, H. cbn [option_map]. split; intros U.
  - now rewrite lowerChar_upper.
  - now rewrite lowerChar_other.
Qed.

Lemma toLowerCase_lowerCased s : lowerCased (toLowerCase s).
Proof.
  intros i c H. rewrite get_toLowerCase in H.
  destruct (String.get i s) as [c'|]; [|discriminate].
  injection H as <-. apply lowerChar_not_upper.
Qed.

Lemma everyChar_nil P : everyChar P EmptyString.
Proof. intros [|i] c H; discriminate. Qed.

Lemma everyChar_cons P c r :
  P c -> everyChar P r -> everyChar P (String c r).
Proof.
  intros Hc Hr [|i] c' H; cbn in H.
  - now injection H as <-.
  - now apply (Hr i).
Qed.

Lemma trimStart_split s :
  exists l, s = l ++ trimStart s /\ everyChar WhiteSpaceChar l.
Proof.
  induction s as [|c r (l & E & Hl)].
  - exists EmptyString. split; [reflexivity | apply everyChar_nil].
  - cbn [trimStart]. destruct (isWhiteSpace c) eqn:W.
    + exists (String c l). split; [cbn; now rewrite <- E|].
      apply everyChar_cons; [now apply white_spec | exact Hl].
    + exists EmptyString. split; [reflexivity | apply everyChar_nil].
Qed.

Lemma trimEnd_split s :
  exists r, s = trimEnd s ++ r /\ everyChar WhiteSpaceChar r.
Proof.
  induction s as [|c s' (r & E & Hr)].
  - exists EmptyString. split; [reflexivity | apply everyChar_nil].
  - cbn [trimEnd]. destruct (trimEnd s') as [|c' t] eqn:T.
    + cbn [append] in E. subst r. destruct (isWhiteSpace c) eqn:W.
      * exists (String c s'). split; [reflexivity|].
        apply everyChar_cons; [now apply white_spec | exact Hr].
      * exists s'. now split.
    + exists r. split; [cbn [append]; f_equal; exact E | exact Hr].
Qed.

(** What [trimEnd] leaves does not end with white space. *)
Lemma trimEnd_last s : forall r c,
  trimEnd s = r ++ String c EmptyString -> isWhiteSpace c = false.
Proof.
  induction s as [|a s' IH]; intros r c; cbn [trimEnd].
  - destruct r; discriminate.
  - destruct (trimEnd s') as [|c' t] eqn:T.
    + destruct (isWhiteSpace a) eqn:W; [destruct r; discriminate|].
      destruct r as [|x r]; cbn [append]; intros H.
      * now injection H as <-.
      * injection H as _ H. destruct r; discriminate.
    + destruct r as [|x r]; cbn [append]; intros H; [discriminate|].
      injection H as _ H. now apply (IH r c).
Qed.

Lemma trim_trimmed s : trimmed (trim s).
Proof.
  intros c r. split; intros E W; apply white_spec in W.
  - unfold trim in E.
    destruct (trimStart_head s) as [E0 | (c0 & r0 & E0 & W0)];
      rewrite E0 in E; [discriminate|].
    destruct (trimEnd_visible_head c0 r0 W0) as [r' E'].
    rewrite E' in E. injection E as -> _. congruence.
  - unfold trim in E. apply trimEnd_last in E. congruence.
Qed.

Lemma trim_spec s : trimOf s (trim s).
Proof.
  split; [apply trim_trimmed|].
  destruct (trimStart_split s) as (l & El & Hl).
  destruct (trimEnd_split (trimStart s)) as (r & Er & Hr).
  exists l, r. split; [|now split].
  unfold trim. now rewrite <- Er.
Qed.

(* ===================================================================== *)
(** ** The middleware *)
(* ===================================================================== *)

Section MiddlewareProperties.

Context {codec : JwtCodec}.

Lemma extractToken_word w t :
  no_space w = true ->
  extractToken (Some (w ++ String " " t)) = hd_error (split_space t).
Proof.
  intros Hw. unfold extractToken. rewrite truthy_append_space.
  cbn [str]. rewrite split_space_word by assumption.
  now destruct (split_space t).
Qed.

Lemma extractToken_no_space h :
  no_space h = true -> truthy (extractToken (Some h)) = false.
Proof.
  intros Hh. unfold extractToken.
  destruct (truthy (Some h)) eqn:T; [|exact T].
  cbn [str]. now rewrite no_space_split.
Qed.

(** [jwt.verify] fails exactly on a token that does not decode under the
    key or whose expiry has been reached. *)
Lemma jwt_verify_error now t k :
  (exists e, jwt_verify now t k = inl e) <->
  jwt_decode k t = None \/
  exists p e, jwt_decode k t = Some p /\ exp p = Some e /\ (e <= now / 1000)%Z.
Proof.
  unfold jwt_verify. destruct (jwt_decode k t) as [p|].
  - destruct (exp p) as [e|] eqn:E.
    + destruct (Z.leb_spec e (now / 1000)) as [L|L].
      * split; [|now eexists]. intros _. right. now exists p, e.
      * split; [now intros [? ?]|].
        intros [?|(p' & e' & Hp & He & Hl)]; [discriminate|].
        injection Hp as <-. rewrite E in He. injection He as <-. lia.
    + split; [now intros [? ?]|].
      intros [?|(p' & e' & Hp & He & _)]; [discriminate|].
      injection Hp as <-. rewrite E in He. discriminate.
  - split; [now left | now eexists].
Qed.

Lemma jwt_verify_ok now t k p :
  jwt_verify now t k = inr p <->
  jwt_decode k t = Some p /\
  forall e, exp p = Some e -> (now / 1000 < e)%Z.
Proof.
  unfold jwt_verify. destruct (jwt_decode k t) as [p'|].
  - destruct (exp p') as [e|] eqn:E.
    + destruct (Z.leb_spec e (now / 1000)) as [L|L].
      * split; [discriminate|]. intros [Hp He]. injection Hp as <-.
        specialize (He e E). lia.
      * split.
        -- intros H. injection H as <-. split; [reflexivity|].
           intros e' He'. rewrite E in He'. injection He' as <-. exact L.
        -- intros [Hp _]. now injection Hp as <-.
    + split.
      * intros H. injection H as <-. split; [reflexivity|].
        intros e He. rewrite E in He. discriminate.
      * intros [Hp _]. now injection Hp as <-.
  - split; [discriminate|]. now intros [? _].
Qed.

(** A token signed at [T] with [expiresIn: '7d'] verifies at every clock
    whose second is before [T/1000 + 604800], and not from then on. *)
Lemma jwt_verify_sign T now c :
  jwt_verify now (jwt_sign T c JWT_SECRET expiresIn_7d) JWT_SECRET =
  if (T / 1000 + expiresIn_7d <=? now / 1000)%Z
  then inl TokenExpiredError
  else inr {| userId := c_userId c; jwt_username := c_username c;
              jwt_email := c_email c; iat := (T / 1000)%Z;
              exp := Some (T / 1000 + expiresIn_7d)%Z |}.
Proof.
  unfold jwt_verify, jwt_sign. now rewrite decode_encode.
Qed.

Lemma authenticateToken_bearer now t :
  t <> EmptyString -> no_space t = true ->
  authenticateToken now (Some ("Bearer " ++ t)) =
  match jwt_verify now t JWT_SECRET with
  | inl _ => Respond (errorResponse 403 "Invalid or expired token")
  | inr user => Next user
  end.
Proof.
  intros Hne Hsp. unfold authenticateToken.
  change ("Bearer " ++ t) with ("Bearer" ++ String " " t).
  rewrite extractToken_word by reflexivity.
  rewrite no_space_split by assumption. cbn [hd_error].
  destruct t as [|c r]; [contradiction|]. reflexivity.
Qed.

End MiddlewareProperties.

(* ===================================================================== *)
(** ** The handlers *)
(* ===================================================================== *)

(** A body field that is absent or the empty string. *)
Definition missing (v : option string) : Prop :=
  v = None \/ v = Some EmptyString.

Lemma missing_truthy v : missing v <-> truthy v = false.
Proof. symmetry. apply truthy_false. Qed.

Lemma NoDup_map_inj {A B} (f : A -> B) (l : list A) a b :
  NoDup (map f l) -> In a l -> In b l -> f a = f b -> a = b.
Proof.
  induction l as [|x r IH]; [contradiction|].
  cbn [map]. intros H Ha Hb E. inversion H as [|? ? Hx Hr]; subst.
  destruct Ha as [<-|Ha], Hb as [<-|Hb]; trivial.
  - exfalso. apply Hx. rewrite E. now apply in_map.
  - exfalso. apply Hx. rewrite <- E. now apply in_map.
  - now apply IH.
Qed.

Lemma NoDup_snoc {A} (l : list A) x : NoDup l -> ~ In x l -> NoDup (l ++ [x]).
Proof.
  intros Hl Hx. apply NoDup_app; trivial.
  - constructor; [intros []|constructor].
  - intros a Ha [<-|[]]. contradiction.
Qed.

Section ServiceProperties.

Context {hasher : Hasher} {codec : JwtCodec}.
Variable q : bool.

(** The document a successful signup stores. *)
Definition createdBy (env : Env) (b : SignupBody) : UserDoc :=
  {| _id := freshId env;
     fullName := set_fullName (str (sb_fullName b));
     username := set_lower (str (sb_username b));
     email := set_lower (str (sb_email b));
     password := bcrypt_hash (freshSalt env) saltRounds (str (sb_password b));
     createdAt := nowMs env;
     updatedAt := nowMs env |}.

(** The body passes the two validation guards of the handler. *)
Definition validBody (b : SignupBody) : Prop :=
  truthy (sb_fullName b) = true /\ truthy (sb_username b) = true /\
  truthy (sb_email b) = true /\ truthy (sb_password b) = true /\
  (6 <= String.length (str (sb_password b)))%nat.

Lemma save_cases now st d :
  (exists e, save now st d = inl e) \/
  (validateSync d = true /\ violatesUnique st d = false /\
   save now st d =
   inr ({| _id := _id d; fullName := fullName d; username := username d;
           email := email d; password := password d;
           createdAt := now; updatedAt := now |},
        (st ++ [{| _id := _id d; fullName := fullName d;
                   username := username d; email := email d;
                   password := password d;
                   createdAt := now; updatedAt := now |}])%list)).
Proof.
  unfold save. destruct (validateSync d); cbn [negb].
  - destruct (violatesUnique st d); [left; now eexists | right; auto].
  - left. now eexists.
Qed.

(** The handler after its validation guards. *)
Lemma signup_validBody env st b :
  validBody b ->
  signup q env st b =
  match duplicateCheck (findOne_or q st (str (sb_email b)) (str (sb_username b)))
                       (str (sb_email b)) (str (sb_username b)) with
  | Some r => (r, st)
  | None =>
      match save (nowMs env) st
              (new_User (freshId env) (str (sb_fullName b))
                 (str (sb_username b)) (str (sb_email b))
                 (bcrypt_hash (freshSalt env) saltRounds (str (sb_password b))))
      with
      | inl _ => (errorResponse 500 "Internal server error. Please try again.", st)
      | inr (newUser, st') =>
          (mkResponse 201
             (JObject [("message", JString "Account created successfully!");
                       ("token",
                        JString (jwt_sign (nowMs env) (claimsOf newUser)
                                   JWT_SECRET expiresIn_7d));
                       ("user", userView newUser)]),
           st')
      end
  end.
Proof.
  intros (Hf & Hu & He & Hp & Hl). unfold signup.
  rewrite Hf, Hu, He, Hp. cbn [negb orb].
  destruct (Nat.ltb_spec (String.length (str (sb_password b))) 6) as [L|L];
    [lia | reflexivity].
Qed.

Lemma signup_invalidBody env st b :
  ~ validBody b ->
  exists msg,
    signup q env st b = (errorResponse 400 msg, st) /\
    (msg = "All fields are required" \/
     msg = "Password must be at least 6 characters long").
Proof.
  intros Hn. unfold signup.
  destruct (truthy (sb_fullName b)) eqn:Hf; cbn [negb orb];
    [|eexists; split; [reflexivity | now left]].
  destruct (truthy (sb_username b)) eqn:Hu; cbn [negb orb];
    [|eexists; split; [reflexivity | now left]].
  destruct (truthy (sb_email b)) eqn:He; cbn [negb orb];
    [|eexists; split; [reflexivity | now left]].
  destruct (truthy (sb_password b)) eqn:Hp; cbn [negb orb];
    [|eexists; split; [reflexivity | now left]].
  destruct (Nat.ltb_spec (String.length (str (sb_password b))) 6) as [L|L].
  - eexists; split; [reflexivity | now right].
  - exfalso. apply Hn. unfold validBody. auto.
Qed.

Lemma validBody_dec b : validBody b \/ ~ validBody b.
Proof.
  unfold validBody.
  destruct (truthy (sb_fullName b)), (truthy (sb_username b)),
    (truthy (sb_email b)), (truthy (sb_password b));
    try (right; intros (? & ? & ? & ? & ?); discriminate).
  destruct (le_lt_dec 6 (String.length (str (sb_password b)))).
  - left. auto.
  - right. intros (_ & _ & _ & _ & ?). lia.
Qed.

(** Every outcome of the signup handler: an error that leaves the
    collection alone, or status 201 with the new document appended. *)
Lemma signup_cases env st b :
  (exists code msg,
      signup q env st b = (errorResponse code msg, st) /\ code <> 201%Z) \/
  (validBody b /\
   violatesUnique st (createdBy env b) = false /\
   validateSync (createdBy env b) = true /\
   signup q env st b =
   (mkResponse 201
      (JObject [("message", JString "Account created successfully!");
                ("token",
                 JString (jwt_sign (nowMs env) (claimsOf (createdBy env b))
                            JWT_SECRET expiresIn_7d));
                ("user", userView (createdBy env b))]),
    (st ++ [createdBy env b])%list)).
Proof.
  destruct (validBody_dec b) as [Hv|Hv].
  - rewrite signup_validBody by assumption.
    destruct (duplicateCheck _ _ _) as [r|] eqn:D.
    + left. unfold duplicateCheck in D.
      destruct (findOne_or _ _ _) as [u|]; [|discriminate].
      destruct (String.eqb (email u) _).
      * injection D as <-. do 2 eexists. split; [reflexivity|lia].
      * destruct (String.eqb (username u) _); [|discriminate].
        injection D as <-. do 2 eexists. split; [reflexivity|lia].
    + destruct (save_cases (nowMs env) st
                  (new_User (freshId env) (str (sb_fullName b))
                     (str (sb_username b)) (str (sb_email b))
                     (bcrypt_hash (freshSalt env) saltRounds
                        (str (sb_password b)))))
        as [[e E] | (V & U & E)]; rewrite E.
      * left. do 2 eexists. split; [reflexivity|lia].
      * right. split; [exact Hv|]. split; [exact U|]. split; [exact V|].
        reflexivity.
  - destruct (signup_invalidBody env st b Hv) as (msg & E & _).
    left. exists 400%Z, msg. split; [exact E|lia].
Qed.

Lemma login_store env st b : snd (login q env st b) = st.
Proof.
  unfold login.
  destruct (negb (truthy (lb_emailOrUsername b)) || negb (truthy (lb_password b)));
    [reflexivity|].
  destruct (findOne_or _ _ _) as [u|]; [|reflexivity].
  now destruct (negb (bcrypt_compare _ _)).
Qed.

Lemma profile_store env st h : snd (profile env st h) = st.
Proof.
  unfold profile. now destruct (authenticateToken (nowMs env) h).
Qed.

(** Signup is the only operation that writes, and it only appends. *)
Lemma handle_store env st r :
  snd (handle q env st r) = st \/
  exists b, r = PostSignup b /\ validBody b /\
            violatesUnique st (createdBy env b) = false /\
            validateSync (createdBy env b) = true /\
            snd (handle q env st r) = (st ++ [createdBy env b])%list.
Proof.
  destruct r as [b|b|h]; cbn [handle].
  - destruct (signup_cases env st b) as [(c & m & E & _) | (Hv & U & V & E)];
      rewrite E; cbn [snd]; [now left|].
    right. now exists b.
  - left. apply login_store.
  - left. apply profile_store.
Qed.

(** *** Invariants of the collection *)

(** A stored document: trimmed name, lower-case trimmed [username] and
    [email], no empty path, and a [password] path that holds the hash of a
    plaintext of at least six characters. *)
Record doc_ok (d : UserDoc) : Prop := {
  ok_fullName : trim (fullName d) = fullName d;
  ok_username : set_lower (username d) = username d;
  ok_email : set_lower (email d) = email d;
  ok_username_lower : toLowerCase (username d) = username d;
  ok_email_lower : toLowerCase (email d) = email d;
  ok_nonempty : fullName d <> EmptyString /\ username d <> EmptyString /\
                email d <> EmptyString;
  ok_password : exists s plain,
      password d = bcrypt_hash s saltRounds plain /\
      (6 <= String.length plain)%nat
}.

Record store_ok (st : Store) : Prop := {
  ok_docs : forall d, In d st -> doc_ok d;
  ok_ids : NoDup (map _id st);
  ok_usernames : NoDup (map username st);
  ok_emails : NoDup (map email st)
}.

Lemma createdBy_ok env b :
  validBody b -> validateSync (createdBy env b) = true ->
  doc_ok (createdBy env b).
Proof.
  intros (_ & _ & _ & _ & Hl) V. unfold validateSync in V.
  repeat (apply andb_true_iff in V as [V ?]).
  constructor; cbn [createdBy fullName username email password].
  - apply trim_idem.
  - apply set_lower_idem.
  - apply set_lower_idem.
  - apply set_lower_lower.
  - apply set_lower_lower.
  - repeat split; intros E; cbn [createdBy fullName username email] in *;
      rewrite E in *; discriminate.
  - now exists (freshSalt env), (str (sb_password b)).
Qed.

Lemma violatesUnique_false st d :
  violatesUnique st d = false ->
  ~ In (_id d) (map _id st) /\ ~ In (username d) (map username st) /\
  ~ In (email d) (map email st).
Proof.
  unfold violatesUnique. intros H.
  assert (forall x, In x st ->
            _id x <> _id d /\ username x <> username d /\ email x <> email d)
    as K.
  { intros x Hx.
    destruct (Nat.eqb (_id x) (_id d) || String.eqb (username x) (username d)
              || String.eqb (email x) (email d)) eqn:E.
    - assert (existsb (fun x => Nat.eqb (_id x) (_id d)
                                || String.eqb (username x) (username d)
                                || String.eqb (email x) (email d)) st = true)
        as C by (apply existsb_exists; now exists x).
      rewrite C in H. discriminate.
    - apply orb_false_iff in E as [E E3]. apply orb_false_iff in E as [E1 E2].
      apply Nat.eqb_neq in E1. apply String.eqb_neq in E2, E3. auto. }
  repeat split; intros Hin; apply in_map_iff in Hin as (x & E & Hx);
    destruct (K x Hx) as (K1 & K2 & K3); contradiction.
Qed.

Lemma handle_ok env st r : store_ok st -> store_ok (snd (handle q env st r)).
Proof.
  intros Hst.
  destruct (handle_store env st r) as [E | (b & -> & Hv & U & V & E)];
    rewrite E; [exact Hst|].
  destruct Hst as [Hd Hi Hu He].
  apply violatesUnique_false in U as (U1 & U2 & U3).
  constructor.
  - intros d Hin. apply in_app_iff in Hin as [Hin | [<- | []]]; auto.
    now apply createdBy_ok.
  - rewrite map_app. now apply NoDup_snoc.
  - rewrite map_app. now apply NoDup_snoc.
  - rewrite map_app. now apply NoDup_snoc.
Qed.

Lemma reachable_ok st : reachable q st -> store_ok st.
Proof.
  induction 1 as [|st env r _ IH].
  - constructor; [intros d [] | constructor | constructor | constructor].
  - now apply handle_ok.
Qed.

(** *** Signup: validation *)

Lemma missing_not_valid b :
  missing (sb_fullName b) \/ missing (sb_username b) \/
  missing (sb_email b) \/ missing (sb_password b) \/
  (exists pw, sb_password b = Some pw /\ (String.length pw < 6)%nat) ->
  ~ validBody b.
Proof.
  intros H (Hf & Hu & He & Hp & Hl).
  destruct H as [H|[H|[H|[H|(pw & E & L)]]]];
    try (apply missing_truthy in H; congruence).
  rewrite E in Hl. cbn [str] in Hl. lia.
Qed.

(** C3.  A signup body in which [fullName], [username], [email] or
    [password] is missing or empty, or whose [password] is shorter than six
    characters, is answered with status 400 and a validation message; the
    collection is returned unchanged and the response carries no token. *)
Theorem signup_rejects_invalid_body env st b :
  missing (sb_fullName b) \/ missing (sb_username b) \/
  missing (sb_email b) \/ missing (sb_password b) \/
  (exists pw, sb_password b = Some pw /\ (String.length pw < 6)%nat) ->
  exists msg,
    signup q env st b = (errorResponse 400 msg, st) /\
    (msg = "All fields are required" \/
     msg = "Password must be at least 6 characters long") /\
    status (fst (signup q env st b)) = 400%Z /\
    field "token" (body (fst (signup q env st b))) = None.
Proof.
  intros H. apply missing_not_valid in H.
  destruct (signup_invalidBody env st b H) as (msg & E & M).
  exists msg. rewrite E. repeat split; trivial.
Qed.

(** *** Signup: duplicates *)

Lemma castForQuery_fixed s :
  set_lower s = s -> castForQuery q s = s.
Proof. unfold castForQuery. now destruct q. Qed.

(** With both submitted values in stored form, the lookup finds a
    document as soon as one carries the email or the username. *)
Lemma findOne_or_exists st em un :
  set_lower em = em -> set_lower un = un ->
  (exists d, In d st /\ (email d = em \/ username d = un)) ->
  exists u, findOne_or q st em un = Some u /\ In u st /\
            (email u = em \/ username u = un).
Proof.
  intros Hem Hun (d & Hin & Hd). unfold findOne_or.
  rewrite !castForQuery_fixed by assumption.
  destruct (find _ st) as [u|] eqn:F.
  - apply find_some in F as [Hu Hm]. exists u. repeat split; trivial.
    apply orb_true_iff in Hm as [Hm|Hm]; apply String.eqb_eq in Hm; auto.
  - exfalso. apply (find_none _ _ F) in Hin.
    apply orb_false_iff in Hin as [H1 H2].
    apply String.eqb_neq in H1, H2. destruct Hd; contradiction.
Qed.









(** *** Login *)

Lemma login_validBody env st b :
  truthy (lb_emailOrUsername b) = true -> truthy (lb_password b) = true ->
  login q env st b =
  match findOne_or q st (toLowerCase (str (lb_emailOrUsername b)))
                      (toLowerCase (str (lb_emailOrUsername b))) with
  | None => (errorResponse 400 "Invalid credentials", st)
  | Some user =>
      if negb (bcrypt_compare (str (lb_password b)) (password user))
      then (errorResponse 400 "Invalid credentials", st)
      else
        (mkResponse 200
           (JObject [("message", JString "Login successful!");
                     ("token",
                      JString (jwt_sign (nowMs env) (claimsOf user)
                                 JWT_SECRET expiresIn_7d));
                     ("user", userView user)]),
         st)
  end.
Proof.
  intros Hi Hp. unfold login. now rewrite Hi, Hp.
Qed.

(** C4.  Of two login requests that pass validation, one whose identifier
    matches no document and one whose identifier matches a document but
    whose password fails verification, both are answered with status 400
    and the message 'Invalid credentials': the two responses are equal. *)
Theorem login_failures_indistinguishable env1 st1 b1 env2 st2 b2 u :
  truthy (lb_emailOrUsername b1) = true -> truthy (lb_password b1) = true ->
  truthy (lb_emailOrUsername b2) = true -> truthy (lb_password b2) = true ->
  findOne_or q st1 (toLowerCase (str (lb_emailOrUsername b1)))
                 (toLowerCase (str (lb_emailOrUsername b1))) = None ->
  findOne_or q st2 (toLowerCase (str (lb_emailOrUsername b2)))
                 (toLowerCase (str (lb_emailOrUsername b2))) = Some u ->
  bcrypt_compare (str (lb_password b2)) (password u) = false ->
  fst (login q env1 st1 b1) = errorResponse 400 "Invalid credentials" /\
  fst (login q env2 st2 b2) = errorResponse 400 "Invalid credentials" /\
  fst (login q env1 st1 b1) = fst (login q env2 st2 b2).
Proof.
  intros Hi1 Hp1 Hi2 Hp2 F1 F2 C.
  rewrite !login_validBody by assumption.
  rewrite F1, F2, C. cbn [negb fst]. auto.
Qed.

(** In a collection with unique ids, emails and usernames the lookup of a
    value in stored form resolves to the document that owns it as its email
    (resp. username), provided no other document owns it as its username
    (resp. email). *)
Lemma findOne_or_resolves st u k :
  store_ok st -> In u st -> set_lower k = k ->
  (email u = k /\ (forall d, In d st -> d <> u -> username d <> k)) \/
  (username u = k /\ (forall d, In d st -> d <> u -> email d <> k)) ->
  findOne_or q st k k = Some u.
Proof.
  intros [_ Hid Hun Hem] Hin Hk Hcase. unfold findOne_or.
  rewrite castForQuery_fixed by assumption.
  destruct (find _ st) as [d|] eqn:F.
  - apply find_some in F as [Hd Hm]. f_equal.
    destruct (Nat.eq_dec (_id d) (_id u)) as [I|I];
      [now apply (NoDup_map_inj _id st)|].
    assert (d <> u) as Hne by (intros ->; now apply I).
    apply orb_true_iff in Hm as [Hm|Hm]; apply String.eqb_eq in Hm;
      destruct Hcase as [[E N]|[E N]].
    + apply (NoDup_map_inj email st); trivial. congruence.
    + now apply (N d Hd Hne) in Hm.
    + now apply (N d Hd Hne) in Hm.
    + apply (NoDup_map_inj username st); trivial. congruence.
  - exfalso. apply (find_none _ _ F) in Hin.
    apply orb_false_iff in Hin as [H1 H2]. apply String.eqb_neq in H1, H2.
    destruct Hcase as [[E _]|[E _]]; contradiction.
Qed.

Lemma toLowerCase_nonempty s : toLowerCase s <> EmptyString -> s <> EmptyString.
Proof. now destruct s. Qed.

Lemma truthy_nonempty s : s <> EmptyString -> truthy (Some s) = true.
Proof. now destruct s. Qed.

Lemma long_nonempty s : (6 <= String.length s)%nat -> s <> EmptyString.
Proof. destruct s; cbn; [lia | discriminate]. Qed.

(** A candidate password that has the first 72 characters of the hashed
    plaintext cannot be empty when the plaintext is not. *)
Lemma same_prefix_nonempty pw plain :
  substring 0 72 pw = substring 0 72 plain ->
  plain <> EmptyString -> pw <> EmptyString.
Proof.
  intros E N ->. destruct plain; [now apply N | discriminate].
Qed.

(** C5 (as the code has it).  Every document of a reachable collection
    holds the hash of one plaintext of at least six characters.  For every
    identifier whose lower-case form is the document's email and no other
    document's username, or the document's username and no other
    document's email: Login with that plaintext answers 200 with a token
    and the document's view; Login with any non-empty password answers 200
    when [bcrypt.compare] verifies the password, taken as submitted,
    against the stored hash, and 400 'Invalid credentials' when it does
    not; [bcrypt.compare] verifies a password exactly when it hashes, under
    the stored salt, to the stored hash, so a password that hashes to
    anything else, in whatever it differs from the plaintext, is answered
    400; and a password that has the first 72 characters of the plaintext
    is verified, whatever follows them. *)
Theorem login_resolved_identifier st u :
  reachable q st -> In u st ->
  exists salt plain,
    password u = bcrypt_hash salt saltRounds plain /\
    (6 <= String.length plain)%nat /\
    forall env ident pw,
      (toLowerCase ident = email u /\
       (forall d, In d st -> d <> u -> username d <> email u)) \/
      (toLowerCase ident = username u /\
       (forall d, In d st -> d <> u -> email d <> username u)) ->
      let accepted :=
        (mkResponse 200
           (JObject [("message", JString "Login successful!");
                     ("token",
                      JString (jwt_sign (nowMs env) (claimsOf u)
                                 JWT_SECRET expiresIn_7d));
                     ("user", userView u)]),
         st) in
      (pw = plain ->
       login q env st (mkLogin (Some ident) (Some pw)) = accepted) /\
      (pw <> EmptyString ->
       login q env st (mkLogin (Some ident) (Some pw)) =
       if bcrypt_compare pw (password u) then accepted
       else (errorResponse 400 "Invalid credentials", st)) /\
      bcrypt_compare pw (password u) =
      String.eqb (bcrypt_hash salt saltRounds pw) (password u) /\
      (pw <> EmptyString -> bcrypt_hash salt saltRounds pw <> password u ->
       login q env st (mkLogin (Some ident) (Some pw)) =
       (errorResponse 400 "Invalid credentials", st)) /\
      (substring 0 72 pw = substring 0 72 plain ->
       login q env st (mkLogin (Some ident) (Some pw)) = accepted).
Proof.
  intros Hr Hin. apply reachable_ok in Hr.
  pose proof (ok_docs st Hr u Hin) as Hu.
  destruct (ok_password u Hu) as (s & plain & Hpw & Hlen).
  destruct (ok_nonempty u Hu) as (_ & Hune & Heme).
  exists s, plain. split; [exact Hpw|]. split; [exact Hlen|].
  intros env ident pw Hcase.
  assert (findOne_or q st (toLowerCase ident) (toLowerCase ident) = Some u) as F.
  { apply findOne_or_resolves; trivial.
    - destruct Hcase as [[E _]|[E _]]; rewrite E; apply Hu.
    - destruct Hcase as [[E N]|[E N]]; rewrite E; auto. }
  assert (truthy (Some ident) = true) as Ti.
  { apply truthy_nonempty, toLowerCase_nonempty.
    destruct Hcase as [[E _]|[E _]]; now rewrite E. }
  assert (pw <> EmptyString ->
          login q env st (mkLogin (Some ident) (Some pw)) =
          if bcrypt_compare pw (password u)
          then (mkResponse 200
                  (JObject [("message", JString "Login successful!");
                            ("token",
                             JString (jwt_sign (nowMs env) (claimsOf u)
                                        JWT_SECRET expiresIn_7d));
                            ("user", userView u)]),
                st)
          else (errorResponse 400 "Invalid credentials", st)) as Any.
  { intros Hne.
    rewrite login_validBody; [|exact Ti | now apply truthy_nonempty].
    cbn [lb_emailOrUsername lb_password str]. rewrite F.
    now destruct (bcrypt_compare pw (password u)). }
  assert (substring 0 72 pw = substring 0 72 plain ->
          login q env st (mkLogin (Some ident) (Some pw)) =
          (mkResponse 200
             (JObject [("message", JString "Login successful!");
                       ("token",
                        JString (jwt_sign (nowMs env) (claimsOf u)
                                   JWT_SECRET expiresIn_7d));
                       ("user", userView u)]),
           st)) as Prefix.
  { intros E. rewrite Any.
    - now rewrite Hpw, compare_first_72.
    - apply (same_prefix_nonempty pw plain E). now apply long_nonempty. }
  cbn zeta. split; [|split; [exact Any|split; [|split; [|exact Prefix]]]].
  - intros ->. now apply Prefix.
  - rewrite Hpw. apply compare_rehash.
  - intros Hne Hh. rewrite (Any Hne), Hpw, compare_rehash, <- Hpw.
    apply String.eqb_neq in Hh. now rewrite Hh.
Qed.

(** *** Successful signup *)

Lemma validateSync_createdBy env b :
  validateSync (createdBy env b) =
  negb (String.eqb (set_fullName (str (sb_fullName b))) "") &&
  negb (String.eqb (set_lower (str (sb_username b))) "") &&
  negb (String.eqb (set_lower (str (sb_email b))) "").
Proof.
  unfold validateSync. cbn [createdBy fullName username email password].
  pose proof (hash_long (freshSalt env) saltRounds (str (sb_password b))) as L.
  pose proof (long_nonempty _ L) as N. apply String.eqb_neq in N.
  apply Nat.leb_le in L. rewrite N, L. cbn [negb]. now rewrite !andb_true_r.
Qed.

Lemma signup_created env st b :
  validBody b ->
  duplicateCheck (findOne_or q st (str (sb_email b)) (str (sb_username b)))
                 (str (sb_email b)) (str (sb_username b)) = None ->
  validateSync (createdBy env b) = true ->
  violatesUnique st (createdBy env b) = false ->
  signup q env st b =
  (mkResponse 201
     (JObject [("message", JString "Account created successfully!");
               ("token",
                JString (jwt_sign (nowMs env) (claimsOf (createdBy env b))
                           JWT_SECRET expiresIn_7d));
               ("user", userView (createdBy env b))]),
   (st ++ [createdBy env b])%list).
Proof.
  intros Hv D V U. rewrite signup_validBody by assumption. rewrite D.
  unfold save.
  change (validateSync (new_User _ _ _ _ _)) with (validateSync (createdBy env b)).
  change (violatesUnique st (new_User _ _ _ _ _))
    with (violatesUnique st (createdBy env b)).
  now rewrite V, U.
Qed.

(** Past validation and the duplicate check, a document that the schema
    or a unique index refuses is answered with the generic 500. *)
Lemma signup_refused env st b :
  validBody b ->
  duplicateCheck (findOne_or q st (str (sb_email b)) (str (sb_username b)))
                 (str (sb_email b)) (str (sb_username b)) = None ->
  validateSync (createdBy env b) = false \/
  violatesUnique st (createdBy env b) = true ->
  signup q env st b =
  (errorResponse 500 "Internal server error. Please try again.", st).
Proof.
  intros Hv D VU. rewrite signup_validBody by assumption. rewrite D.
  unfold save.
  change (validateSync (new_User _ _ _ _ _)) with (validateSync (createdBy env b)).
  change (violatesUnique st (new_User _ _ _ _ _))
    with (violatesUnique st (createdBy env b)).
  destruct VU as [V|U].
  - now rewrite V.
  - rewrite U. now destruct (validateSync (createdBy env b)).
Qed.

(** *** What is stored *)

(** C8.  In every reachable collection, every document holds in its
    [password] path the bcrypt hash of a plaintext, which verifies that
    plaintext and is not the plaintext itself; its [fullName], [username]
    and [email] neither begin nor end with a white-space character, and
    its [username] and [email] contain no upper-case letter.  A request
    either leaves the collection as it is or is a signup that appends one
    document: its [password] is the hash of the submitted password under
    the fresh salt, its [fullName] is the submitted one without the white
    space at its two ends, and its [username] and [email] are the
    submitted ones without the white space at their two ends and with
    every upper-case letter replaced by its lower-case form. *)
Theorem stored_documents_hashed_and_normalised st :
  reachable q st ->
  (forall d, In d st ->
     (exists salt plain,
         password d = bcrypt_hash salt saltRounds plain /\
         password d <> plain /\
         bcrypt_compare plain (password d) = true) /\
     trimmed (fullName d) /\
     trimmed (username d) /\ lowerCased (username d) /\
     trimmed (email d) /\ lowerCased (email d)) /\
  (forall env r,
     snd (handle q env st r) = st \/
     exists b d,
       r = PostSignup b /\
       snd (handle q env st r) = (st ++ [d])%list /\
       _id d = freshId env /\
       password d =
       bcrypt_hash (freshSalt env) saltRounds (str (sb_password b)) /\
       trimOf (str (sb_fullName b)) (fullName d) /\
       (exists t, trimOf (str (sb_username b)) t /\
                  lowerCaseOf t (username d)) /\
       (exists t, trimOf (str (sb_email b)) t /\ lowerCaseOf t (email d))).
Proof.
  intros Hr. split.
  - intros d Hin. apply reachable_ok in Hr.
    pose proof (ok_docs st Hr d Hin) as Hd.
    destruct (ok_password d Hd) as (s & plain & Hpw & _).
    split; [|split; [|split; [|split; [|split]]]].
    + exists s, plain. rewrite Hpw. split; [reflexivity|]. split.
      * apply hash_not_plain.
      * apply compare_same.
    + rewrite <- (ok_fullName d Hd). apply trim_trimmed.
    + rewrite <- (ok_username d Hd). unfold set_lower.
      rewrite set_lower_commute. apply trim_trimmed.
    + rewrite <- (ok_username_lower d Hd). apply toLowerCase_lowerCased.
    + rewrite <- (ok_email d Hd). unfold set_lower.
      rewrite set_lower_commute. apply trim_trimmed.
    + rewrite <- (ok_email_lower d Hd). apply toLowerCase_lowerCased.
  - intros env r.
    destruct (handle_store env st r) as [E | (b & E & _ & _ & _ & E')];
      [now left|].
    right. exists b, (createdBy env b). split; [exact E|].
    split; [exact E'|]. cbn [createdBy _id password fullName username email].
    split; [reflexivity|]. split; [reflexivity|].
    split; [apply trim_spec|]. unfold set_lower.
    split; eexists; (split; [apply trim_spec | apply toLowerCase_spec]).
Qed.

(** *** What is returned *)

Definition viewKeys : list string := ["id"; "fullName"; "username"; "email"].

Lemma login_cases env st b :
  (exists msg, login q env st b = (errorResponse 400 msg, st)) \/
  (exists u, In u st /\
     login q env st b =
     (mkResponse 200
        (JObject [("message", JString "Login successful!");
                  ("token",
                   JString (jwt_sign (nowMs env) (claimsOf u)
                              JWT_SECRET expiresIn_7d));
                  ("user", userView u)]),
      st)).
Proof.
  unfold login.
  destruct (negb (truthy (lb_emailOrUsername b)) || negb (truthy (lb_password b)));
    [left; now eexists|].
  destruct (findOne_or _ _ _) as [u|] eqn:F; [|left; now eexists].
  destruct (negb (bcrypt_compare _ _)); [left; now eexists|].
  right. exists u. split; [|reflexivity].
  unfold findOne_or in F. now apply find_some in F.
Qed.

Lemma profile_cases env st h :
  (exists code msg, profile env st h = (errorResponse code msg, st) /\
                    (code = 401 \/ code = 403 \/ code = 404)%Z) \/
  (exists u, In u st /\
     profile env st h =
     (mkResponse 200
        (JObject [("user",
                   JObject [("id", JObjectId (_id u));
                            ("fullName", JString (fullName u));
                            ("username", JString (username u));
                            ("email", JString (email u));
                            ("createdAt", JDate (createdAt u))])]),
      st)).
Proof.
  unfold profile, authenticateToken.
  destruct (negb (truthy (extractToken h))).
  { left. do 2 eexists. split; [reflexivity|auto]. }
  destruct (jwt_verify _ _ _) as [e|user].
  { left. do 2 eexists. split; [reflexivity|auto]. }
  unfold profileHandler.
  destruct (findById st (userId user)) as [u|] eqn:F; cbn [option_map].
  - right. exists u. split; [|reflexivity].
    unfold findById in F. now apply find_some in F.
  - left. do 2 eexists. split; [reflexivity|auto].
Qed.

Lemma findById_none st id :
  (forall d, In d st -> _id d <> id) -> findById st id = None.
Proof.
  intros H. unfold findById. destruct (find _ st) as [u|] eqn:F; [|reflexivity].
  apply find_some in F as [Hin E]. apply Nat.eqb_eq in E. now apply H in Hin.
Qed.

(** C9.  Whatever the request, a [user] object in the response has the keys
    id, fullName, username and email, followed by createdAt when the
    request is GetProfile, so neither [password] nor [passwordHash] is
    among them; and GetProfile with a token that verifies but names an id
    no document has is answered 404 'User not found'. *)
Theorem user_view_excludes_password env st r :
  (forall v, field "user" (body (fst (handle q env st r))) = Some v ->
     ~ In "password" (keys v) /\ ~ In "passwordHash" (keys v) /\
     match r with
     | GetProfile _ => keys v = (viewKeys ++ ["createdAt"])%list
     | _ => keys v = viewKeys
     end) /\
  (forall h user,
     r = GetProfile h ->
     authenticateToken (nowMs env) h = Next user ->
     (forall d, In d st -> _id d <> userId user) ->
     fst (handle q env st r) = errorResponse 404 "User not found").
Proof.
  split.
  - intros v Hv.
    assert (match r with
            | GetProfile _ => keys v = (viewKeys ++ ["createdAt"])%list
            | _ => keys v = viewKeys
            end) as K.
    { destruct r as [b|b|h]; cbn [handle] in Hv.
      - destruct (signup_cases env st b) as [(c & m & E & _) | (_ & _ & _ & E)];
          rewrite E in Hv; cbn in Hv; [discriminate|].
        now injection Hv as <-.
      - destruct (login_cases env st b) as [(m & E) | (u & _ & E)];
          rewrite E in Hv; cbn in Hv; [discriminate|].
        now injection Hv as <-.
      - destruct (profile_cases env st h) as [(c & m & E & _) | (u & _ & E)];
          rewrite E in Hv; cbn in Hv; [discriminate|].
        now injection Hv as <-. }
    destruct r; rewrite K; cbn; repeat split; trivial;
      intros H; repeat (destruct H as [H|H]; [discriminate|]); exact H.
  - intros h user -> A N. cbn [handle]. unfold profile.
    rewrite A. cbn [fst]. unfold profileHandler.
    now rewrite findById_none.
Qed.

(** *** Tokens *)

Definition day_ms : Z := 24 * 60 * 60 * 1000.

(** A login that is answered 200: the document is the one the lookup of
    the lower-cased identifier returned, and the submitted password
    verified against its hash. *)
Lemma login_accepted_cases env st b :
  (exists msg, login q env st b = (errorResponse 400 msg, st)) \/
  (exists u,
     In u st /\
     findOne_or q st (toLowerCase (str (lb_emailOrUsername b)))
                     (toLowerCase (str (lb_emailOrUsername b))) = Some u /\
     (email u = castForQuery q (toLowerCase (str (lb_emailOrUsername b))) \/
      username u = castForQuery q (toLowerCase (str (lb_emailOrUsername b)))) /\
     bcrypt_compare (str (lb_password b)) (password u) = true /\
     login q env st b =
     (mkResponse 200
        (JObject [("message", JString "Login successful!");
                  ("token",
                   JString (jwt_sign (nowMs env) (claimsOf u)
                              JWT_SECRET expiresIn_7d));
                  ("user", userView u)]),
      st)).
Proof.
  unfold login.
  destruct (negb (truthy (lb_emailOrUsername b)) || negb (truthy (lb_password b)));
    [left; now eexists|].
  destruct (findOne_or _ _ _) as [u|] eqn:F; [|left; now eexists].
  destruct (bcrypt_compare _ _) eqn:C; cbn [negb]; [|left; now eexists].
  right. exists u. unfold findOne_or in F. apply find_some in F as [Hin Hm].
  repeat split; trivial.
  apply orb_true_iff in Hm as [Hm|Hm]; apply String.eqb_eq in Hm; auto.
Qed.

(** C6.  A token in a response of Signup or Login comes with the view of
    one stored document: the document the signup has just created from
    the request, or the document that the login's lookup of the
    lower-cased identifier returned and whose hash verified the submitted
    password.  The token is the encoding, under the server key, of the
    id, username and email of that document together with the second of
    issuance and an expiry [7 * 24 * 60 * 60] seconds later.  Presented as
    a Bearer token it lets the request proceed with exactly that payload
    at every clock before the expiry second, six days after issuance in
    particular, and is answered 403 from then on, eight days after
    issuance in particular.  GetProfile issues no token. *)
Theorem issued_token_lifetime env st r tok :
  field "token" (body (fst (handle q env st r))) = Some tok ->
  exists u t,
    In u (snd (handle q env st r)) /\
    field "user" (body (fst (handle q env st r))) = Some (userView u) /\
    match r with
    | PostSignup b =>
        u = createdBy env b /\ snd (handle q env st r) = (st ++ [u])%list
    | PostLogin b =>
        In u st /\
        findOne_or q st (toLowerCase (str (lb_emailOrUsername b)))
                        (toLowerCase (str (lb_emailOrUsername b))) = Some u /\
        (email u = castForQuery q (toLowerCase (str (lb_emailOrUsername b))) \/
         username u = castForQuery q (toLowerCase (str (lb_emailOrUsername b)))) /\
        bcrypt_compare (str (lb_password b)) (password u) = true
    | GetProfile _ => False
    end /\
    tok = JString t /\
    let payload :=
      {| userId := _id u; jwt_username := username u; jwt_email := email u;
         iat := (nowMs env / 1000)%Z;
         exp := Some (nowMs env / 1000 + 7 * 24 * 60 * 60)%Z |} in
    t = jwt_encode JWT_SECRET payload /\
    (forall now,
       authenticateToken now (Some ("Bearer " ++ t)) =
       if (nowMs env / 1000 + 7 * 24 * 60 * 60 <=? now / 1000)%Z
       then Respond (errorResponse 403 "Invalid or expired token")
       else Next payload) /\
    authenticateToken (nowMs env + 6 * day_ms) (Some ("Bearer " ++ t)) =
    Next payload /\
    authenticateToken (nowMs env + 8 * day_ms) (Some ("Bearer " ++ t)) =
    Respond (errorResponse 403 "Invalid or expired token").
Proof.
  intros Htok.
  assert (exists u,
            In u (snd (handle q env st r)) /\
            field "user" (body (fst (handle q env st r))) = Some (userView u) /\
            match r with
            | PostSignup b =>
                u = createdBy env b /\
                snd (handle q env st r) = (st ++ [u])%list
            | PostLogin b =>
                In u st /\
                findOne_or q st (toLowerCase (str (lb_emailOrUsername b)))
                  (toLowerCase (str (lb_emailOrUsername b))) = Some u /\
                (email u =
                 castForQuery q (toLowerCase (str (lb_emailOrUsername b))) \/
                 username u =
                 castForQuery q (toLowerCase (str (lb_emailOrUsername b)))) /\
                bcrypt_compare (str (lb_password b)) (password u) = true
            | GetProfile _ => False
            end /\
            tok = JString (jwt_sign (nowMs env) (claimsOf u)
                             JWT_SECRET expiresIn_7d))
    as (u & Hin & Hview & Hreq & ->).
  { destruct r as [b|b|h]; cbn [handle] in *.
    - destruct (signup_cases env st b) as [(c & m & E & _) | (_ & _ & _ & E)];
        rewrite E in *; cbn in Htok; [discriminate|].
      injection Htok as <-. exists (createdBy env b).
      split; [cbn [snd]; apply in_app_iff; right; now left|].
      now repeat split.
    - destruct (login_accepted_cases env st b)
        as [(m & E) | (u & Hu & F & M & C & E)];
        rewrite E in *; cbn in Htok; [discriminate|].
      injection Htok as <-. exists u. now repeat split.
    - destruct (profile_cases env st h) as [(c & m & E & _) | (u & _ & E)];
        rewrite E in Htok; cbn in Htok; discriminate. }
  exists u. eexists. split; [exact Hin|]. split; [exact Hview|].
  split; [exact Hreq|]. split; [reflexivity|].
  cbn zeta.
  assert (forall now,
       authenticateToken now
         (Some ("Bearer " ++ jwt_sign (nowMs env) (claimsOf u) JWT_SECRET
                               expiresIn_7d)) =
       if (nowMs env / 1000 + 7 * 24 * 60 * 60 <=? now / 1000)%Z
       then Respond (errorResponse 403 "Invalid or expired token")
       else Next {| userId := _id u; jwt_username := username u;
                    jwt_email := email u; iat := (nowMs env / 1000)%Z;
                    exp := Some (nowMs env / 1000 + 7 * 24 * 60 * 60)%Z |})
    as General.
  { intros now. rewrite authenticateToken_bearer.
    - rewrite jwt_verify_sign. unfold expiresIn_7d. cbn [claimsOf c_userId c_username c_email].
      now destruct (_ <=? _)%Z.
    - apply encode_nonempty.
    - apply encode_no_space. }
  split; [reflexivity|]. split; [exact General|]. split.
  - rewrite General.
    destruct (Z.leb_spec (nowMs env / 1000 + 7 * 24 * 60 * 60)
                ((nowMs env + 6 * day_ms) / 1000)) as [L|L]; [|reflexivity].
    exfalso. unfold day_ms in L.
    replace (nowMs env + 6 * (24 * 60 * 60 * 1000))%Z
      with (nowMs env + 518400 * 1000)%Z in L by lia.
    rewrite Z.div_add in L by lia. lia.
  - rewrite General.
    destruct (Z.leb_spec (nowMs env / 1000 + 7 * 24 * 60 * 60)
                ((nowMs env + 8 * day_ms) / 1000)) as [L|L]; [reflexivity|].
    exfalso. unfold day_ms in L.
    replace (nowMs env + 8 * (24 * 60 * 60 * 1000))%Z
      with (nowMs env + 691200 * 1000)%Z in L by lia.
    rewrite Z.div_add in L by lia. lia.
Qed.

End ServiceProperties.

(* ===================================================================== *)
(** ** The middleware: outcomes *)
(* ===================================================================== *)

Section MiddlewareOutcomes.

Context {codec : JwtCodec}.

(** The header is absent, or has no space, or has nothing between its
    first space and the next space or the end: there is no word in the
    place of the token. *)
Definition carriesNoToken (h : option string) : Prop :=
  h = None \/
  (exists s, h = Some s /\ no_space s = true) \/
  (exists w rest,
      h = Some (w ++ " " ++ rest) /\ no_space w = true /\
      (rest = EmptyString \/ exists r, rest = " " ++ r)).

(** The header has the non-empty word [t] between its first space and the
    next space or the end. *)
Definition carriesToken (h : option string) (t : string) : Prop :=
  exists w rest,
    h = Some (w ++ " " ++ t ++ rest) /\ no_space w = true /\
    t <> EmptyString /\ no_space t = true /\
    (rest = EmptyString \/ exists r, rest = " " ++ r).

Lemma first_space s :
  no_space s = true \/
  exists w rest, s = w ++ String " " rest /\ no_space w = true.
Proof.
  induction s as [|c r IH]; [now left|]. cbn [no_space].
  destruct (Ascii.eqb_spec c " ") as [->|N].
  - right. now exists EmptyString, r.
  - destruct IH as [H|(w & rest & -> & Hw)]; [left; exact H|].
    right. exists (String c w), rest. split; [reflexivity|].
    cbn [no_space]. apply Ascii.eqb_neq in N. now rewrite N.
Qed.

(** A string is a word without a space, followed by nothing or by a
    space. *)
Lemma first_word s :
  exists t rest,
    s = t ++ rest /\ no_space t = true /\
    (rest = EmptyString \/ exists r, rest = String " " r).
Proof.
  destruct (first_space s) as [H|(w & rest & -> & Hw)].
  - exists s, EmptyString. split; [|auto].
    clear H. induction s as [|c r IH]; [reflexivity|]. cbn. now rewrite <- IH.
  - exists w, (String " " rest). split; [reflexivity|]. split; [exact Hw|].
    right. now exists rest.
Qed.

Lemma header_shape h : carriesNoToken h \/ exists t, carriesToken h t.
Proof.
  destruct h as [s|]; [|left; now left].
  destruct (first_space s) as [H|(w & rest & -> & Hw)].
  - left. right. left. now exists s.
  - destruct (first_word rest) as (t & tail & -> & Ht & Htail).
    destruct t as [|c t'].
    + left. right. right. exists w, tail. now repeat split.
    + right. exists (String c t'), w, tail. repeat split; trivial.
      discriminate.
Qed.

Lemma append_empty_r s : s ++ EmptyString = s.
Proof. induction s as [|c r IH]; [reflexivity|]. cbn. now rewrite IH. Qed.

Lemma extractToken_carried h t :
  carriesToken h t -> extractToken h = Some t.
Proof.
  intros (w & rest & -> & Hw & Hne & Ht & Hrest).
  change (w ++ " " ++ t ++ rest) with (w ++ String " " (t ++ rest)).
  rewrite extractToken_word by assumption.
  destruct Hrest as [->|(r & ->)].
  - rewrite append_empty_r. now rewrite no_space_split.
  - change (" " ++ r) with (String " " r).
    now rewrite split_space_word.
Qed.

Lemma extractToken_not_carried h :
  carriesNoToken h -> truthy (extractToken h) = false.
Proof.
  intros [->|[(s & -> & Hs)|(w & rest & -> & Hw & Hrest)]].
  - reflexivity.
  - now apply extractToken_no_space.
  - change (w ++ " " ++ rest) with (w ++ String " " rest).
    rewrite extractToken_word by assumption.
    now destruct Hrest as [->|(r & ->)].
Qed.

(** C7.  Every Authorization header, present or not, either has a
    non-empty word between its first space and the next space or the end
    (the token) or has none, and for every clock the middleware does
    exactly one of three things.  It answers 401 'Access token required'
    when the header has no such word: the header is absent, or without a
    space, or its first space is followed at once by the end or by another
    space.  When the header has the word [t], it answers 403 'Invalid or
    expired token' if [t] does not decode under the server key (malformed,
    or signed otherwise) or its expiry has been reached, and it proceeds
    with the decoded payload if [t] decodes and has not expired.  The
    three outcomes are pairwise different and the 401 and the 403 answers
    differ in status. *)
Theorem middleware_three_outcomes now h :
  (carriesNoToken h \/ exists t, carriesToken h t) /\
  (carriesNoToken h ->
   authenticateToken now h =
   Respond (errorResponse 401 "Access token required")) /\
  (forall t, carriesToken h t ->
     ((jwt_decode JWT_SECRET t = None \/
       exists p e, jwt_decode JWT_SECRET t = Some p /\
                   exp p = Some e /\ (e <= now / 1000)%Z) /\
      authenticateToken now h =
      Respond (errorResponse 403 "Invalid or expired token")) \/
     (exists p, jwt_decode JWT_SECRET t = Some p /\
                (forall e, exp p = Some e -> (now / 1000 < e)%Z) /\
                authenticateToken now h = Next p)) /\
  status (errorResponse 401 "Access token required") <>
  status (errorResponse 403 "Invalid or expired token") /\
  (forall p, Next p <> Respond (errorResponse 401 "Access token required") /\
             Next p <> Respond (errorResponse 403 "Invalid or expired token")).
Proof.
  split; [apply header_shape|].
  split; [|split; [|split; [discriminate | split; discriminate]]].
  - intros H. unfold authenticateToken.
    now rewrite (extractToken_not_carried h H).
  - intros t H. unfold authenticateToken.
    rewrite (extractToken_carried h t H).
    destruct H as (_ & _ & _ & _ & Hne & _ & _).
    rewrite truthy_nonempty by assumption. cbn [negb str].
    destruct (jwt_verify now t JWT_SECRET) as [e|p] eqn:V.
    + left. split; [|reflexivity]. apply jwt_verify_error. now exists e.
    + right. exists p. apply jwt_verify_ok in V as [D E]. auto.
Qed.

(** C10.  The word before the first space of the header is never looked
    at: for every word [w] without a space, the header [w ++ " " ++ t] has
    the outcome of ["Bearer " ++ t], so a token that verifies is accepted
    under any scheme word; and a header without any space, a bare token or
    the word Bearer alone included, is answered 401 and not 403. *)
Theorem scheme_word_is_not_checked now w t h :
  (no_space w = true ->
   authenticateToken now (Some (w ++ " " ++ t)) =
   authenticateToken now (Some ("Bearer " ++ t)) /\
   (forall p, t <> EmptyString -> no_space t = true ->
              jwt_verify now t JWT_SECRET = inr p ->
              authenticateToken now (Some (w ++ " " ++ t)) = Next p)) /\
  (no_space h = true ->
   authenticateToken now (Some h) =
   Respond (errorResponse 401 "Access token required")) /\
  authenticateToken now (Some "Bearer") =
  Respond (errorResponse 401 "Access token required").
Proof.
  assert (forall w', no_space w' = true ->
            authenticateToken now (Some (w' ++ " " ++ t)) =
            if negb (truthy (hd_error (split_space t)))
            then Respond (errorResponse 401 "Access token required")
            else match jwt_verify now (str (hd_error (split_space t)))
                         JWT_SECRET with
                 | inl _ => Respond (errorResponse 403 "Invalid or expired token")
                 | inr user => Next user
                 end) as Any.
  { intros w' Hw'. unfold authenticateToken.
    change (w' ++ " " ++ t) with (w' ++ String " " t).
    now rewrite extractToken_word. }
  split; [|split].
  - intros Hw. split.
    + rewrite (Any w Hw).
      change ("Bearer " ++ t) with ("Bearer" ++ " " ++ t).
      now rewrite (Any "Bearer").
    + intros p Hne Hsp V. rewrite (Any w Hw).
      rewrite no_space_split by assumption. cbn [hd_error str].
      rewrite truthy_nonempty by assumption. cbn [negb]. now rewrite V.
  - intros Hh. unfold authenticateToken.
    now rewrite extractToken_no_space.
  - reflexivity.
Qed.

End MiddlewareOutcomes.

(* ===================================================================== *)
(** ** Scenarios *)
(* ===================================================================== *)

(** The specification's example signup, and requests that collide with it. *)
Definition janeBody : SignupBody :=
  mkSignup (Some "Jane Doe") (Some "janedoe") (Some "jane@x.com")
           (Some "secret1").

(** Jane's email in capitals, with a username of its own. *)
Definition capitalEmailBody : SignupBody :=
  mkSignup (Some "Jane Roe") (Some "jane2") (Some "JANE@X.COM")
           (Some "secret2").

(** Jane's username in mixed case, with an email of its own. *)
Definition mixedUsernameBody : SignupBody :=
  mkSignup (Some "Jane Roe") (Some "JaneDoe") (Some "roe@x.com")
           (Some "secret2").

(** A user whose username is Jane's email address. *)
Definition malloryBody : SignupBody :=
  mkSignup (Some "Mallory") (Some "jane@x.com") (Some "m@x.com")
           (Some "hunter22").

Definition serverError : Response :=
  errorResponse 500 "Internal server error. Please try again.".

(** A password of 73 characters, and the same with its last letter in
    capitals. *)
Definition seventyTwo : string :=
  "aaaaaaaaaaaaaaaaaaaaaaaaaaaaaaaaaaaaaaaaaaaaaaaaaaaaaaaaaaaaaaaaaaaaaaaa".
Definition longPassword : string := seventyTwo ++ "z".
Definition longPasswordVariant : string := seventyTwo ++ "Z".

Definition leeBody : SignupBody :=
  mkSignup (Some "Lee") (Some "lee") (Some "lee@x.com") (Some longPassword).

Section Scenarios.

Context {hasher : Hasher} {codec : JwtCodec}.
Variable runSettersOnQuery : bool.

Lemma jane_registers env1 :
  signup runSettersOnQuery env1 [] janeBody =
  (mkResponse 201
     (JObject [("message", JString "Account created successfully!");
               ("token",
                JString (jwt_sign (nowMs env1) (claimsOf (createdBy env1 janeBody))
                           JWT_SECRET expiresIn_7d));
               ("user", userView (createdBy env1 janeBody))]),
   [createdBy env1 janeBody]).
Proof.
  apply (signup_created runSettersOnQuery env1 [] janeBody).
  - repeat split; cbn; lia.
  - reflexivity.
  - now rewrite validateSync_createdBy.
  - reflexivity.
Qed.

(** C2 (the code at the failing inputs).  With Jane registered, a signup
    whose email is hers in capitals, or whose username is hers in mixed
    case, is not answered with a duplicate error: the handler runs on to
    [save], the unique index refuses the document, and the answer is the
    generic 500.  This holds whether or not query filters go through the
    schema setters. *)
Theorem signup_case_variant_is_server_error (env1 env : Env) :
  snd (signup runSettersOnQuery env1 [] janeBody) = [createdBy env1 janeBody] /\
  signup runSettersOnQuery env [createdBy env1 janeBody] capitalEmailBody =
  (serverError, [createdBy env1 janeBody]) /\
  signup runSettersOnQuery env [createdBy env1 janeBody] mixedUsernameBody =
  (serverError, [createdBy env1 janeBody]).
Proof.
  split; [now rewrite jane_registers|].
  split; apply signup_refused.
  - repeat split; cbn; lia.
  - now destruct runSettersOnQuery.
  - right. unfold violatesUnique. cbn.
    now destruct (Nat.eqb (freshId env1) (freshId env)).
  - repeat split; cbn; lia.
  - now destruct runSettersOnQuery.
  - right. unfold violatesUnique. cbn.
    now destruct (Nat.eqb (freshId env1) (freshId env)).
Qed.

(** When one user's username is another user's email, the lookup of that
    string resolves to the document stored first, and the other user's
    correct password is refused as soon as it does not verify against the
    first user's hash. *)
Lemma login_cross_field_collision (env1 env2 env3 : Env) :
  freshId env1 <> freshId env2 ->
  bcrypt_compare "secret1"
    (bcrypt_hash (freshSalt env1) saltRounds "hunter22") = false ->
  let st1 := snd (signup runSettersOnQuery env1 [] malloryBody) in
  let st2 := snd (signup runSettersOnQuery env2 st1 janeBody) in
  st2 = [createdBy env1 malloryBody; createdBy env2 janeBody] /\
  login runSettersOnQuery env3 st2 (mkLogin (Some "jane@x.com") (Some "secret1")) =
  (errorResponse 400 "Invalid credentials", st2).
Proof.
  intros Hid Hcmp st1 st2.
  assert (st1 = [createdBy env1 malloryBody]) as E1.
  { unfold st1.
    rewrite (signup_created runSettersOnQuery env1 [] malloryBody);
      [reflexivity | repeat split; cbn; lia | reflexivity
       | now rewrite validateSync_createdBy | reflexivity]. }
  assert (st2 = [createdBy env1 malloryBody; createdBy env2 janeBody]) as E2.
  { unfold st2. rewrite E1.
    rewrite (signup_created runSettersOnQuery env2 _ janeBody);
      [reflexivity | repeat split; cbn; lia | now destruct runSettersOnQuery
       | now rewrite validateSync_createdBy |].
    unfold violatesUnique. cbn. apply Nat.eqb_neq in Hid. now rewrite Hid. }
  split; [exact E2|]. rewrite E2.
  rewrite login_validBody by reflexivity.
  cbn [lb_emailOrUsername lb_password str].
  assert (findOne_or runSettersOnQuery
            [createdBy env1 malloryBody; createdBy env2 janeBody]
            (toLowerCase "jane@x.com") (toLowerCase "jane@x.com")
          = Some (createdBy env1 malloryBody)) as F
      by now destruct runSettersOnQuery.
  rewrite F. cbn [createdBy password malloryBody sb_password str].
  now rewrite Hcmp.
Qed.

(** [bcrypt] does not see what follows the 72nd character: after Lee has
    registered with a password of 73 characters, Login accepts the
    password that differs from it in the case of the last letter, for
    every hasher that meets the interface. *)
Lemma login_long_password_variant (env1 env2 : Env) :
  let st := snd (signup runSettersOnQuery env1 [] leeBody) in
  st = [createdBy env1 leeBody] /\
  longPasswordVariant <> longPassword /\
  login runSettersOnQuery env2 st
        (mkLogin (Some "lee") (Some longPasswordVariant)) =
  (mkResponse 200
     (JObject [("message", JString "Login successful!");
               ("token",
                JString (jwt_sign (nowMs env2)
                           (claimsOf (createdBy env1 leeBody))
                           JWT_SECRET expiresIn_7d));
               ("user", userView (createdBy env1 leeBody))]),
   st).
Proof.
  intros st.
  assert (st = [createdBy env1 leeBody]) as E.
  { unfold st.
    rewrite (signup_created runSettersOnQuery env1 [] leeBody);
      [reflexivity | repeat split; cbn; lia | reflexivity
       | now rewrite validateSync_createdBy | reflexivity]. }
  split; [exact E|]. split; [discriminate|]. rewrite E.
  rewrite login_validBody by reflexivity.
  cbn [lb_emailOrUsername lb_password str].
  assert (findOne_or runSettersOnQuery [createdBy env1 leeBody]
            (toLowerCase "lee") (toLowerCase "lee")
          = Some (createdBy env1 leeBody)) as F
      by now destruct runSettersOnQuery.
  rewrite F. cbn [createdBy password leeBody sb_password str].
  now rewrite compare_first_72.
Qed.

End Scenarios.

(* ===================================================================== *)
(** ** The theorems at concrete requests *)
(* ===================================================================== *)

Module Concrete.

Import Reference.

Definition envA : Env := mkEnv 1700000000000%Z 1 tt.
Definition envB : Env := mkEnv 1700000060000%Z 2 tt.
Definition envC : Env := mkEnv 1700000120000%Z 3 tt.

(** Jane's document, and the collection that holds only it. *)
Definition jane : UserDoc := createdBy envA janeBody.
Definition janeOnly : Store := [jane].

(** Mallory's document, stored before Jane's. *)
Definition mallory : UserDoc := createdBy envA malloryBody.
Definition janeB : UserDoc := createdBy envB janeBody.
Definition malloryThenJane : Store := [mallory; janeB].

Definition shortPasswordBody : SignupBody :=
  mkSignup (Some "Jane Doe") (Some "janedoe") (Some "jane@x.com") (Some "abc").

Example jane_stored :
  jane = mkUser 1 "Jane Doe" "janedoe" "jane@x.com" "$2a$12$secret1"
                1700000000000 1700000000000.
Proof. reflexivity. Qed.

Lemma janeOnly_reachable : reachable true janeOnly.
Proof. exact (reach_step true [] envA (PostSignup janeBody) (reach_empty true)). Qed.

Lemma malloryThenJane_reachable : reachable true malloryThenJane.
Proof.
  exact (reach_step true _ envB (PostSignup janeBody)
           (reach_step true [] envA (PostSignup malloryBody) (reach_empty true))).
Qed.

Lemma signup_rejects_invalid_body_witness :
  exists msg,
    signup true envA [] shortPasswordBody = (errorResponse 400 msg, []) /\
    (msg = "All fields are required" \/
     msg = "Password must be at least 6 characters long") /\
    status (fst (signup true envA [] shortPasswordBody)) = 400%Z /\
    field "token" (body (fst (signup true envA [] shortPasswordBody))) = None.
Proof.
  apply (signup_rejects_invalid_body true envA [] shortPasswordBody).
  do 4 right. exists "abc". split; [reflexivity | cbn; lia].
Defined.



Lemma login_failures_indistinguishable_witness :
  fst (login true envB [] (mkLogin (Some "nobody") (Some "secret1"))) =
  errorResponse 400 "Invalid credentials" /\
  fst (login true envB janeOnly (mkLogin (Some "janedoe") (Some "Secret1"))) =
  errorResponse 400 "Invalid credentials" /\
  fst (login true envB [] (mkLogin (Some "nobody") (Some "secret1"))) =
  fst (login true envB janeOnly (mkLogin (Some "janedoe") (Some "Secret1"))).
Proof.
  apply (login_failures_indistinguishable true envB [] _ envB janeOnly _ jane);
    reflexivity.
Defined.

Lemma login_resolved_identifier_witness :
  reachable true janeOnly /\ In jane janeOnly /\
  exists salt plain,
    password jane = bcrypt_hash salt saltRounds plain /\
    (6 <= String.length plain)%nat /\
    forall env ident pw,
      (toLowerCase ident = email jane /\
       (forall d, In d janeOnly -> d <> jane -> username d <> email jane)) \/
      (toLowerCase ident = username jane /\
       (forall d, In d janeOnly -> d <> jane -> email d <> username jane)) ->
      let accepted :=
        (mkResponse 200
           (JObject [("message", JString "Login successful!");
                     ("token",
                      JString (jwt_sign (nowMs env) (claimsOf jane)
                                 JWT_SECRET expiresIn_7d));
                     ("user", userView jane)]),
         janeOnly) in
      (pw = plain ->
       login true env janeOnly (mkLogin (Some ident) (Some pw)) = accepted) /\
      (pw <> EmptyString ->
       login true env janeOnly (mkLogin (Some ident) (Some pw)) =
       if bcrypt_compare pw (password jane) then accepted
       else (errorResponse 400 "Invalid credentials", janeOnly)) /\
      bcrypt_compare pw (password jane) =
      String.eqb (bcrypt_hash salt saltRounds pw) (password jane) /\
      (pw <> EmptyString -> bcrypt_hash salt saltRounds pw <> password jane ->
       login true env janeOnly (mkLogin (Some ident) (Some pw)) =
       (errorResponse 400 "Invalid credentials", janeOnly)) /\
      (substring 0 72 pw = substring 0 72 plain ->
       login true env janeOnly (mkLogin (Some ident) (Some pw)) = accepted).
Proof.
  split; [exact janeOnly_reachable|]. split; [now left|].
  apply (login_resolved_identifier true janeOnly jane).
  - exact janeOnly_reachable.
  - now left.
Defined.

(** The specification's example: Jane logs in with her email in capitals. *)
Example jane_logs_in :
  login true envB janeOnly (mkLogin (Some "JANE@X.COM") (Some "secret1")) =
  (mkResponse 200
     (JObject [("message", JString "Login successful!");
               ("token",
                JString (jwt_sign (nowMs envB) (claimsOf jane)
                           JWT_SECRET expiresIn_7d));
               ("user", userView jane)]),
   janeOnly).
Proof. reflexivity. Qed.

Example jane_wrong_case_password :
  login true envB janeOnly (mkLogin (Some "janedoe") (Some "SECRET1")) =
  (errorResponse 400 "Invalid credentials", janeOnly).
Proof. reflexivity. Qed.

Lemma malloryThenJane_reachable_plain : reachable false malloryThenJane.
Proof.
  exact (reach_step false _ envB (PostSignup janeBody)
           (reach_step false [] envA (PostSignup malloryBody)
              (reach_empty false))).
Qed.

(** The same two users, registered in the other order. *)
Definition malloryB : UserDoc := createdBy envB malloryBody.
Definition janeThenMallory : Store := [jane; malloryB].

Lemma janeThenMallory_reachable : reachable true janeThenMallory.
Proof.
  exact (reach_step true _ envB (PostSignup malloryBody)
           (reach_step true [] envA (PostSignup janeBody) (reach_empty true))).
Qed.

(** Lee, whose password has 73 characters. *)
Definition lee : UserDoc := createdBy envA leeBody.
Definition leeOnly : Store := [lee].

Lemma leeOnly_reachable : reachable true leeOnly.
Proof. exact (reach_step true [] envA (PostSignup leeBody) (reach_empty true)). Qed.

(** Jane is stored, the identifier is her email and the password is hers,
    and Login refuses: the lookup resolved to Mallory, whose username is
    the same string.  Both settings of the query flag agree.  With the two
    registered in the other order it is Mallory whose username and
    password are refused.  And Lee, whose password has 73 characters, is
    logged in with a password that differs from it in the case of the last
    letter. *)
Lemma login_refuses_owner_accepts_variant :
  (reachable true malloryThenJane /\ reachable false malloryThenJane) /\
  In janeB malloryThenJane /\
  toLowerCase "jane@x.com" = email janeB /\
  bcrypt_compare "secret1" (password janeB) = true /\
  login true envC malloryThenJane
        (mkLogin (Some "jane@x.com") (Some "secret1")) =
  (errorResponse 400 "Invalid credentials", malloryThenJane) /\
  login false envC malloryThenJane
        (mkLogin (Some "jane@x.com") (Some "secret1")) =
  (errorResponse 400 "Invalid credentials", malloryThenJane) /\
  reachable true janeThenMallory /\
  In malloryB janeThenMallory /\
  toLowerCase "jane@x.com" = username malloryB /\
  bcrypt_compare "hunter22" (password malloryB) = true /\
  login true envC janeThenMallory
        (mkLogin (Some "jane@x.com") (Some "hunter22")) =
  (errorResponse 400 "Invalid credentials", janeThenMallory) /\
  reachable true leeOnly /\
  In lee leeOnly /\
  password lee = bcrypt_hash tt saltRounds longPassword /\
  longPasswordVariant <> longPassword /\
  toLowerCase longPasswordVariant = toLowerCase longPassword /\
  status (fst (login true envB leeOnly
                 (mkLogin (Some "lee") (Some longPasswordVariant)))) = 200%Z.
Proof.
  split; [split; [exact malloryThenJane_reachable
                 | exact malloryThenJane_reachable_plain]|].
  split; [right; now left|].
  do 4 (split; [reflexivity|]).
  split; [exact janeThenMallory_reachable|].
  split; [right; now left|].
  do 3 (split; [reflexivity|]).
  split; [exact leeOnly_reachable|].
  split; [now left|].
  split; [reflexivity|].
  split; [discriminate|].
  split; reflexivity.
Qed.




(** Jane's email with Mallory's username. *)
Definition splitBody : SignupBody :=
  mkSignup (Some "Eve") (Some "jane@x.com") (Some "jane@x.com")
           (Some "secret3").


(** Jane's email as it is stored with her own username in mixed case: the
    document found has the submitted email. *)
Example own_username_in_mixed_case :
  signup true envB janeOnly
    (mkSignup (Some "Jane Doe") (Some "JaneDoe") (Some "jane@x.com")
              (Some "secret1")) =
  (errorResponse 400 "Email already registered", janeOnly).
Proof. reflexivity. Qed.

(** When the submitted email belongs to one document and the submitted
    username to another, the document first in the collection decides. *)
Example split_collision_first_document_decides :
  signup true envC malloryThenJane splitBody =
  (errorResponse 400 "Username already taken", malloryThenJane).
Proof. reflexivity. Qed.

Lemma stored_documents_hashed_and_normalised_witness :
  reachable true janeOnly /\
  (forall d, In d janeOnly ->
     (exists salt plain,
         password d = bcrypt_hash salt saltRounds plain /\
         password d <> plain /\
         bcrypt_compare plain (password d) = true) /\
     trimmed (fullName d) /\
     trimmed (username d) /\ lowerCased (username d) /\
     trimmed (email d) /\ lowerCased (email d)) /\
  (forall env r,
     snd (handle true env janeOnly r) = janeOnly \/
     exists b d,
       r = PostSignup b /\
       snd (handle true env janeOnly r) = (janeOnly ++ [d])%list /\
       _id d = freshId env /\
       password d =
       bcrypt_hash (freshSalt env) saltRounds (str (sb_password b)) /\
       trimOf (str (sb_fullName b)) (fullName d) /\
       (exists t, trimOf (str (sb_username b)) t /\
                  lowerCaseOf t (username d)) /\
       (exists t, trimOf (str (sb_email b)) t /\ lowerCaseOf t (email d))).
Proof.
  split; [exact janeOnly_reachable|].
  apply (stored_documents_hashed_and_normalised true janeOnly).
  exact janeOnly_reachable.
Defined.

Definition janeToken : string :=
  jwt_sign (nowMs envA) (claimsOf jane) JWT_SECRET expiresIn_7d.

Lemma issued_token_lifetime_witness :
  field "token" (body (fst (handle true envA [] (PostSignup janeBody)))) =
  Some (JString janeToken) /\
  exists u t,
    In u (snd (handle true envA [] (PostSignup janeBody))) /\
    field "user" (body (fst (handle true envA [] (PostSignup janeBody)))) =
    Some (userView u) /\
    (u = createdBy envA janeBody /\
     snd (handle true envA [] (PostSignup janeBody)) = ([] ++ [u])%list) /\
    JString janeToken = JString t /\
    let payload :=
      {| userId := _id u; jwt_username := username u; jwt_email := email u;
         iat := (nowMs envA / 1000)%Z;
         exp := Some (nowMs envA / 1000 + 7 * 24 * 60 * 60)%Z |} in
    t = jwt_encode JWT_SECRET payload /\
    (forall now,
       authenticateToken now (Some ("Bearer " ++ t)) =
       if (nowMs envA / 1000 + 7 * 24 * 60 * 60 <=? now / 1000)%Z
       then Respond (errorResponse 403 "Invalid or expired token")
       else Next payload) /\
    authenticateToken (nowMs envA + 6 * day_ms) (Some ("Bearer " ++ t)) =
    Next payload /\
    authenticateToken (nowMs envA + 8 * day_ms) (Some ("Bearer " ++ t)) =
    Respond (errorResponse 403 "Invalid or expired token").
Proof.
  split; [reflexivity|].
  apply (issued_token_lifetime true envA [] (PostSignup janeBody)
           (JString janeToken)).
  reflexivity.
Defined.

(** The same token, run through the middleware. *)
Example jane_token_day_6 :
  authenticateToken (nowMs envA + 6 * day_ms) (Some ("Bearer " ++ janeToken)) =
  Next (mkPayload 1 "janedoe" "jane@x.com" 1700000000 (Some 1700604800%Z)).
Proof. vm_compute. reflexivity. Qed.

Example jane_token_day_8 :
  authenticateToken (nowMs envA + 8 * day_ms) (Some ("Bearer " ++ janeToken)) =
  Respond (errorResponse 403 "Invalid or expired token").
Proof. vm_compute. reflexivity. Qed.

Example jane_token_other_scheme :
  authenticateToken (nowMs envB) (Some ("Basic " ++ janeToken)) =
  Next (mkPayload 1 "janedoe" "jane@x.com" 1700000000 (Some 1700604800%Z)).
Proof. vm_compute. reflexivity. Qed.

Example bare_token_unauthorized :
  authenticateToken (nowMs envB) (Some janeToken) =
  Respond (errorResponse 401 "Access token required").
Proof. vm_compute. reflexivity. Qed.

Example two_words_before_token :
  authenticateToken (nowMs envB) (Some ("Bearer token " ++ janeToken)) =
  Respond (errorResponse 403 "Invalid or expired token").
Proof. vm_compute. reflexivity. Qed.

Example jane_profile :
  fst (profile envB janeOnly (Some ("Bearer " ++ janeToken))) =
  mkResponse 200
    (JObject [("user",
               JObject [("id", JObjectId 1);
                        ("fullName", JString "Jane Doe");
                        ("username", JString "janedoe");
                        ("email", JString "jane@x.com");
                        ("createdAt", JDate 1700000000000)])]).
Proof. vm_compute. reflexivity. Qed.

Lemma user_view_excludes_password_witness :
  field "user"
    (body (fst (handle true envB janeOnly
                  (GetProfile (Some ("Bearer " ++ janeToken)))))) =
  Some (JObject [("id", JObjectId 1);
                 ("fullName", JString "Jane Doe");
                 ("username", JString "janedoe");
                 ("email", JString "jane@x.com");
                 ("createdAt", JDate 1700000000000)]) /\
  ~ In "password"
      (keys (JObject [("id", JObjectId 1);
                      ("fullName", JString "Jane Doe");
                      ("username", JString "janedoe");
                      ("email", JString "jane@x.com");
                      ("createdAt", JDate 1700000000000)])).
Proof.
  assert (field "user"
            (body (fst (handle true envB janeOnly
                          (GetProfile (Some ("Bearer " ++ janeToken)))))) =
          Some (JObject [("id", JObjectId 1);
                         ("fullName", JString "Jane Doe");
                         ("username", JString "janedoe");
                         ("email", JString "jane@x.com");
                         ("createdAt", JDate 1700000000000)])) as F
      by (vm_compute; reflexivity).
  split; [exact F|].
  destruct (user_view_excludes_password true envB janeOnly
              (GetProfile (Some ("Bearer " ++ janeToken)))) as [View _].
  exact (proj1 (View _ F)).
Defined.

Lemma scheme_word_is_not_checked_witness :
  no_space "Basic" = true /\
  authenticateToken (nowMs envB) (Some ("Basic" ++ " " ++ janeToken)) =
  authenticateToken (nowMs envB) (Some ("Bearer " ++ janeToken)).
Proof.
  split; [reflexivity|].
  destruct (scheme_word_is_not_checked (nowMs envB) "Basic" janeToken "Bearer")
    as [Word _].
  exact (proj1 (Word eq_refl)).
Defined.

End Concrete.

(* ===================================================================== *)
(** ** Runs of the service *)
(* ===================================================================== *)

Section ServiceRuns.

Context {hasher : Hasher} {codec : JwtCodec}.
Variable q : bool.

(** The collection after a sequence of requests, each served in its own
    environment. *)
Fixpoint run (st : Store) (rs : list (Env * Request)) : Store :=
  match rs with
  | [] => st
  | (env, r) :: rest => run (snd (handle q env st r)) rest
  end.

Lemma run_ok st rs : store_ok st -> store_ok (run st rs).
Proof.
  revert st. induction rs as [|[env r] rest IH]; intros st Hst; [exact Hst|].
  cbn [run]. apply IH. now apply handle_ok.
Qed.

Lemma run_prefix st rs : exists added, run st rs = (st ++ added)%list.
Proof.
  revert st. induction rs as [|[env r] rest IH]; intros st.
  - exists []. now rewrite app_nil_r.
  - cbn [run].
    destruct (handle_store q env st r) as [E | (b & _ & _ & _ & _ & E)];
      rewrite E.
    + apply IH.
    + destruct (IH (st ++ [createdBy env b])%list) as [added Ha].
      exists (createdBy env b :: added). rewrite Ha.
      now rewrite <- app_assoc.
Qed.

Lemma find_unique_id (st : Store) u :
  NoDup (map _id st) -> In u st -> findById st (_id u) = Some u.
Proof.
  intros Hid Hin. unfold findById.
  destruct (find _ st) as [d|] eqn:F.
  - apply find_some in F as [Hd E]. apply Nat.eqb_eq in E. f_equal.
    now apply (NoDup_map_inj _id st).
  - apply (find_none _ _ F) in Hin. now rewrite Nat.eqb_refl in Hin.
Qed.

Lemma violatesUnique_fresh st d :
  (forall x, In x st ->
     _id x <> _id d /\ username x <> username d /\ email x <> email d) ->
  violatesUnique st d = false.
Proof.
  intros H. unfold violatesUnique.
  destruct (existsb _ st) eqn:E; [|reflexivity].
  apply existsb_exists in E as (x & Hx & Hm).
  destruct (H x Hx) as (H1 & H2 & H3).
  apply Nat.eqb_neq in H1. apply String.eqb_neq in H2, H3.
  now rewrite H1, H2, H3 in Hm.
Qed.

Lemma toLowerCase_empty s : toLowerCase s = EmptyString <-> s = EmptyString.
Proof. split; [now destruct s | now intros ->]. Qed.

(** X1.  In every reachable collection two documents that agree on the id,
    or on the username up to letter case, or on the email up to letter
    case, are the same document. *)
Theorem reachable_documents_unique st d1 d2 :
  reachable q st -> In d1 st -> In d2 st ->
  _id d1 = _id d2 \/
  toLowerCase (username d1) = toLowerCase (username d2) \/
  toLowerCase (email d1) = toLowerCase (email d2) ->
  d1 = d2.
Proof.
  intros Hr H1 H2 Hsame. apply reachable_ok in Hr.
  destruct Hr as [Hd Hid Hun Hem].
  pose proof (Hd d1 H1) as O1. pose proof (Hd d2 H2) as O2.
  destruct Hsame as [E|[E|E]].
  - now apply (NoDup_map_inj _id st).
  - rewrite (ok_username_lower d1 O1), (ok_username_lower d2 O2) in E.
    now apply (NoDup_map_inj username st).
  - rewrite (ok_email_lower d1 O1), (ok_email_lower d2 O2) in E.
    now apply (NoDup_map_inj email st).
Qed.

(** A body that collides with nothing and is blank nowhere is stored. *)
Lemma signup_fresh_created env st b :
  reachable q st -> validBody b ->
  set_fullName (str (sb_fullName b)) <> EmptyString ->
  set_lower (str (sb_username b)) <> EmptyString ->
  set_lower (str (sb_email b)) <> EmptyString ->
  (forall d, In d st ->
     _id d <> freshId env /\
     username d <> set_lower (str (sb_username b)) /\
     email d <> set_lower (str (sb_email b))) ->
  signup q env st b =
  (mkResponse 201
     (JObject [("message", JString "Account created successfully!");
               ("token",
                JString (jwt_sign (nowMs env) (claimsOf (createdBy env b))
                           JWT_SECRET expiresIn_7d));
               ("user", userView (createdBy env b))]),
   (st ++ [createdBy env b])%list).
Proof.
  intros Hr Hv Hfn Hun Hem Hfresh.
  apply signup_created; trivial.
  - unfold duplicateCheck.
    destruct (findOne_or q st _ _) as [u|] eqn:F; [|reflexivity].
    unfold findOne_or in F. apply find_some in F as [Hu _].
    pose proof (ok_docs st (reachable_ok q st Hr) u Hu) as Ou.
    destruct (Hfresh u Hu) as (_ & Nu & Ne).
    destruct (String.eqb_spec (email u) (str (sb_email b))) as [E|_].
    { exfalso. apply Ne. rewrite <- E. symmetry. apply Ou. }
    destruct (String.eqb_spec (username u) (str (sb_username b))) as [E|_];
      [|reflexivity].
    exfalso. apply Nu. rewrite <- E. symmetry. apply Ou.
  - rewrite validateSync_createdBy.
    apply String.eqb_neq in Hfn, Hun, Hem. now rewrite Hfn, Hun, Hem.
  - apply violatesUnique_fresh. exact Hfresh.
Qed.

(** X2.  On a reachable collection, a body that passes the handler's
    guards, whose name, username and email are not blank, and whose trimmed
    lower-case username and email and fresh id no document carries, is
    answered 201: the document is appended, the user view shows the
    stored values, and the token verifies at once to a payload with the
    new document's id. *)
Theorem signup_fresh_succeeds env st b :
  reachable q st -> validBody b ->
  set_fullName (str (sb_fullName b)) <> EmptyString ->
  set_lower (str (sb_username b)) <> EmptyString ->
  set_lower (str (sb_email b)) <> EmptyString ->
  (forall d, In d st ->
     _id d <> freshId env /\
     username d <> set_lower (str (sb_username b)) /\
     email d <> set_lower (str (sb_email b))) ->
  signup q env st b =
  (mkResponse 201
     (JObject [("message", JString "Account created successfully!");
               ("token",
                JString (jwt_sign (nowMs env) (claimsOf (createdBy env b))
                           JWT_SECRET expiresIn_7d));
               ("user", userView (createdBy env b))]),
   (st ++ [createdBy env b])%list) /\
  exists p,
    jwt_verify (nowMs env)
      (jwt_sign (nowMs env) (claimsOf (createdBy env b)) JWT_SECRET expiresIn_7d)
      JWT_SECRET = inr p /\
    userId p = freshId env.
Proof.
  intros Hr Hv Hfn Hun Hem Hfresh. split.
  - now apply signup_fresh_created.
  - rewrite jwt_verify_sign.
    destruct (Z.leb_spec (nowMs env / 1000 + expiresIn_7d) (nowMs env / 1000))
      as [L|L].
    + unfold expiresIn_7d in L. lia.
    + eexists. split; reflexivity.
Qed.

(** X3.  A name, username or email made of white space only passes the
    handler's guards but not the schema: the request never creates a
    document; it is answered with one of the two duplicate errors when the
    lookup finds a document with the submitted email or username, and with
    the generic 500 otherwise. *)
Theorem signup_blank_field_not_stored env st b :
  validBody b ->
  trim (str (sb_fullName b)) = EmptyString \/
  trim (str (sb_username b)) = EmptyString \/
  trim (str (sb_email b)) = EmptyString ->
  snd (signup q env st b) = st /\
  match duplicateCheck
          (findOne_or q st (str (sb_email b)) (str (sb_username b)))
          (str (sb_email b)) (str (sb_username b)) with
  | Some r => fst (signup q env st b) = r /\ status r = 400%Z
  | None => fst (signup q env st b) = serverError
  end.
Proof.
  intros Hv Hblank.
  assert (validateSync (createdBy env b) = false) as V.
  { rewrite validateSync_createdBy. unfold set_fullName, set_lower.
    destruct Hblank as [E|[E|E]]; rewrite E; cbn;
      now rewrite ?andb_false_r. }
  destruct (duplicateCheck _ _ _) as [r|] eqn:D.
  - rewrite signup_validBody by assumption. rewrite D. cbn [fst snd].
    split; [reflexivity|]. split; [reflexivity|].
    unfold duplicateCheck in D.
    destruct (findOne_or q st _ _) as [u|]; [|discriminate].
    destruct (String.eqb (email u) _); [now injection D as <-|].
    destruct (String.eqb (username u) _); [now injection D as <-|discriminate].
  - rewrite (signup_refused q env st b Hv D (or_introl V)). now split.
Qed.

(** X4.  A login body whose identifier or password is missing or empty is
    answered 400 'Email/Username and password are required' before any
    lookup, whatever the collection holds. *)
Theorem login_rejects_missing_field env st b :
  missing (lb_emailOrUsername b) \/ missing (lb_password b) ->
  login q env st b =
  (errorResponse 400 "Email/Username and password are required", st).
Proof.
  intros H. unfold login.
  destruct H as [H|H]; apply missing_truthy in H; rewrite H; cbn [negb orb];
    [reflexivity|].
  now rewrite orb_true_r.
Qed.

(** X5.  Whatever requests are served, the collection only grows at its
    end: the earlier documents stay as they are, in their order, and every
    document added is the one a signup request of the run created. *)
Theorem run_only_appends_signups st rs :
  exists added,
    run st rs = (st ++ added)%list /\
    forall d, In d added ->
      exists env b, In (env, PostSignup b) rs /\ d = createdBy env b.
Proof.
  revert st. induction rs as [|[env r] rest IH]; intros st.
  - exists []. split; [now rewrite app_nil_r | intros d []].
  - cbn [run].
    destruct (handle_store q env st r) as [E | (b & -> & _ & _ & _ & E)];
      rewrite E.
    + destruct (IH st) as (added & Ha & Hd). exists added. split; [exact Ha|].
      intros d Hin. destruct (Hd d Hin) as (env' & b' & Hr & Hc).
      exists env', b'. split; [now right | exact Hc].
    + destruct (IH (st ++ [createdBy env b])%list) as (added & Ha & Hd).
      exists (createdBy env b :: added). split.
      * rewrite Ha. now rewrite <- app_assoc.
      * intros d [<-|Hin].
        -- exists env, b. split; [now left | reflexivity].
        -- destruct (Hd d Hin) as (env' & b' & Hr & Hc).
           exists env', b'. split; [now right | exact Hc].
Qed.

(** The profile route on a token signed for a stored document, before
    and from its expiry. *)
Lemma issued_token_profile st u T rs env' :
  store_ok st -> In u st ->
  profile env' (run st rs)
    (Some ("Bearer " ++ jwt_sign T (claimsOf u) JWT_SECRET expiresIn_7d)) =
  (if (T / 1000 + expiresIn_7d <=? nowMs env' / 1000)%Z
   then errorResponse 403 "Invalid or expired token"
   else mkResponse 200
          (JObject [("user",
                     JObject [("id", JObjectId (_id u));
                              ("fullName", JString (fullName u));
                              ("username", JString (username u));
                              ("email", JString (email u));
                              ("createdAt", JDate (createdAt u))])]),
   run st rs).
Proof.
  intros Hok Hin.
  assert (In u (run st rs)) as Hin'.
  { destruct (run_prefix st rs) as [added ->]. apply in_app_iff. now left. }
  pose proof (run_ok st rs Hok) as Hok'.
  unfold profile. rewrite authenticateToken_bearer;
    [|apply encode_nonempty | apply encode_no_space].
  rewrite jwt_verify_sign.
  destruct (T / 1000 + expiresIn_7d <=? nowMs env' / 1000)%Z; [reflexivity|].
  unfold profileHandler. cbn [userId claimsOf c_userId].
  rewrite (find_unique_id _ u (ok_ids _ Hok') Hin'). reflexivity.
Qed.

(** What signup and login answer: an error of status 400 or 500 with a
    message, or a 2xx reply with the token and the view of a document of
    the collection they leave. *)
Lemma auth_reply env st r :
  (exists b, r = PostSignup b) \/ (exists b, r = PostLogin b) ->
  (exists code msg,
      fst (handle q env st r) = errorResponse code msg /\
      (code = 400 \/ code = 500)%Z /\ msg <> EmptyString) \/
  (exists u code msg,
      In u (snd (handle q env st r)) /\
      (code = 200 \/ code = 201)%Z /\
      fst (handle q env st r) =
      mkResponse code
        (JObject [("message", JString msg);
                  ("token",
                   JString (jwt_sign (nowMs env) (claimsOf u)
                              JWT_SECRET expiresIn_7d));
                  ("user", userView u)])).
Proof.
  intros [[b ->]|[b ->]]; cbn [handle].
  - destruct (validBody_dec b) as [Hv|Hv].
    + rewrite signup_validBody by assumption.
      destruct (duplicateCheck _ _ _) as [r|] eqn:D.
      * left. unfold duplicateCheck in D.
        destruct (findOne_or _ _ _ _) as [u|]; [|discriminate].
        destruct (String.eqb (email u) _).
        { injection D as <-. do 2 eexists. split; [reflexivity|].
          split; [now left | discriminate]. }
        destruct (String.eqb (username u) _); [|discriminate].
        injection D as <-. do 2 eexists. split; [reflexivity|].
        split; [now left | discriminate].
      * destruct (save_cases (nowMs env) st
                    (new_User (freshId env) (str (sb_fullName b))
                       (str (sb_username b)) (str (sb_email b))
                       (bcrypt_hash (freshSalt env) saltRounds
                          (str (sb_password b)))))
          as [[e E] | (_ & _ & E)]; rewrite E.
        { left. do 2 eexists. split; [reflexivity|].
          split; [now right | discriminate]. }
        right. exists (createdBy env b). do 2 eexists.
        split; [cbn [snd]; apply in_app_iff; right; now left|].
        split; [now right | reflexivity].
    + destruct (signup_invalidBody q env st b Hv) as (msg & E & M).
      left. exists 400%Z, msg. rewrite E. split; [reflexivity|].
      split; [now left|]. destruct M as [-> | ->]; discriminate.
  - unfold login.
    destruct (negb (truthy (lb_emailOrUsername b)) || negb (truthy (lb_password b))).
    { left. do 2 eexists. split; [reflexivity|].
      split; [now left | discriminate]. }
    destruct (findOne_or _ _ _ _) as [u|] eqn:F.
    2:{ left. do 2 eexists. split; [reflexivity|].
        split; [now left | discriminate]. }
    destruct (negb (bcrypt_compare _ _)).
    { left. do 2 eexists. split; [reflexivity|].
      split; [now left | discriminate]. }
    right. exists u. do 2 eexists.
    split; [cbn [snd]; unfold findOne_or in F; now apply find_some in F|].
    split; [now left | reflexivity].
Qed.

(** X6.  A token handed out by signup or login on a reachable collection
    opens the profile of its user for as long as it has not expired,
    whatever requests were served in between: presented as a Bearer token,
    GET /api/profile answers 200 with the id, name, username, email and
    creation time of the document whose view came with the token. *)
Theorem token_opens_profile st env r tok rs env' :
  reachable q st ->
  field "token" (body (fst (handle q env st r))) = Some (JString tok) ->
  (nowMs env' / 1000 < nowMs env / 1000 + expiresIn_7d)%Z ->
  exists u,
    In u (snd (handle q env st r)) /\
    field "user" (body (fst (handle q env st r))) = Some (userView u) /\
    profile env' (run (snd (handle q env st r)) rs) (Some ("Bearer " ++ tok)) =
    (mkResponse 200
       (JObject [("user",
                  JObject [("id", JObjectId (_id u));
                           ("fullName", JString (fullName u));
                           ("username", JString (username u));
                           ("email", JString (email u));
                           ("createdAt", JDate (createdAt u))])]),
     run (snd (handle q env st r)) rs).
Proof.
  intros Hr Htok Hlive.
  assert (exists u, In u (snd (handle q env st r)) /\
                    tok = jwt_sign (nowMs env) (claimsOf u) JWT_SECRET expiresIn_7d /\
                    field "user" (body (fst (handle q env st r))) =
                    Some (userView u)) as (u & Hin & -> & Hview).
  { destruct r as [b|b|h].
    - destruct (auth_reply env st (PostSignup b))
        as [(c & m & E & _) | (u & c & m & Hu & _ & E)]; [left; now exists b | |];
        rewrite E in *; cbn in Htok; [discriminate|].
      injection Htok as <-. now exists u.
    - destruct (auth_reply env st (PostLogin b))
        as [(c & m & E & _) | (u & c & m & Hu & _ & E)]; [right; now exists b | |];
        rewrite E in *; cbn in Htok; [discriminate|].
      injection Htok as <-. now exists u.
    - cbn [handle] in Htok.
      destruct (profile_cases env st h) as [(c & m & E & _) | (u & _ & E)];
        rewrite E in Htok; cbn in Htok; discriminate. }
  exists u. split; [exact Hin|]. split; [exact Hview|].
  rewrite issued_token_profile; trivial.
  - destruct (Z.leb_spec (nowMs env / 1000 + expiresIn_7d) (nowMs env' / 1000))
      as [L|_]; [lia | reflexivity].
  - apply handle_ok, (reachable_ok q). exact Hr.
Qed.

End ServiceRuns.

Section MiddlewareEdges.

Context {codec : JwtCodec}.

(** X7.  The middleware answers 401 'Access token required' when the
    Authorization header is absent or empty, and when the scheme word is
    followed by one space and nothing, or by two spaces: 'Bearer  <token>'
    with a doubled space is turned away as if no token had been sent. *)
Theorem middleware_empty_token_is_unauthorized now w rest :
  authenticateToken now None =
  Respond (errorResponse 401 "Access token required") /\
  authenticateToken now (Some EmptyString) =
  Respond (errorResponse 401 "Access token required") /\
  (no_space w = true ->
   authenticateToken now (Some (w ++ " ")) =
   Respond (errorResponse 401 "Access token required") /\
   authenticateToken now (Some (w ++ "  " ++ rest)) =
   Respond (errorResponse 401 "Access token required")).
Proof.
  split; [reflexivity|]. split; [reflexivity|]. intros Hw.
  unfold authenticateToken. split.
  - change (w ++ " ") with (w ++ String " " EmptyString).
    now rewrite extractToken_word.
  - change (w ++ "  " ++ rest) with (w ++ String " " (String " " rest)).
    now rewrite extractToken_word.
Qed.

End MiddlewareEdges.

Module ConcreteRuns.

Import Reference.
Import Concrete.

Definition blankNameBody : SignupBody :=
  mkSignup (Some "   ") (Some "ghost") (Some "ghost@x.com") (Some "secret9").

Lemma reachable_documents_unique_witness :
  reachable true malloryThenJane /\
  forall d, In d malloryThenJane ->
            toLowerCase (email d) = "jane@x.com" -> d = janeB.
Proof.
  split; [exact malloryThenJane_reachable|].
  intros d Hd He.
  apply (reachable_documents_unique true malloryThenJane d janeB).
  - exact malloryThenJane_reachable.
  - exact Hd.
  - right. now left.
  - right. right. exact He.
Defined.

Lemma signup_fresh_succeeds_witness :
  signup true envB janeOnly malloryBody =
  (mkResponse 201
     (JObject [("message", JString "Account created successfully!");
               ("token",
                JString (jwt_sign (nowMs envB) (claimsOf (createdBy envB malloryBody))
                           JWT_SECRET expiresIn_7d));
               ("user", userView (createdBy envB malloryBody))]),
   (janeOnly ++ [createdBy envB malloryBody])%list) /\
  exists p,
    jwt_verify (nowMs envB)
      (jwt_sign (nowMs envB) (claimsOf (createdBy envB malloryBody))
         JWT_SECRET expiresIn_7d)
      JWT_SECRET = inr p /\
    userId p = freshId envB.
Proof.
  apply (signup_fresh_succeeds true envB janeOnly malloryBody).
  - exact janeOnly_reachable.
  - repeat split; cbn; lia.
  - discriminate.
  - discriminate.
  - discriminate.
  - intros d [<-|[]]. repeat split; discriminate.
Defined.

Lemma signup_blank_field_not_stored_witness :
  snd (signup true envB janeOnly blankNameBody) = janeOnly /\
  fst (signup true envB janeOnly blankNameBody) = serverError.
Proof.
  assert (validBody blankNameBody) as Hv by (repeat split; cbn; lia).
  destruct (signup_blank_field_not_stored true envB janeOnly blankNameBody Hv
              (or_introl eq_refl)) as [Hs Hr].
  split; [exact Hs | exact Hr].
Defined.

Lemma login_rejects_missing_field_witness :
  login true envB janeOnly (mkLogin (Some "janedoe") None) =
  (errorResponse 400 "Email/Username and password are required", janeOnly).
Proof.
  apply (login_rejects_missing_field true envB janeOnly).
  right. now left.
Defined.

(** Jane's signup token still opens her profile after Mallory has signed
    up and somebody has failed to log in. *)
Lemma token_opens_profile_witness :
  exists u,
    In u (snd (handle true envA [] (PostSignup janeBody))) /\
    field "user" (body (fst (handle true envA [] (PostSignup janeBody)))) =
    Some (userView u) /\
    profile envC
      (run true (snd (handle true envA [] (PostSignup janeBody)))
         [(envB, PostSignup malloryBody);
          (envB, PostLogin (mkLogin (Some "nobody") (Some "secret1")))])
      (Some ("Bearer " ++ janeToken)) =
    (mkResponse 200
       (JObject [("user",
                  JObject [("id", JObjectId (_id u));
                           ("fullName", JString (fullName u));
                           ("username", JString (username u));
                           ("email", JString (email u));
                           ("createdAt", JDate (createdAt u))])]),
     run true (snd (handle true envA [] (PostSignup janeBody)))
       [(envB, PostSignup malloryBody);
        (envB, PostLogin (mkLogin (Some "nobody") (Some "secret1")))]).
Proof.
  apply (token_opens_profile true [] envA (PostSignup janeBody) janeToken).
  - exact (reach_empty true).
  - reflexivity.
  - vm_compute. reflexivity.
Defined.

Example run_two_signups :
  run true [] [(envA, PostSignup malloryBody); (envB, PostSignup janeBody);
               (envC, PostSignup janeBody)] = malloryThenJane.
Proof. reflexivity. Qed.

Example doubled_space_unauthorized :
  authenticateToken (nowMs envB) (Some ("Bearer  " ++ janeToken)) =
  Respond (errorResponse 401 "Access token required").
Proof. vm_compute. reflexivity. Qed.

End ConcreteRuns.

(* ===================================================================== *)
(** ** Regular expressions of the frontend (authService.js, web3Service.js)

    [regex.test(s)] for the anchored patterns of the sources, run by
    derivatives.  A character class is a predicate on characters; [\s] is
    [isWhiteSpace]. *)
(* ===================================================================== *)

Module Regex.

Inductive regex : Type :=
| Void
| Eps
| Class (p : ascii -> bool)
| Cat (r1 r2 : regex)
| Alt (r1 r2 : regex)
| Star (r : regex).

Fixpoint nullable (r : regex) : bool :=
  match r with
  | Void => false
  | Eps => true
  | Class _ => false
  | Cat r1 r2 => nullable r1 && nullable r2
  | Alt r1 r2 => nullable r1 || nullable r2
  | Star _ => true
  end.

Fixpoint deriv (c : ascii) (r : regex) : regex :=
  match r with
  | Void => Void
  | Eps => Void
  | Class p => if p c then Eps else Void
  | Cat r1 r2 =>
      if nullable r1
      then Alt (Cat (deriv c r1) r2) (deriv c r2)
      else Cat (deriv c r1) r2
  | Alt r1 r2 => Alt (deriv c r1) (deriv c r2)
  | Star r1 => Cat (deriv c r1) (Star r1)
  end.

(** [/^r$/.test(s)]. *)
Fixpoint test (r : regex) (s : string) : bool :=
  match s with
  | EmptyString => nullable r
  | String c s' => test (deriv c r) s'
  end.

(** [x], [r+], [r{n}], [r{0,n}] and [r{m,n}]. *)
Definition Lit (c : ascii) : regex := Class (Ascii.eqb c).

Definition Plus (r : regex) : regex := Cat r (Star r).

Fixpoint Rep (n : nat) (r : regex) : regex :=
  match n with
  | O => Eps
  | S k => Cat r (Rep k r)
  end.

Fixpoint Upto (n : nat) (r : regex) : regex :=
  match n with
  | O => Eps
  | S k => Alt Eps (Cat r (Upto k r))
  end.

Definition Range (m n : nat) (r : regex) : regex :=
  Cat (Rep m r) (Upto (n - m) r).

(** Every character of [s] is in the class. *)
Fixpoint all (p : ascii -> bool) (s : string) : bool :=
  match s with
  | EmptyString => true
  | String c r => p c && all p r
  end.

(** The strings a pattern stands for. *)
Inductive lang : regex -> string -> Prop :=
| L_Eps : lang Eps EmptyString
| L_Class p c : p c = true -> lang (Class p) (String c EmptyString)
| L_Cat r1 r2 s1 s2 : lang r1 s1 -> lang r2 s2 -> lang (Cat r1 r2) (s1 ++ s2)
| L_AltL r1 r2 s : lang r1 s -> lang (Alt r1 r2) s
| L_AltR r1 r2 s : lang r2 s -> lang (Alt r1 r2) s
| L_Star0 r : lang (Star r) EmptyString
| L_StarS r s1 s2 : lang r s1 -> lang (Star r) s2 -> lang (Star r) (s1 ++ s2).

Lemma append_empty s1 s2 :
  s1 ++ s2 = EmptyString -> s1 = EmptyString /\ s2 = EmptyString.
Proof. destruct s1; cbn; [now intros -> | discriminate]. Qed.

Lemma append_nil_r s : s ++ EmptyString = s.
Proof. induction s as [|c r IH]; [reflexivity|]. cbn. now rewrite IH. Qed.

Lemma append_assoc s1 s2 s3 : (s1 ++ s2) ++ s3 = s1 ++ (s2 ++ s3).
Proof. induction s1 as [|c r IH]; [reflexivity|]. cbn. now rewrite IH. Qed.

Lemma nullable_lang r : nullable r = true <-> lang r EmptyString.
Proof.
  split.
  - induction r as [| |p|r1 IH1 r2 IH2|r1 IH1 r2 IH2|r1 IH1]; cbn [nullable];
      intros H; try discriminate.
    + constructor.
    + apply andb_true_iff in H as [H1 H2].
      change EmptyString with (EmptyString ++ EmptyString). constructor; auto.
    + apply orb_true_iff in H as [H|H]; [apply L_AltL | apply L_AltR]; auto.
    + constructor.
  - intros H. remember EmptyString as s eqn:E.
    induction H as [|p c Hp|r1 r2 s1 s2 H1 IH1 H2 IH2|r1 r2 s H IH|r1 r2 s H IH
                   |r1|r1 s1 s2 H1 IH1 H2 IH2]; cbn [nullable]; trivial.
    + discriminate.
    + apply append_empty in E as [-> ->]. now rewrite IH1, IH2.
    + now rewrite IH.
    + rewrite IH by assumption. apply orb_true_r.
Qed.

Lemma deriv_lang_1 c r : forall s, lang (deriv c r) s -> lang r (String c s).
Proof.
  induction r as [| |p|r1 IH1 r2 IH2|r1 IH1 r2 IH2|r1 IH1]; cbn [deriv];
    intros s H.
  - inversion H.
  - inversion H.
  - destruct (p c) eqn:P; inversion H; subst. now constructor.
  - destruct (nullable r1) eqn:N.
    + inversion H as [| | | ? ? ? HL | ? ? ? HR | |]; subst.
      * inversion HL as [| |? ? s1 s2 Ha Hb| | | |]; subst.
        change (String c (s1 ++ s2)) with (String c s1 ++ s2).
        constructor; auto.
      * change (String c s) with (EmptyString ++ String c s).
        constructor; [now apply nullable_lang | auto].
    + inversion H as [| |? ? s1 s2 Ha Hb| | | |]; subst.
      change (String c (s1 ++ s2)) with (String c s1 ++ s2).
      constructor; auto.
  - inversion H; subst; [apply L_AltL | apply L_AltR]; auto.
  - inversion H as [| |? ? s1 s2 Ha Hb| | | |]; subst.
    change (String c (s1 ++ s2)) with (String c s1 ++ s2).
    constructor; auto.
Qed.

Lemma deriv_lang_2 r s' :
  lang r s' -> forall c s, s' = String c s -> lang (deriv c r) s.
Proof.
  induction 1 as [|p c0 Hp|r1 r2 s1 s2 H1 IH1 H2 IH2|r1 r2 s0 H IH|r1 r2 s0 H IH
                 |r1|r1 s1 s2 H1 IH1 H2 IH2]; intros c s E; cbn [deriv].
  - discriminate.
  - injection E as -> <-. rewrite Hp. constructor.
  - destruct s1 as [|c1 s1'].
    + cbn in E. apply nullable_lang in H1. rewrite H1.
      apply L_AltR. now apply IH2.
    + cbn in E. injection E as -> <-.
      assert (lang (Cat (deriv c r1) r2) (s1' ++ s2)) as K
          by (constructor; [now apply IH1 | exact H2]).
      destruct (nullable r1); [now apply L_AltL | exact K].
  - apply L_AltL. now apply IH.
  - apply L_AltR. now apply IH.
  - discriminate.
  - destruct s1 as [|c1 s1'].
    + cbn in E. now apply IH2.
    + cbn in E. injection E as -> <-.
      constructor; [now apply IH1 | exact H2].
Qed.

(** The matcher decides the language. *)
Lemma test_lang s : forall r, test r s = true <-> lang r s.
Proof.
  induction s as [|c s IH]; intros r; cbn [test].
  - apply nullable_lang.
  - rewrite IH. split.
    + apply deriv_lang_1.
    + intros H. now apply (deriv_lang_2 r _ H).
Qed.

Lemma lang_cat r1 r2 s :
  lang (Cat r1 r2) s <-> exists s1 s2, s = s1 ++ s2 /\ lang r1 s1 /\ lang r2 s2.
Proof.
  split.
  - intros H. inversion H; subst. eauto.
  - intros (s1 & s2 & -> & H1 & H2). now constructor.
Qed.

Lemma lang_lit c s : lang (Lit c) s <-> s = String c EmptyString.
Proof.
  unfold Lit. split.
  - intros H. inversion H as [|? ? Hp| | | | |]; subst.
    apply Ascii.eqb_eq in Hp. now subst.
  - intros ->. constructor. apply Ascii.eqb_refl.
Qed.

Lemma all_app p s1 s2 : all p (s1 ++ s2) = all p s1 && all p s2.
Proof.
  induction s1 as [|c r IH]; [reflexivity|]. cbn. now rewrite IH, andb_assoc.
Qed.

Lemma lang_star_class p s : lang (Star (Class p)) s <-> all p s = true.
Proof.
  split.
  - intros H. remember (Star (Class p)) as r eqn:E.
    induction H as [| | | | |r1|r1 s1 s2 H1 _ H2 IH2]; try discriminate.
    + reflexivity.
    + injection E as ->. inversion H1; subst. cbn.
      rewrite IH2 by reflexivity. now rewrite andb_true_r.
  - induction s as [|c r IH]; intros H; [constructor|].
    cbn in H. apply andb_true_iff in H as [Hc Hr].
    change (String c r) with (String c EmptyString ++ r).
    constructor; [now constructor | auto].
Qed.

Lemma lang_plus_class p s :
  lang (Plus (Class p)) s <-> s <> EmptyString /\ all p s = true.
Proof.
  unfold Plus. rewrite lang_cat. split.
  - intros (s1 & s2 & -> & H1 & H2). inversion H1; subst.
    apply lang_star_class in H2. cbn. split; [discriminate|].
    now rewrite H2, andb_true_r.
  - intros [Hne H]. destruct s as [|c r]; [contradiction|].
    cbn in H. apply andb_true_iff in H as [Hc Hr].
    exists (String c EmptyString), r. split; [reflexivity|].
    split; [now constructor | now apply lang_star_class].
Qed.

Lemma lang_rep_class p n : forall s,
  lang (Rep n (Class p)) s <-> String.length s = n /\ all p s = true.
Proof.
  induction n as [|n IH]; intros s; cbn [Rep].
  - split.
    + intros H. inversion H. now split.
    + intros [L _]. destruct s; [constructor | discriminate].
  - rewrite lang_cat. split.
    + intros (s1 & s2 & -> & H1 & H2). inversion H1; subst.
      apply IH in H2 as [L A]. cbn. rewrite L, A. now rewrite andb_true_r.
    + intros [L A]. destruct s as [|c r]; [discriminate|].
      cbn in L, A. apply andb_true_iff in A as [Hc Hr].
      exists (String c EmptyString), r. split; [reflexivity|].
      split; [now constructor|]. apply IH. split; [lia | exact Hr].
Qed.

Lemma lang_upto_class p n : forall s,
  lang (Upto n (Class p)) s <-> (String.length s <= n)%nat /\ all p s = true.
Proof.
  induction n as [|n IH]; intros s; cbn [Upto].
  - split.
    + intros H. inversion H. now split.
    + intros [L _]. destruct s; [constructor | cbn in L; lia].
  - split.
    + intros H. inversion H as [| | |? ? ? HL|? ? ? HR| |]; subst.
      * inversion HL. split; [cbn; lia | reflexivity].
      * apply lang_cat in HR as (s1 & s2 & -> & H1 & H2). inversion H1; subst.
        apply IH in H2 as [L A]. cbn. rewrite A. split; [lia|].
        now rewrite andb_true_r.
    + intros [L A]. destruct s as [|c r]; [apply L_AltL; constructor|].
      cbn in L, A. apply andb_true_iff in A as [Hc Hr].
      apply L_AltR. apply lang_cat.
      exists (String c EmptyString), r. split; [reflexivity|].
      split; [now constructor|]. apply IH. split; [lia | exact Hr].
Qed.

Lemma length_app s1 s2 :
  String.length (s1 ++ s2) = (String.length s1 + String.length s2)%nat.
Proof. induction s1 as [|c r IH]; [reflexivity|]. cbn. now rewrite IH. Qed.

Fixpoint take (n : nat) (s : string) : string :=
  match n, s with
  | S k, String c r => String c (take k r)
  | _, _ => EmptyString
  end.

Fixpoint drop (n : nat) (s : string) : string :=
  match n, s with
  | S k, String c r => drop k r
  | _, _ => s
  end.

Lemma take_drop n : forall s, take n s ++ drop n s = s.
Proof.
  induction n as [|n IH]; intros [|c r]; try reflexivity.
  cbn. now rewrite IH.
Qed.

Lemma length_take n : forall s,
  (n <= String.length s)%nat -> String.length (take n s) = n.
Proof.
  induction n as [|n IH]; intros [|c r] L; try reflexivity; cbn in *; [lia|].
  f_equal. apply IH. lia.
Qed.

Lemma lang_range_class p m n s :
  (m <= n)%nat ->
  lang (Range m n (Class p)) s <->
  (m <= String.length s <= n)%nat /\ all p s = true.
Proof.
  intros Hmn. unfold Range. rewrite lang_cat. split.
  - intros (s1 & s2 & -> & H1 & H2).
    apply lang_rep_class in H1 as [L1 A1].
    apply lang_upto_class in H2 as [L2 A2].
    rewrite all_app, A1, A2, length_app. split; [lia | reflexivity].
  - intros [[Lm Ln] A].
    exists (take m s), (drop m s).
    pose proof (take_drop m s) as E.
    split; [now symmetry|].
    rewrite <- E, all_app in A. apply andb_true_iff in A as [A1 A2].
    pose proof (length_take m s Lm) as L1.
    split.
    + apply lang_rep_class. now split.
    + apply lang_upto_class. split; [|exact A2].
      apply (f_equal String.length) in E.
      rewrite length_app, L1 in E. lia.
Qed.

End Regex.

(* ===================================================================== *)
(** ** The frontend: validators and the signup form
       (services/authService.js, components/Signup.js) *)
(* ===================================================================== *)

Module Frontend.

Import Regex.

Definition isDigit (c : ascii) : bool :=
  let n := nat_of_ascii c in (48 <=? n)%nat && (n <=? 57)%nat.

Definition isLower (c : ascii) : bool :=
  let n := nat_of_ascii c in (97 <=? n)%nat && (n <=? 122)%nat.

(** [[a-zA-Z0-9_]]. *)
Definition wordChar (c : ascii) : bool :=
  isLower c || isUpper c || isDigit c || Ascii.eqb c "_".

(** [[^\s@]]. *)
Definition notSpaceAt (c : ascii) : bool :=
  negb (isWhiteSpace c || Ascii.eqb c "@").

(** [/^[^\s@]+@[^\s@]+\.[^\s@]+$/]. *)
Definition emailRegex : regex :=
  Cat (Plus (Class notSpaceAt))
    (Cat (Lit "@")
       (Cat (Plus (Class notSpaceAt))
          (Cat (Lit ".") (Plus (Class notSpaceAt))))).

(** [/^[a-zA-Z0-9_]{3,20}$/]. *)
Definition usernameRegex : regex := Range 3 20 (Class wordChar).

Definition isValidEmail (email : string) : bool := test emailRegex email.

Definition isValidUsername (username : string) : bool :=
  test usernameRegex username.

Definition isValidPassword (password : string) : bool :=
  (6 <=? String.length password)%nat.

(** The state of the signup form. *)
Record SignupForm := mkForm {
  f_fullName : string;
  f_username : string;
  f_email : string;
  f_password : string;
  f_confirmPassword : string
}.

(** [validateForm]: [None] when it returns [true], otherwise the message
    it hands to [setError]. *)
Definition validateForm (f : SignupForm) : option string :=
  if negb (truthy (Some (f_fullName f)))
     || (String.length (trim (f_fullName f)) <? 2)%nat
  then Some "Full name must be at least 2 characters long"
  else if negb (isValidUsername (f_username f))
  then Some "Username must be 3-20 characters and contain only letters, numbers, and underscores"
  else if negb (isValidEmail (f_email f))
  then Some "Please enter a valid email address"
  else if negb (isValidPassword (f_password f))
  then Some "Password must be at least 6 characters long"
  else if negb (String.eqb (f_password f) (f_confirmPassword f))
  then Some "Passwords do not match"
  else None.

(** The object [handleSubmit] passes to [authService.signup]. *)
Definition userData (f : SignupForm) : SignupBody :=
  mkSignup (Some (trim (f_fullName f)))
           (Some (trim (f_username f)))
           (Some (toLowerCase (trim (f_email f))))
           (Some (f_password f)).

Example email_ok : isValidEmail "jane.doe@mail.example.com" = true.
Proof. vm_compute. reflexivity. Qed.

Example email_no_dot : isValidEmail "jane@localhost" = false.
Proof. vm_compute. reflexivity. Qed.

Example email_two_ats : isValidEmail "a@b@c.d" = false.
Proof. vm_compute. reflexivity. Qed.

Example username_too_short : isValidUsername "ab" = false.
Proof. vm_compute. reflexivity. Qed.

Example username_21 : isValidUsername "abcdefghijklmnopqrstu" = false.
Proof. vm_compute. reflexivity. Qed.

Example username_20 : isValidUsername "Abcdefghij_123456789" = true.
Proof. vm_compute. reflexivity. Qed.

(** *** Facts about the character classes *)

Lemma wordChar_visible c : wordChar c = true -> isWhiteSpace c = false.
Proof.
  destruct c as [[] [] [] [] [] [] [] []]; vm_compute; intros H;
    first [reflexivity | discriminate].
Qed.

Lemma wordChar_not_at : wordChar "@" = false.
Proof. reflexivity. Qed.

Lemma notSpaceAt_visible c : notSpaceAt c = true -> isWhiteSpace c = false.
Proof.
  unfold notSpaceAt. intros H. apply negb_true_iff in H.
  now apply orb_false_iff in H.
Qed.

Lemma wordChar_lowerChar c : wordChar (lowerChar c) = wordChar c.
Proof. all_chars c. Qed.

Lemma notSpaceAt_lowerChar c : notSpaceAt (lowerChar c) = notSpaceAt c.
Proof. all_chars c. Qed.

Lemma all_impl (p p' : ascii -> bool) s :
  (forall c, p c = true -> p' c = true) -> all p s = true -> all p' s = true.
Proof.
  intros Hpp. induction s as [|c r IH]; [reflexivity|].
  cbn. intros H. apply andb_true_iff in H as [Hc Hr].
  now rewrite (Hpp c Hc), IH.
Qed.

Lemma all_toLowerCase p s :
  (forall c, p (lowerChar c) = p c) -> all p (toLowerCase s) = all p s.
Proof.
  intros Hp. induction s as [|c r IH]; [reflexivity|].
  cbn. now rewrite Hp, IH.
Qed.

Lemma toLowerCase_app s1 s2 :
  toLowerCase (s1 ++ s2) = toLowerCase s1 ++ toLowerCase s2.
Proof. induction s1 as [|c r IH]; [reflexivity|]. cbn. now rewrite IH. Qed.

(** A string without white space is its own trim. *)
Lemma trim_visible s :
  all (fun c => negb (isWhiteSpace c)) s = true -> trim s = s.
Proof.
  intros H. unfold trim.
  assert (trimStart s = s) as ->.
  { destruct s as [|c r]; [reflexivity|]. cbn in *.
    apply andb_true_iff in H as [Hc _]. apply negb_true_iff in Hc.
    now rewrite Hc. }
  induction s as [|c r IH]; [reflexivity|].
  cbn in H. apply andb_true_iff in H as [Hc Hr]. apply negb_true_iff in Hc.
  cbn [trimEnd]. rewrite IH by assumption.
  destruct r; [now rewrite Hc | reflexivity].
Qed.

Lemma all_visible p s :
  (forall c, p c = true -> isWhiteSpace c = false) ->
  all p s = true -> trim s = s.
Proof.
  intros Hp H. apply trim_visible. revert H. apply all_impl.
  intros c Hc. now rewrite (Hp c Hc).
Qed.

(** *** What the validators accept *)

Lemma isValidUsername_iff u :
  isValidUsername u = true <->
  (3 <= String.length u <= 20)%nat /\ all wordChar u = true.
Proof.
  unfold isValidUsername, usernameRegex. rewrite test_lang.
  apply lang_range_class. lia.
Qed.

Lemma isValidEmail_iff e :
  isValidEmail e = true <->
  exists a b c,
    e = a ++ "@" ++ b ++ "." ++ c /\
    (a <> EmptyString /\ all notSpaceAt a = true) /\
    (b <> EmptyString /\ all notSpaceAt b = true) /\
    (c <> EmptyString /\ all notSpaceAt c = true).
Proof.
  unfold isValidEmail, emailRegex. rewrite test_lang. split.
  - intros H.
    apply lang_cat in H as (a & r1 & -> & Ha & H).
    apply lang_cat in H as (x & r2 & -> & Hx & H).
    apply lang_cat in H as (b & r3 & -> & Hb & H).
    apply lang_cat in H as (y & c & -> & Hy & Hc).
    apply lang_lit in Hx, Hy. subst x y.
    apply lang_plus_class in Ha, Hb, Hc.
    now exists a, b, c.
  - intros (a & b & c & -> & Ha & Hb & Hc).
    apply lang_plus_class in Ha, Hb, Hc.
    constructor; [exact Ha|].
    change ("@" ++ b ++ "." ++ c) with (String "@" EmptyString ++ (b ++ "." ++ c)).
    constructor; [now apply lang_lit|].
    constructor; [exact Hb|].
    change ("." ++ c) with (String "." EmptyString ++ c).
    constructor; [now apply lang_lit | exact Hc].
Qed.

Lemma lower_nonempty x : x <> EmptyString -> toLowerCase x <> EmptyString.
Proof. destruct x; [contradiction | discriminate]. Qed.

Lemma valid_username_visible u :
  isValidUsername u = true ->
  trim u = u /\ u <> EmptyString /\ isValidUsername (toLowerCase u) = true.
Proof.
  intros H. apply isValidUsername_iff in H as [L A]. split; [|split].
  - apply (all_visible wordChar); [apply wordChar_visible | exact A].
  - destruct u; [cbn in L; lia | discriminate].
  - apply isValidUsername_iff. rewrite length_toLowerCase. split; [exact L|].
    rewrite all_toLowerCase; [exact A | apply wordChar_lowerChar].
Qed.

Lemma valid_email_visible e :
  isValidEmail e = true ->
  trim e = e /\ e <> EmptyString /\ isValidEmail (toLowerCase e) = true.
Proof.
  intros H.
  apply isValidEmail_iff in H as (a & b & c & -> & [Na Aa] & [Nb Ab] & [Nc Ac]).
  split; [|split].
  - apply (all_visible (fun x => notSpaceAt x || Ascii.eqb x "@")).
    + intros x Hx. apply orb_true_iff in Hx as [Hx|Hx].
      * now apply notSpaceAt_visible.
      * apply Ascii.eqb_eq in Hx. now subst.
    + rewrite !all_app.
      rewrite (all_impl notSpaceAt _ a), (all_impl notSpaceAt _ b),
        (all_impl notSpaceAt _ c); trivial;
        intros x Hx; now rewrite Hx.
  - destruct a; [contradiction | discriminate].
  - apply isValidEmail_iff.
    exists (toLowerCase a), (toLowerCase b), (toLowerCase c).
    rewrite !toLowerCase_app. split; [reflexivity|].
    rewrite !all_toLowerCase by apply notSpaceAt_lowerChar.
    pose proof lower_nonempty as K. auto 10.
Qed.

Lemma username_not_email s :
  isValidUsername s = true -> isValidEmail s = false.
Proof.
  intros Hu. destruct (isValidEmail s) eqn:He; [|reflexivity].
  apply isValidUsername_iff in Hu as [_ A].
  apply isValidEmail_iff in He as (a & b & c & -> & _).
  rewrite all_app in A. apply andb_true_iff in A as [_ A].
  cbn in A. discriminate.
Qed.

(** X8.  [isValidUsername] accepts exactly the strings of 3 to 20 letters,
    digits and underscores; such a string is left alone by [trim], stays
    valid when lower-cased, which is the form the backend stores, and is
    never a valid email address. *)
Theorem valid_username_shape u :
  (isValidUsername u = true <->
   (3 <= String.length u <= 20)%nat /\ all wordChar u = true) /\
  (isValidUsername u = true ->
   trim u = u /\ isValidUsername (toLowerCase u) = true /\
   isValidEmail u = false).
Proof.
  split; [apply isValidUsername_iff|].
  intros H. destruct (valid_username_visible u H) as (T & _ & L).
  split; [exact T|]. split; [exact L|]. now apply username_not_email.
Qed.

(** The class [[^\s@]] by character code. *)
Lemma notSpaceAt_spec c :
  notSpaceAt c = true <-> ~ WhiteSpaceChar c /\ c <> "@"%char.
Proof.
  unfold notSpaceAt. rewrite negb_true_iff, orb_false_iff, white_spec.
  split; intros [W A]; split.
  - now rewrite W.
  - now apply Ascii.eqb_neq.
  - now destruct (isWhiteSpace c); [exfalso; apply W|].
  - now apply Ascii.eqb_neq.
Qed.

(** X9.  [isValidEmail] accepts exactly the strings [a@b.c] whose three
    parts are non-empty and made of characters of the class [[^\s@]], a
    character being in that class exactly when it is neither [@] nor one
    of TAB, LF, VT, FF, CR, SPACE and the no-break space U+00A0; such a
    string is left alone by [trim] and stays valid when lower-cased. *)
Theorem valid_email_shape e :
  (isValidEmail e = true <->
   exists a b c,
     e = a ++ "@" ++ b ++ "." ++ c /\
     (a <> EmptyString /\ all notSpaceAt a = true) /\
     (b <> EmptyString /\ all notSpaceAt b = true) /\
     (c <> EmptyString /\ all notSpaceAt c = true)) /\
  (forall c, notSpaceAt c = true <-> ~ WhiteSpaceChar c /\ c <> "@"%char) /\
  (isValidEmail e = true ->
   trim e = e /\ isValidEmail (toLowerCase e) = true).
Proof.
  split; [apply isValidEmail_iff|]. split; [apply notSpaceAt_spec|].
  intros H. destruct (valid_email_visible e H) as (T & _ & L). now split.
Qed.

(** An address with a no-break space in its local part is refused. *)
Example email_with_no_break_space :
  isValidEmail (String "a" (String (ascii_of_nat 160) "b@x.co")) = false.
Proof. reflexivity. Qed.

Lemma validateForm_passes f :
  validateForm f = None ->
  (2 <= String.length (trim (f_fullName f)))%nat /\
  isValidUsername (f_username f) = true /\
  isValidEmail (f_email f) = true /\
  (6 <= String.length (f_password f))%nat /\
  f_password f = f_confirmPassword f.
Proof.
  unfold validateForm, isValidPassword. intros H.
  destruct (negb (truthy (Some (f_fullName f)))
            || (String.length (trim (f_fullName f)) <? 2)%nat) eqn:E1;
    [discriminate|].
  destruct (isValidUsername (f_username f)); [|discriminate].
  destruct (isValidEmail (f_email f)); [|discriminate].
  destruct (Nat.leb_spec 6 (String.length (f_password f))); [|discriminate].
  destruct (String.eqb_spec (f_password f) (f_confirmPassword f));
    [|discriminate].
  apply orb_false_iff in E1 as [_ E1]. apply Nat.ltb_ge in E1. auto.
Qed.

Lemma userData_fields f :
  validateForm f = None ->
  userData f =
  mkSignup (Some (trim (f_fullName f))) (Some (f_username f))
           (Some (toLowerCase (f_email f))) (Some (f_password f)).
Proof.
  intros H. destruct (validateForm_passes f H) as (_ & Hu & He & _).
  unfold userData.
  now rewrite (proj1 (valid_username_visible _ Hu)),
    (proj1 (valid_email_visible _ He)).
Qed.

Section FormAgainstBackend.

Context {hasher : Hasher} {codec : JwtCodec}.
Variable q : bool.

(** What the backend makes of the body of a validated form. *)
Lemma form_body f env :
  validateForm f = None ->
  validBody (userData f) /\
  validateSync (createdBy env (userData f)) = true /\
  fullName (createdBy env (userData f)) = trim (f_fullName f) /\
  username (createdBy env (userData f)) = toLowerCase (f_username f) /\
  email (createdBy env (userData f)) = toLowerCase (f_email f).
Proof.
  intros H. rewrite (userData_fields f H).
  destruct (validateForm_passes f H) as (Hn & Hu & He & Hp & _).
  destruct (valid_username_visible _ Hu) as (Tu & Nu & _).
  destruct (valid_email_visible _ He) as (Te & Ne & _).
  assert (trim (f_fullName f) <> EmptyString) as Nn
      by (destruct (trim (f_fullName f)); [cbn in Hn; lia | discriminate]).
  assert (fullName (createdBy env
            (mkSignup (Some (trim (f_fullName f))) (Some (f_username f))
               (Some (toLowerCase (f_email f))) (Some (f_password f)))) =
          trim (f_fullName f)) as Fn by apply trim_idem.
  assert (username (createdBy env
            (mkSignup (Some (trim (f_fullName f))) (Some (f_username f))
               (Some (toLowerCase (f_email f))) (Some (f_password f)))) =
          toLowerCase (f_username f)) as Fu
      by (cbn [createdBy username sb_username str]; unfold set_lower;
          now rewrite Tu).
  assert (email (createdBy env
            (mkSignup (Some (trim (f_fullName f))) (Some (f_username f))
               (Some (toLowerCase (f_email f))) (Some (f_password f)))) =
          toLowerCase (f_email f)) as Fe
      by (cbn [createdBy email sb_email str]; unfold set_lower;
          now rewrite trim_lower, Te, toLowerCase_idem).
  split; [|split; [|now repeat split]].
  - unfold validBody. cbn [sb_fullName sb_username sb_email sb_password str].
    repeat split; trivial; apply truthy_nonempty; trivial.
    + now apply lower_nonempty.
    + now apply long_nonempty.
  - rewrite validateSync_createdBy.
    cbn [createdBy fullName username email] in Fn, Fu, Fe.
    rewrite Fn, Fu, Fe.
    assert (toLowerCase (f_username f) <> EmptyString) as Lu
        by now apply lower_nonempty.
    assert (toLowerCase (f_email f) <> EmptyString) as Le
        by now apply lower_nonempty.
    apply String.eqb_neq in Nn, Lu, Le. now rewrite Nn, Lu, Le.
Qed.

(** X10.  The body of a form that passes [validateForm], sent to a
    reachable collection in which no document has the lower-cased username
    or email (nor the fresh id), is answered 201; the stored document has
    the trimmed name and the lower-cased username and email of the form,
    and these again pass the frontend's validators. *)
Theorem validated_form_is_stored env st f :
  validateForm f = None ->
  reachable q st ->
  (forall d, In d st ->
     _id d <> freshId env /\
     username d <> toLowerCase (f_username f) /\
     email d <> toLowerCase (f_email f)) ->
  signup q env st (userData f) =
  (mkResponse 201
     (JObject [("message", JString "Account created successfully!");
               ("token",
                JString (jwt_sign (nowMs env)
                           (claimsOf (createdBy env (userData f)))
                           JWT_SECRET expiresIn_7d));
               ("user", userView (createdBy env (userData f)))]),
   (st ++ [createdBy env (userData f)])%list) /\
  fullName (createdBy env (userData f)) = trim (f_fullName f) /\
  username (createdBy env (userData f)) = toLowerCase (f_username f) /\
  email (createdBy env (userData f)) = toLowerCase (f_email f) /\
  isValidUsername (username (createdBy env (userData f))) = true /\
  isValidEmail (email (createdBy env (userData f))) = true.
Proof.
  intros H Hr Hfresh.
  destruct (form_body f env H) as (Hv & V & Fn & Fu & Fe).
  destruct (validateForm_passes f H) as (_ & Hu & He & _).
  split; [|split; [exact Fn|split; [exact Fu|split; [exact Fe|]]]].
  - apply signup_created; trivial.
    + unfold duplicateCheck.
      destruct (findOne_or q st _ _) as [u|] eqn:F; [|reflexivity].
      unfold findOne_or in F. apply find_some in F as [Hin _].
      pose proof (ok_docs st (reachable_ok q st Hr) u Hin) as Ou.
      destruct (Hfresh u Hin) as (_ & Nu & Ne).
      cbn [createdBy username email] in Fu, Fe.
      destruct (String.eqb_spec (email u) (str (sb_email (userData f))))
        as [E|_].
      { exfalso. apply Ne. rewrite <- Fe, <- E. symmetry. apply Ou. }
      destruct (String.eqb_spec (username u) (str (sb_username (userData f))))
        as [E|_]; [|reflexivity].
      exfalso. apply Nu. rewrite <- Fu, <- E. symmetry. apply Ou.
    + apply violatesUnique_fresh. intros x Hx.
      destruct (Hfresh x Hx) as (N1 & N2 & N3).
      rewrite Fu, Fe. now repeat split.
  - rewrite Fu, Fe. split.
    + apply (valid_username_visible _ Hu).
    + apply (valid_email_visible _ He).
Qed.

(** X11.  Whatever the collection holds, the body of a form that passes
    [validateForm] is never answered with one of the backend's validation
    messages nor refused by the schema: the answer is 201, one of the two
    duplicate errors, or the generic 500 after a unique index refused the
    document. *)
Theorem validated_form_outcomes env st f :
  validateForm f = None ->
  (status (fst (signup q env st (userData f))) = 201%Z /\
   snd (signup q env st (userData f)) =
   (st ++ [createdBy env (userData f)])%list) \/
  ((fst (signup q env st (userData f)) =
    errorResponse 400 "Email already registered" \/
    fst (signup q env st (userData f)) =
    errorResponse 400 "Username already taken" \/
    (fst (signup q env st (userData f)) = serverError /\
     violatesUnique st (createdBy env (userData f)) = true)) /\
   snd (signup q env st (userData f)) = st).
Proof.
  intros H. destruct (form_body f env H) as (Hv & V & _).
  destruct (duplicateCheck
              (findOne_or q st (str (sb_email (userData f)))
                 (str (sb_username (userData f))))
              (str (sb_email (userData f))) (str (sb_username (userData f))))
    as [r|] eqn:D.
  - right. rewrite signup_validBody by assumption. rewrite D. cbn [fst snd].
    split; [|reflexivity]. unfold duplicateCheck in D.
    destruct (findOne_or q st _ _) as [u|]; [|discriminate].
    destruct (String.eqb (email u) _); [injection D as <-; now left|].
    destruct (String.eqb (username u) _); [|discriminate].
    injection D as <-. right. now left.
  - destruct (violatesUnique st (createdBy env (userData f))) eqn:U.
    + right. rewrite (signup_refused q env st _ Hv D (or_intror U)).
      cbn [fst snd]. split; [|reflexivity]. right. right. now split.
    + left. rewrite (signup_created q env st _ Hv D V U). now split.
Qed.

(** X12.  In a reachable collection whose usernames and emails all pass
    the frontend's validators, as they do when every account came through
    the signup form, each user logs in with the right password by email
    and by username alike, in any letter case. *)
Theorem login_succeeds_for_validated_accounts st u :
  reachable q st ->
  (forall d, In d st ->
     isValidUsername (username d) = true /\ isValidEmail (email d) = true) ->
  In u st ->
  exists plain,
    bcrypt_compare plain (password u) = true /\
    forall env ident,
      toLowerCase ident = email u \/ toLowerCase ident = username u ->
      login q env st (mkLogin (Some ident) (Some plain)) =
      (mkResponse 200
         (JObject [("message", JString "Login successful!");
                   ("token",
                    JString (jwt_sign (nowMs env) (claimsOf u)
                               JWT_SECRET expiresIn_7d));
                   ("user", userView u)]),
       st).
Proof.
  intros Hr Hshape Hin. pose proof (reachable_ok q st Hr) as Hok.
  pose proof (ok_docs st Hok u Hin) as Hu.
  destruct (ok_password u Hu) as (s & plain & Hpw & Hlen).
  destruct (ok_nonempty u Hu) as (_ & Hune & Heme).
  exists plain. split; [rewrite Hpw; apply compare_same|].
  intros env ident Hcase.
  assert (findOne_or q st (toLowerCase ident) (toLowerCase ident) = Some u) as F.
  { apply findOne_or_resolves; trivial.
    - destruct Hcase as [E|E]; rewrite E; apply Hu.
    - destruct Hcase as [E|E]; rewrite E; [left|right]; (split; [reflexivity|]);
        intros d Hd _ Eq.
      + destruct (Hshape d Hd) as [Vu _]. destruct (Hshape u Hin) as [_ Ve].
        rewrite Eq in Vu. apply username_not_email in Vu. congruence.
      + destruct (Hshape d Hd) as [_ Ve]. destruct (Hshape u Hin) as [Vu _].
        rewrite Eq in Ve. apply username_not_email in Vu. congruence. }
  rewrite login_validBody.
  - cbn [lb_emailOrUsername lb_password str].
    now rewrite F, Hpw, compare_same.
  - apply truthy_nonempty, toLowerCase_nonempty.
    destruct Hcase as [E|E]; now rewrite E.
  - now apply truthy_nonempty, long_nonempty.
Qed.

End FormAgainstBackend.

End Frontend.

(* ===================================================================== *)
(** ** The frontend: the session kept by AuthService
       (services/authService.js, App.js)

    [fetch] either brings a reply or rejects with a message.  The [token]
    and [error] fields of a reply are read as strings; replies that carry
    anything else there are outside the model.  [JSON.parse] of
    [JSON.stringify] of a value is taken to be the value. *)
(* ===================================================================== *)

Module Session.

Inductive Fetch :=
| Replied (r : Response)
| Rejected (message : string).

(** [response.ok]. *)
Definition ok (r : Response) : bool :=
  ((200 <=? status r) && (status r <=? 299))%Z.

(** Truthiness of a JSON value of the model: only the empty string is
    falsy. *)
Definition json_truthy (v : option json) : bool :=
  match v with
  | None => false
  | Some (JString EmptyString) => false
  | Some _ => true
  end.

(** [data.token] and [data.error]. *)
Definition stringField (key : string) (j : json) : option string :=
  match field key j with
  | Some (JString s) => Some s
  | _ => None
  end.

(** What [localStorage] holds under [aakar3d_user]: the text of a JSON
    value, or the text "undefined" that [setItem] makes of [undefined]. *)
Inductive UserItem :=
| ItemJson (j : json)
| ItemUndefined.

Record LocalStorage := mkStorage {
  aakar3d_token : option string;
  aakar3d_user : option UserItem
}.

(** The fields of the [AuthService] object. *)
Record AuthService := mkService {
  this_token : option string;
  this_user : option json
}.

(** [new AuthService()]: [None] when [JSON.parse] throws. *)
Definition construct (ls : LocalStorage) : option AuthService :=
  match aakar3d_user ls with
  | None => Some (mkService (aakar3d_token ls) None)
  | Some (ItemJson j) => Some (mkService (aakar3d_token ls) (Some j))
  | Some ItemUndefined => None
  end.

(** What the methods return. *)
Inductive AuthResult :=
| Success (message : option json) (user : option json)
| Failure (error : string).

(** [data.error || fallback]. *)
Definition errorOr (fallback : string) (data : json) : string :=
  if truthy (stringField "error" data) then str (stringField "error" data)
  else fallback.

(** The common body of [signup(userData)] and [login(credentials)], given
    what [fetch] brought. *)
Definition authenticate (fallback : string) (reply : Fetch)
    (this : AuthService) (ls : LocalStorage)
    : AuthResult * AuthService * LocalStorage :=
  match reply with
  | Rejected message => (Failure message, this, ls)
  | Replied response =>
      let data := body response in
      if negb (ok response) then (Failure (errorOr fallback data), this, ls)
      else
        (Success (field "message" data) (field "user" data),
         mkService (stringField "token" data) (field "user" data),
         mkStorage
           (Some (match stringField "token" data with
                  | Some t => t
                  | None => "undefined"
                  end))
           (Some (match field "user" data with
                  | Some j => ItemJson j
                  | None => ItemUndefined
                  end)))
  end.

Definition signup := authenticate "Signup failed".

Definition login := authenticate "Login failed".

Definition logout (this : AuthService) (ls : LocalStorage)
    : AuthResult * AuthService * LocalStorage :=
  (Success (Some (JString "Logged out successfully")) None,
   mkService None None,
   mkStorage None None).

(** [getProfile()], with [fetch] taking the Authorization header. *)
Definition getProfile (fetch : string -> Fetch) (this : AuthService)
    : AuthResult :=
  if negb (truthy (this_token this)) then Failure "No token available"
  else
    match fetch ("Bearer " ++ str (this_token this)) with
    | Rejected message => Failure message
    | Replied response =>
        if negb (ok response)
        then Failure (errorOr "Failed to get profile" (body response))
        else Success None (field "user" (body response))
    end.

Definition isAuthenticated (this : AuthService) : bool :=
  truthy (this_token this) && json_truthy (this_user this).

(** [checkAuth] of App.js, run when the page loads: the [user] state of
    the component afterwards, and the service and storage. *)
Definition checkAuth (fetch : string -> Fetch) (this : AuthService)
    (ls : LocalStorage) : option json * AuthService * LocalStorage :=
  if isAuthenticated this then
    match getProfile fetch this with
    | Success _ user => (user, this, ls)
    | Failure _ =>
        let '(_, this', ls') := logout this ls in (None, this', ls')
    end
  else (None, this, ls).

End Session.

Section SessionAgainstBackend.

Context {hasher : Hasher} {codec : JwtCodec}.
Variable q : bool.

Lemma userView_truthy u : Session.json_truthy (Some (userView u)) = true.
Proof. reflexivity. Qed.

Lemma jwt_sign_truthy T c : truthy (Some (jwt_sign T c JWT_SECRET expiresIn_7d)) = true.
Proof. apply truthy_nonempty, encode_nonempty. Qed.

(** X13.  When [authService.signup] or [authService.login] is given the
    backend's reply: on an error reply (400 or 500) it fails with the
    backend's message and leaves the session and [localStorage] as they
    were; on a 2xx reply it stores the token and the user view, the
    service is authenticated, and a service constructed afresh from
    [localStorage] has the same token and user. *)
Theorem backend_reply_sets_session env st r fallback this ls :
  (exists b, r = PostSignup b) \/ (exists b, r = PostLogin b) ->
  (exists msg,
      body (fst (handle q env st r)) = JObject [("error", JString msg)] /\
      Session.ok (fst (handle q env st r)) = false /\
      Session.authenticate fallback (Session.Replied (fst (handle q env st r)))
        this ls = (Session.Failure msg, this, ls)) \/
  (exists u,
      In u (snd (handle q env st r)) /\
      Session.ok (fst (handle q env st r)) = true /\
      let this' :=
        Session.mkService
          (Some (jwt_sign (nowMs env) (claimsOf u) JWT_SECRET expiresIn_7d))
          (Some (userView u)) in
      let ls' :=
        Session.mkStorage
          (Some (jwt_sign (nowMs env) (claimsOf u) JWT_SECRET expiresIn_7d))
          (Some (Session.ItemJson (userView u))) in
      Session.authenticate fallback (Session.Replied (fst (handle q env st r)))
        this ls =
      (Session.Success (field "message" (body (fst (handle q env st r))))
         (Some (userView u)), this', ls') /\
      Session.isAuthenticated this' = true /\
      Session.construct ls' = Some this').
Proof.
  intros Hr.
  destruct (auth_reply q env st r Hr)
    as [(c & m & E & Hc & Hm) | (u & c & m & Hu & Hc & E)]; rewrite E.
  - left. exists m. split; [reflexivity|].
    assert (Session.ok (errorResponse c m) = false) as O
        by (destruct Hc as [-> | ->]; reflexivity).
    split; [exact O|].
    unfold Session.authenticate. rewrite O. cbn [negb].
    unfold Session.errorOr, Session.stringField. cbn.
    destruct m; [contradiction | reflexivity].
  - right. exists u. split; [exact Hu|].
    assert (Session.ok
              (mkResponse c
                 (JObject [("message", JString m);
                           ("token",
                            JString (jwt_sign (nowMs env) (claimsOf u)
                                       JWT_SECRET expiresIn_7d));
                           ("user", userView u)])) = true) as O
        by (destruct Hc as [-> | ->]; reflexivity).
    split; [exact O|]. cbn zeta.
    split; [|split; [|reflexivity]].
    + unfold Session.authenticate. rewrite O. reflexivity.
    + unfold Session.isAuthenticated. cbn [Session.this_token Session.this_user].
      now rewrite jwt_sign_truthy.
Qed.

(** X14.  A session opened by a backend reply on a reachable collection
    survives a page load while the token lives and is closed by it
    afterwards, whatever requests the backend served in between:
    [checkAuth] sets the user to the stored document's profile and keeps
    token, user and [localStorage] before the expiry second; from the
    expiry second on the profile request is answered 403 and [checkAuth]
    logs out, clearing all three. *)
Theorem checkAuth_follows_token_lifetime env st r fallback this ls rs env' :
  reachable q st ->
  (exists b, r = PostSignup b) \/ (exists b, r = PostLogin b) ->
  Session.ok (fst (handle q env st r)) = true ->
  exists u,
    In u (snd (handle q env st r)) /\
    let opened :=
      Session.authenticate fallback (Session.Replied (fst (handle q env st r)))
        this ls in
    let fetch := fun h =>
      Session.Replied
        (fst (profile env' (run q (snd (handle q env st r)) rs) (Some h))) in
    Session.checkAuth fetch (snd (fst opened)) (snd opened) =
    if (nowMs env / 1000 + expiresIn_7d <=? nowMs env' / 1000)%Z
    then (None, Session.mkService None None, Session.mkStorage None None)
    else (Some (JObject [("id", JObjectId (_id u));
                         ("fullName", JString (fullName u));
                         ("username", JString (username u));
                         ("email", JString (email u));
                         ("createdAt", JDate (createdAt u))]),
          snd (fst opened), snd opened).
Proof.
  intros Hreach Hr Hok.
  destruct (auth_reply q env st r Hr)
    as [(c & m & E & Hc & Hm) | (u & c & m & Hu & Hc & E)].
  { rewrite E in Hok. destruct Hc as [-> | ->]; discriminate. }
  exists u. split; [exact Hu|]. cbn zeta.
  unfold Session.authenticate. rewrite Hok. cbn [negb fst snd].
  rewrite E. cbn [body].
  change (Session.stringField "token" _)
    with (Some (jwt_sign (nowMs env) (claimsOf u) JWT_SECRET expiresIn_7d)).
  change (field "user" (JObject _)) with (Some (userView u)).
  unfold Session.checkAuth, Session.isAuthenticated.
  cbn [Session.this_token Session.this_user].
  rewrite jwt_sign_truthy, userView_truthy. cbn [andb].
  unfold Session.getProfile. cbn [Session.this_token str].
  rewrite jwt_sign_truthy. cbn [negb].
  rewrite (issued_token_profile q (snd (handle q env st r)) u (nowMs env) rs env');
    [|apply handle_ok, (reachable_ok q); exact Hreach | exact Hu].
  cbn [fst].
  destruct (nowMs env / 1000 + expiresIn_7d <=? nowMs env' / 1000)%Z;
    reflexivity.
Qed.

End SessionAgainstBackend.

(* ===================================================================== *)
(** ** Batch generation (routes/ml.js, POST /bulk-generate)

    The ML service is an external HTTP service: what [axios.post] brings
    back in iteration [i] for a description is the parameter [generate].
    The file system calls on the uploaded file are taken to succeed. *)
(* ===================================================================== *)

From Stdlib Require Import DecimalString Sorted.

Module Bulk.

(** [s.split(sep)] for a one-character separator. *)
Fixpoint split_on (sep : ascii) (s : string) : list string :=
  match s with
  | EmptyString => [EmptyString]
  | String c r =>
      if Ascii.eqb c sep then EmptyString :: split_on sep r
      else match split_on sep r with
           | h :: t => String c h :: t
           | [] => [String c EmptyString]
           end
  end.

Definition newline : ascii := "010"%char.

(** [`${n}`] for a number of entries. *)
Definition show (n : nat) : string := NilZero.string_of_uint (Nat.to_uint n).

(** [req.body.descriptions]: one string or an array of strings. *)
Inductive Descriptions :=
| One (s : string)
| Many (l : list string).

(** [req.file] (the text of the uploaded file) and [req.body.descriptions]. *)
Record BulkRequest := mkBulk {
  file : option string;
  descriptions : option Descriptions
}.

Record Summary := mkSummary {
  total : nat;
  successful : nat;
  failed : nat
}.

(** [error] is [response.data.error], which may be absent, or the message
    of what was thrown. *)
Record BatchError := mkError {
  e_index : nat;
  e_description : string;
  e_error : option string
}.

Section Handler.

(** A value that the ML service puts under a key of [response.data.data]
    and that is neither a number nor a string. *)
Variable Data : Type.

Inductive Value :=
| VNumber (n : nat)
| VString (s : string)
| VData (d : Data).

(** A JavaScript object: its own properties, in insertion order. *)
Definition Object := list (string * Value).

(** [o[k]]. *)
Definition prop (k : string) (o : Object) : option Value :=
  match find (fun kv => String.eqb (fst kv) k) o with
  | Some kv => Some (snd kv)
  | None => None
  end.

(** Defining the property [k] with value [v]: a property the object has
    keeps its place and takes the value, a new one goes last. *)
Fixpoint define (o : Object) (k : string) (v : Value) : Object :=
  match o with
  | [] => [(k, v)]
  | (k', v') :: r =>
      if String.eqb k' k then (k', v) :: r else (k', v') :: define r k v
  end.

(** [{ ...o, ...extra }]: the properties of [extra] are defined one after
    the other on top of those of [o]. *)
Definition spread (o extra : Object) : Object :=
  fold_left (fun acc kv => define acc (fst kv) (snd kv)) extra o.

(** [response.data] of the ML service: [success] with [data], or no
    [success] with a possibly absent [error]; or the request throws. *)
Inductive MlReply :=
| MlSuccess (data : Object)
| MlFailure (error : option string)
| MlThrown (message : string).

(** The reply to the request of iteration [i]. *)
Variable generate : nat -> string -> MlReply.

(** The literal [{ index: i + 1, description, ...response.data.data }]. *)
Definition resultEntry (i : nat) (description : string) (data : Object)
    : Object :=
  spread [("index", VNumber (i + 1)); ("description", VString description)]
         data.

Inductive BulkResponse :=
| NoDescriptions
| Completed (message : string) (results : list Object)
            (errors : list BatchError) (summary : Summary).

Definition bulkStatus (r : BulkResponse) : Z :=
  match r with
  | NoDescriptions => 400
  | Completed _ _ _ _ => 200
  end.

Definition blank (line : string) : bool := String.eqb (trim line) EmptyString.

(** The [descriptions] array the handler works on; [None] is the 400. *)
Definition descriptionsOf (req : BulkRequest) : option (list string) :=
  match file req with
  | Some fileContent =>
      Some (filter (fun line => negb (blank line))
                   (split_on newline fileContent))
  | None =>
      match descriptions req with
      | Some (Many l) => Some l
      | Some (One s) => if truthy (Some s) then Some [s] else None
      | None => None
      end
  end.

(** The [for] loop from index [i] on, with the two arrays built so far. *)
Fixpoint loop (i : nat) (ds : list string)
    (results : list Object) (errors : list BatchError)
    : list Object * list BatchError :=
  match ds with
  | [] => (results, errors)
  | d :: rest =>
      let description := trim d in
      if String.eqb description EmptyString then loop (S i) rest results errors
      else
        match generate i description with
        | MlSuccess data =>
            loop (S i) rest
              (results ++ [resultEntry i description data])%list errors
        | MlFailure error =>
            loop (S i) rest results
              (errors ++ [mkError (i + 1) description error])%list
        | MlThrown message =>
            loop (S i) rest results
              (errors ++ [mkError (i + 1) d (Some message)])%list
        end
  end.

Definition bulkGenerate (req : BulkRequest) : BulkResponse :=
  match descriptionsOf req with
  | None => NoDescriptions
  | Some ds =>
      let (results, errors) := loop 0 ds [] [] in
      Completed
        ("Batch generation completed. " ++ show (List.length results)
         ++ " successful, " ++ show (List.length errors) ++ " failed.")
        results errors
        (mkSummary (List.length ds) (List.length results) (List.length errors))
  end.

(** *** The loop, read declaratively *)

Fixpoint resultsFrom (i : nat) (ds : list string) : list Object :=
  match ds with
  | [] => []
  | d :: rest =>
      if blank d then resultsFrom (S i) rest
      else match generate i (trim d) with
           | MlSuccess data => resultEntry i (trim d) data :: resultsFrom (S i) rest
           | _ => resultsFrom (S i) rest
           end
  end.

Fixpoint errorsFrom (i : nat) (ds : list string) : list BatchError :=
  match ds with
  | [] => []
  | d :: rest =>
      if blank d then errorsFrom (S i) rest
      else match generate i (trim d) with
           | MlSuccess _ => errorsFrom (S i) rest
           | MlFailure error => mkError (i + 1) (trim d) error :: errorsFrom (S i) rest
           | MlThrown message =>
               mkError (i + 1) d (Some message) :: errorsFrom (S i) rest
           end
  end.

Lemma loop_spec ds : forall i results errors,
  loop i ds results errors =
  ((results ++ resultsFrom i ds)%list, (errors ++ errorsFrom i ds)%list).
Proof.
  induction ds as [|d rest IH]; intros i results errors; cbn [loop resultsFrom errorsFrom].
  - now rewrite !app_nil_r.
  - unfold blank. destruct (String.eqb (trim d) EmptyString); [apply IH|].
    destruct (generate i (trim d)); rewrite IH; now rewrite <- ?app_assoc.
Qed.

Lemma counts_from ds : forall i,
  (List.length (resultsFrom i ds) + List.length (errorsFrom i ds) =
   List.length (filter (fun d => negb (blank d)) ds))%nat.
Proof.
  induction ds as [|d rest IH]; intros i; [reflexivity|].
  cbn [resultsFrom errorsFrom filter].
  destruct (blank d); cbn [negb]; [apply IH|].
  destruct (generate i (trim d)); cbn [List.length]; rewrite <- (IH (S i)); lia.
Qed.

Lemma filter_all {A} (f : A -> bool) l : filter f (filter f l) = filter f l.
Proof.
  induction l as [|x r IH]; [reflexivity|]. cbn.
  destruct (f x) eqn:E; [cbn; now rewrite E, IH | exact IH].
Qed.

Lemma filter_length_le {A} (f : A -> bool) l :
  (List.length (filter f l) <= List.length l)%nat.
Proof.
  induction l as [|x r IH]; [reflexivity|]. cbn.
  destruct (f x); cbn; lia.
Qed.

(** X15.  POST /bulk-generate answers 400 exactly when no file was
    uploaded and [descriptions] is absent or the empty string; otherwise
    it answers 200, and in its summary [total] is the number of
    descriptions, [successful] and [failed] are the lengths of the two
    lists, and together they count the descriptions that are not blank:
    a blank description is skipped without a request and is in neither
    list. *)
Theorem bulk_summary_counts req :
  (bulkGenerate req = NoDescriptions <->
   file req = None /\
   (descriptions req = None \/ descriptions req = Some (One EmptyString))) /\
  (forall message results errors summary,
     bulkGenerate req = Completed message results errors summary ->
     exists ds,
       descriptionsOf req = Some ds /\
       total summary = List.length ds /\
       successful summary = List.length results /\
       failed summary = List.length errors /\
       (successful summary + failed summary =
        List.length (filter (fun d => negb (blank d)) ds))%nat /\
       (successful summary + failed summary <= total summary)%nat).
Proof.
  split.
  - unfold bulkGenerate, descriptionsOf.
    destruct (file req) as [content|].
    + destruct (loop 0 _ [] []). split; [discriminate | now intros [? _]].
    + destruct (descriptions req) as [[s|l]|].
      * destruct s as [|c r]; cbn [truthy].
        -- split; auto.
        -- destruct (loop 0 _ [] []). split; [discriminate|].
           intros [_ [?|?]]; discriminate.
      * destruct (loop 0 _ [] []). split; [discriminate|].
        intros [_ [?|?]]; discriminate.
      * split; auto.
  - intros message results errors summary H. unfold bulkGenerate in H.
    destruct (descriptionsOf req) as [ds|]; [|discriminate].
    exists ds. rewrite loop_spec in H. cbn [app] in H.
    injection H as _ <- <- <-. cbn [total successful failed].
    repeat split; trivial.
    + apply counts_from.
    + rewrite counts_from. apply filter_length_le.
Qed.

(** X16.  With an uploaded file the body's [descriptions] are not looked
    at: the descriptions are the lines of the file that are not blank, in
    order, every one of them is sent to the ML service, and [successful]
    and [failed] add up to [total]. *)
Theorem bulk_file_every_line_counted content body :
  exists message results errors summary,
    bulkGenerate (mkBulk (Some content) body) =
    Completed message results errors summary /\
    total summary =
    List.length (filter (fun line => negb (blank line))
                        (split_on newline content)) /\
    (successful summary + failed summary = total summary)%nat.
Proof.
  unfold bulkGenerate, descriptionsOf. cbn [file].
  rewrite loop_spec. cbn [app]. do 4 eexists. split; [reflexivity|].
  cbn [total successful failed]. split; [reflexivity|].
  rewrite counts_from. now rewrite filter_all.
Qed.

(** *** Reading a property of a spread object *)

Lemma prop_define k o : forall k' v,
  prop k (define o k' v) = if String.eqb k' k then Some v else prop k o.
Proof.
  unfold prop. induction o as [|[k0 v0] r IH]; intros k' v.
  - cbn. now destruct (String.eqb k' k).
  - cbn [define]. destruct (String.eqb_spec k0 k') as [->|N].
    + cbn. now destruct (String.eqb k' k).
    + cbn [find fst snd]. destruct (String.eqb_spec k0 k) as [->|N'].
      * apply String.eqb_neq in N. rewrite String.eqb_sym in N.
        now rewrite N.
      * apply IH.
Qed.

Lemma prop_app k (o1 o2 : Object) :
  prop k (o1 ++ o2)%list =
  match prop k o1 with Some v => Some v | None => prop k o2 end.
Proof.
  unfold prop. induction o1 as [|[k0 v0] r IH]; [reflexivity|].
  cbn [app find fst]. now destruct (String.eqb k0 k).
Qed.

(** A property of [{ ...o, ...extra }] is the one [extra] defines last,
    and the one of [o] when [extra] has none. *)
Lemma prop_spread k extra : forall o,
  prop k (spread o extra) =
  match prop k (rev extra) with Some v => Some v | None => prop k o end.
Proof.
  induction extra as [|[k' v] r IH]; intros o; [reflexivity|].
  change (spread o ((k', v) :: r)) with (spread (define o k' v) r).
  rewrite IH, prop_define. cbn [rev]. rewrite prop_app.
  destruct (prop k (rev r)); [reflexivity|].
  unfold prop. cbn [find fst snd]. now destruct (String.eqb k' k).
Qed.

Lemma prop_none k o :
  prop k o = None <-> forall v, ~ In (k, v) o.
Proof.
  unfold prop. induction o as [|[k0 v0] r IH].
  - split; [intros _ v [] | reflexivity].
  - cbn [find fst]. destruct (String.eqb_spec k0 k) as [->|N].
    + split; [discriminate|]. intros H. exfalso. apply (H v0). now left.
    + rewrite IH. split; intros H v.
      * intros [E|Hin]; [injection E as E _; contradiction | now apply (H v)].
      * intros Hin. apply (H v). now right.
Qed.

Lemma prop_none_rev k o : prop k o = None -> prop k (rev o) = None.
Proof.
  rewrite !prop_none. intros H v Hin. apply in_rev in Hin. now apply (H v).
Qed.

(** *** The two lists *)

(** The positions, from [i] on, whose description the service answers
    with success. *)
Fixpoint successesFrom (i : nat) (ds : list string) : list nat :=
  match ds with
  | [] => []
  | d :: rest =>
      if blank d then successesFrom (S i) rest
      else match generate i (trim d) with
           | MlSuccess _ => i :: successesFrom (S i) rest
           | _ => successesFrom (S i) rest
           end
  end.

(** The description at position [i + j] of the request is not blank and
    is answered with success and [data]. *)
Definition succeedsAt (i : nat) (ds : list string) (k : nat)
    (d : string) (data : Object) : Prop :=
  exists j, k = (i + j)%nat /\ nth_error ds j = Some d /\ blank d = false /\
            generate k (trim d) = MlSuccess data.

Lemma succeedsAt_tail i d0 rest k d data :
  succeedsAt (S i) rest k d data -> succeedsAt i (d0 :: rest) k d data.
Proof.
  intros (j & -> & N & B & G). exists (S j).
  replace (i + S j)%nat with (S i + j)%nat by lia. now repeat split.
Qed.

Lemma succeedsAt_cons i d0 rest k d data :
  succeedsAt i (d0 :: rest) k d data ->
  (k = i /\ d = d0 /\ blank d0 = false /\
   generate i (trim d0) = MlSuccess data) \/
  succeedsAt (S i) rest k d data.
Proof.
  intros ([|j] & -> & N & B & G).
  - left. cbn in N. injection N as <-. rewrite Nat.add_0_r in *. auto.
  - right. exists j. replace (S i + j)%nat with (i + S j)%nat by lia.
    now repeat split.
Qed.

Lemma successesFrom_In ds : forall i k,
  In k (successesFrom i ds) <-> exists d data, succeedsAt i ds k d data.
Proof.
  induction ds as [|d0 rest IH]; intros i k; cbn [successesFrom].
  - split; [intros [] | intros (d & data & [|j] & _ & N & _); discriminate].
  - assert (In k (successesFrom (S i) rest) ->
            exists d data, succeedsAt i (d0 :: rest) k d data) as Tail.
    { intros H. apply IH in H as (d & data & H). exists d, data.
      now apply succeedsAt_tail. }
    destruct (blank d0) eqn:B.
    + split; [exact Tail|]. intros (d & data & H).
      apply succeedsAt_cons in H as [(_ & _ & B' & _)|H]; [congruence|].
      apply IH. now exists d, data.
    + destruct (generate i (trim d0)) as [data0|err|msg] eqn:G.
      * cbn [In]. split.
        -- intros [<-|H]; [|now apply Tail].
           exists d0, data0, 0%nat. rewrite Nat.add_0_r. now repeat split.
        -- intros (d & data & H).
           apply succeedsAt_cons in H as [(-> & _)|H]; [now left|].
           right. apply IH. now exists d, data.
      * split; [exact Tail|]. intros (d & data & H).
        apply succeedsAt_cons in H as [(_ & _ & _ & G')|H]; [congruence|].
        apply IH. now exists d, data.
      * split; [exact Tail|]. intros (d & data & H).
        apply succeedsAt_cons in H as [(_ & _ & _ & G')|H]; [congruence|].
        apply IH. now exists d, data.
Qed.

Lemma successesFrom_sorted ds : forall i,
  StronglySorted lt (successesFrom i ds).
Proof.
  induction ds as [|d rest IH]; intros i; cbn [successesFrom]; [constructor|].
  destruct (blank d); [apply IH|].
  destruct (generate i (trim d)); try apply IH.
  constructor; [apply IH|].
  apply Forall_forall. intros k Hk.
  apply successesFrom_In in Hk as (d' & data' & j & -> & _). lia.
Qed.

(** The entries of [results], one for each such position, in order. *)
Lemma successes_results ds : forall i,
  Forall2 (fun k x => exists d data,
               succeedsAt i ds k d data /\ x = resultEntry k (trim d) data)
          (successesFrom i ds) (resultsFrom i ds).
Proof.
  induction ds as [|d0 rest IH]; intros i; cbn [successesFrom resultsFrom];
    [constructor|].
  assert (Forall2 (fun k x => exists d data,
                       succeedsAt i (d0 :: rest) k d data /\
                       x = resultEntry k (trim d) data)
                  (successesFrom (S i) rest) (resultsFrom (S i) rest)) as Tail.
  { eapply Forall2_impl; [|apply IH].
    intros k x (d & data & H & ->). exists d, data.
    split; [now apply succeedsAt_tail | reflexivity]. }
  destruct (blank d0) eqn:B; [exact Tail|].
  destruct (generate i (trim d0)) as [data0|err|msg] eqn:G; try exact Tail.
  constructor; [|exact Tail].
  exists d0, data0. split; [|reflexivity].
  exists 0%nat. rewrite Nat.add_0_r. now repeat split.
Qed.

(** X17.  [results] has one entry for each description that is not blank
    and that the service answered with success, in the order of the
    descriptions: the entry at position [k] is the object
    [{ index: k + 1, description, ...data }] with the trimmed description
    and the data of the reply.  Reading a property of such an entry gives
    what [data] defines under that key, and only when [data] has no such
    key the handler's own value: the entry carries the 1-based position
    under [index] and the trimmed description under [description] when
    [data] has no property of these names. *)
Theorem bulk_results_are_the_successes req message results errors summary :
  bulkGenerate req = Completed message results errors summary ->
  exists ds,
    descriptionsOf req = Some ds /\
    (exists ks,
       StronglySorted lt ks /\
       (forall k, In k ks <->
                  exists d data,
                    nth_error ds k = Some d /\ blank d = false /\
                    generate k (trim d) = MlSuccess data) /\
       Forall2 (fun k x => exists d data,
                    nth_error ds k = Some d /\
                    generate k (trim d) = MlSuccess data /\
                    x = resultEntry k (trim d) data)
               ks results) /\
    (forall k d data key,
       prop key (resultEntry k d data) =
       match prop key (rev data) with
       | Some v => Some v
       | None =>
           prop key [("index", VNumber (k + 1)); ("description", VString d)]
       end) /\
    (forall k d data,
       (prop "index" data = None ->
        prop "index" (resultEntry k d data) = Some (VNumber (k + 1))) /\
       (prop "description" data = None ->
        prop "description" (resultEntry k d data) = Some (VString d))).
Proof.
  intros H. unfold bulkGenerate in H.
  destruct (descriptionsOf req) as [ds|]; [|discriminate].
  exists ds. rewrite loop_spec in H. cbn [app] in H.
  injection H as _ <- _ _. split; [reflexivity|]. split; [|split].
  - exists (successesFrom 0 ds). split; [apply successesFrom_sorted|]. split.
    + intros k. rewrite successesFrom_In. split.
      * intros (d & data & j & -> & N & B & G). now exists d, data.
      * intros (d & data & N & B & G). exists d, data, k. now repeat split.
    + eapply Forall2_impl; [|apply successes_results].
      intros k x (d & data & (j & -> & N & _ & G) & ->). now exists d, data.
  - intros k d data key. apply prop_spread.
  - intros k d data. unfold resultEntry. split; intros N;
      rewrite prop_spread, (prop_none_rev _ _ N); reflexivity.
Qed.

Lemma errorsFrom_In ds : forall i e,
  In e (errorsFrom i ds) ->
  exists k d,
    nth_error ds k = Some d /\ blank d = false /\ e_index e = (i + k + 1)%nat /\
    ((exists err, generate (i + k) (trim d) = MlFailure err /\
                  e = mkError (i + k + 1) (trim d) err) \/
     (exists msg, generate (i + k) (trim d) = MlThrown msg /\
                  e = mkError (i + k + 1) d (Some msg))).
Proof.
  induction ds as [|d rest IH]; intros i e; cbn [errorsFrom]; [intros []|].
  assert (In e (errorsFrom (S i) rest) ->
          exists k d0,
            nth_error (d :: rest) k = Some d0 /\ blank d0 = false /\
            e_index e = (i + k + 1)%nat /\
            ((exists err, generate (i + k) (trim d0) = MlFailure err /\
                          e = mkError (i + k + 1) (trim d0) err) \/
             (exists msg, generate (i + k) (trim d0) = MlThrown msg /\
                          e = mkError (i + k + 1) d0 (Some msg)))) as Tail.
  { intros H. apply IH in H as (k & d0 & H1 & H2 & H3 & H4).
    exists (S k), d0. cbn [nth_error].
    replace (i + S k)%nat with (S i + k)%nat by lia. auto. }
  destruct (blank d) eqn:B; [exact Tail|].
  destruct (generate i (trim d)) as [data|err|msg] eqn:G; [exact Tail| |].
  - intros [<-|H]; [|now apply Tail].
    exists 0%nat, d. rewrite Nat.add_0_r. cbn [nth_error e_index].
    repeat split; trivial. left. now exists err.
  - intros [<-|H]; [|now apply Tail].
    exists 0%nat, d. rewrite Nat.add_0_r. cbn [nth_error e_index].
    repeat split; trivial. right. now exists msg.
Qed.

Lemma errorsFrom_sorted ds : forall i,
  StronglySorted lt (map e_index (errorsFrom i ds)).
Proof.
  induction ds as [|d rest IH]; intros i; cbn [errorsFrom]; [constructor|].
  destruct (blank d); [apply IH|].
  destruct (generate i (trim d)); try apply IH;
    (cbn [map e_index]; constructor; [apply IH|];
     apply Forall_forall; intros n Hn;
     apply in_map_iff in Hn as (x & <- & Hx);
     apply errorsFrom_In in Hx as (k & _ & _ & _ & -> & _); lia).
Qed.

(** X18.  Every entry of [errors] stands for a description that is not
    blank and that the ML service refused or failed on: a refusal keeps
    the trimmed description and the service's error, a thrown request
    keeps the description as submitted and the message.  The entries are
    in the order of the descriptions, their indices strictly increasing,
    and the description an entry points at was not answered with success:
    no description is counted in both lists. *)
Theorem bulk_errors_are_the_failures req message results errors summary :
  bulkGenerate req = Completed message results errors summary ->
  exists ds,
    descriptionsOf req = Some ds /\
    (forall e, In e errors ->
       exists k d,
         nth_error ds k = Some d /\ blank d = false /\
         ((exists err, generate k (trim d) = MlFailure err /\
                       e = mkError (k + 1) (trim d) err) \/
          (exists msg, generate k (trim d) = MlThrown msg /\
                       e = mkError (k + 1) d (Some msg)))) /\
    StronglySorted lt (map e_index errors) /\
    (forall e k d data,
       In e errors -> e_index e = (k + 1)%nat -> nth_error ds k = Some d ->
       generate k (trim d) <> MlSuccess data).
Proof.
  intros H. unfold bulkGenerate in H.
  destruct (descriptionsOf req) as [ds|]; [|discriminate].
  exists ds. rewrite loop_spec in H. cbn [app] in H.
  injection H as _ _ <- _. split; [reflexivity|]. split; [|split].
  - intros e He. apply errorsFrom_In in He as (k & d & H1 & H2 & _ & H4).
    exists k, d. now repeat split.
  - apply errorsFrom_sorted.
  - intros e k d data He Ie N G.
    apply errorsFrom_In in He as (k' & d' & N' & _ & I' & G').
    rewrite I' in Ie. assert (k' = k) as -> by lia.
    rewrite N in N'. injection N' as <-. cbn [Nat.add] in G'.
    destruct G' as [(err & G' & _)|(msg & G' & _)]; congruence.
Qed.

End Handler.

End Bulk.

(* ===================================================================== *)
(** ** Wallet addresses (services/web3Service.js) *)
(* ===================================================================== *)

Module Web3.

Import Regex.

(** [[a-fA-F0-9]]. *)
Definition hexChar (c : ascii) : bool :=
  let n := nat_of_ascii c in
  ((97 <=? n)%nat && (n <=? 102)%nat) || ((65 <=? n)%nat && (n <=? 70)%nat)
  || ((48 <=? n)%nat && (n <=? 57)%nat).

(** [/^0x[a-fA-F0-9]{40}$/]. *)
Definition addressRegex : regex :=
  Cat (Lit "0") (Cat (Lit "x") (Rep 40 (Class hexChar))).

Definition isValidAddress (address : string) : bool := test addressRegex address.

(** [formatAddress(address, length)]; [s.substring(0, k)] is [take k s] and
    [s.substring(k)] is [drop k s], a negative start counting as 0. *)
Definition formatAddress (address : option string) (length : nat) : string :=
  if negb (truthy address) then EmptyString
  else
    let a := str address in
    take (length + 2) a ++ "..." ++ drop (String.length a - length) a.

Example format_default :
  formatAddress (Some "0x52908400098527886E0F7030069857D2E4169EE7") 4 =
  "0x5290...9EE7".
Proof. reflexivity. Qed.

Example format_short : formatAddress (Some "0xab") 4 = "0xab...0xab".
Proof. reflexivity. Qed.

Lemma isValidAddress_iff a :
  isValidAddress a = true <->
  exists h, a = "0x" ++ h /\ String.length h = 40%nat /\ all hexChar h = true.
Proof.
  unfold isValidAddress, addressRegex. rewrite test_lang. split.
  - intros H.
    apply lang_cat in H as (x & r1 & -> & Hx & H).
    apply lang_cat in H as (y & h & -> & Hy & Hh).
    apply lang_lit in Hx, Hy. subst x y.
    apply lang_rep_class in Hh. now exists h.
  - intros (h & -> & Hh).
    change ("0x" ++ h) with (String "0" EmptyString ++ (String "x" EmptyString ++ h)).
    constructor; [now apply lang_lit|].
    constructor; [now apply lang_lit|]. now apply lang_rep_class.
Qed.

Lemma length_drop n : forall s,
  String.length (drop n s) = (String.length s - n)%nat.
Proof.
  induction n as [|n IH]; intros [|c r]; try reflexivity. cbn. apply IH.
Qed.

Lemma take_all n : forall s, (String.length s <= n)%nat -> take n s = s.
Proof.
  induction n as [|n IH]; intros [|c r] L; try reflexivity; cbn in *; [lia|].
  f_equal. apply IH. lia.
Qed.

Lemma drop_app n : forall s,
  (n <= String.length s)%nat -> forall k, drop (n + k) s = drop k (drop n s).
Proof.
  induction n as [|n IH]; intros [|c r] L k; try reflexivity; cbn in *; [lia|].
  apply IH. lia.
Qed.

(** X19.  [formatAddress] keeps the first [length + 2] and the last
    [length] characters around three dots: for an address of at least
    [2 * length + 2] characters the two kept parts are a prefix and a
    suffix of the address that do not overlap, and the result is
    [2 * length + 5] long; for a non-empty address of at most [length]
    characters the result repeats the whole address on both sides of the
    dots. *)
Theorem formatAddress_shape a n :
  a <> EmptyString ->
  ((2 * n + 2 <= String.length a)%nat ->
   exists middle,
     a = take (n + 2) a ++ middle ++ drop (String.length a - n) a /\
     formatAddress (Some a) n =
     take (n + 2) a ++ "..." ++ drop (String.length a - n) a /\
     String.length (formatAddress (Some a) n) = (2 * n + 5)%nat) /\
  ((String.length a <= n)%nat ->
   formatAddress (Some a) n = a ++ "..." ++ a).
Proof.
  intros Hne. unfold formatAddress. rewrite truthy_nonempty by assumption.
  cbn [negb str]. split.
  - intros L. exists (take (String.length a - n - (n + 2)) (drop (n + 2) a)).
    split; [|split; [reflexivity|]].
    + rewrite <- (take_drop (n + 2) a) at 1. f_equal.
      rewrite <- (take_drop (String.length a - n - (n + 2)) (drop (n + 2) a)) at 1.
      f_equal. rewrite <- drop_app by lia. f_equal. lia.
    + rewrite !length_app, length_take, length_drop by lia. cbn. lia.
  - intros L. rewrite take_all by lia.
    replace (String.length a - n)%nat with 0%nat by lia. reflexivity.
Qed.

(** X20.  [isValidAddress] accepts exactly [0x] followed by 40 hexadecimal
    digits; an accepted address is 42 characters long and its default
    display form ([length] 4) is 13 characters long and starts with
    [0x]. *)
Theorem valid_address_shape a :
  (isValidAddress a = true <->
   exists h, a = "0x" ++ h /\ String.length h = 40%nat /\ all hexChar h = true) /\
  (isValidAddress a = true ->
   String.length a = 42%nat /\
   String.length (formatAddress (Some a) 4) = 13%nat /\
   take 2 (formatAddress (Some a) 4) = "0x").
Proof.
  split; [apply isValidAddress_iff|].
  intros H. apply isValidAddress_iff in H as (h & -> & L & _).
  assert (String.length ("0x" ++ h) = 42%nat) as L42 by (cbn; now rewrite L).
  split; [exact L42|]. unfold formatAddress.
  replace (truthy (Some ("0x" ++ h))) with true by reflexivity.
  cbn [negb str]. split.
  - rewrite !length_app, length_take, length_drop by lia.
    rewrite ?length_app, ?L. cbn. lia.
  - destruct h as [|c1 [|c2 [|c3 [|c4 h]]]]; try (cbn in L; lia). reflexivity.
Qed.

End Web3.

(* ===================================================================== *)
(** ** The dashboard and the house form (AakarDashboard, AdvancedForm) *)
(* ===================================================================== *)

Module Dashboard.

(** The new value of an array field in [handleArrayChange(field, value,
    checked)]. *)
Definition handleArrayChange (prev : list string) (value : string)
    (checked : bool) : list string :=
  if checked then (prev ++ [value])%list
  else filter (fun item => negb (String.eqb item value)) prev.

(** One tick of the progress timer of [handleTextSubmit]. *)
Definition progressTick (prev : nat) : nat :=
  if (prev <? 90)%nat then (prev + 10)%nat else prev.

Lemma filter_absent (l : list string) v :
  ~ In v l -> filter (fun item => negb (String.eqb item v)) l = l.
Proof.
  induction l as [|x r IH]; [reflexivity|]. intros H. cbn.
  destruct (String.eqb_spec x v) as [E|N]; cbn.
  - exfalso. apply H. now left.
  - rewrite IH; [reflexivity|]. intros Hr. apply H. now right.
Qed.

(** [l] is [l'] with some items left out and the others in their order. *)
Inductive subsequence : list string -> list string -> Prop :=
| sub_nil : subsequence [] []
| sub_skip x l l' : subsequence l l' -> subsequence l (x :: l')
| sub_keep x l l' : subsequence l l' -> subsequence (x :: l) (x :: l').

Lemma filter_subsequence (f : string -> bool) l : subsequence (filter f l) l.
Proof.
  induction l as [|x r IH]; [constructor|]. cbn [filter].
  destruct (f x); now constructor.
Qed.

Lemma filter_other_count (l : list string) v x :
  x <> v ->
  count_occ string_dec (filter (fun item => negb (String.eqb item v)) l) x =
  count_occ string_dec l x.
Proof.
  intros N. induction l as [|a r IH]; [reflexivity|]. cbn [filter].
  destruct (String.eqb_spec a v) as [->|Na]; cbn [negb count_occ].
  - destruct (string_dec v x) as [E|_]; [now symmetry in E|exact IH].
  - destruct (string_dec a x); now rewrite IH.
Qed.

(** X21.  Ticking a value appends it at the end of the array: the array
    is one longer, the items before the last are the old ones in their
    places and the last is the value.  Unticking a value leaves the old
    items in their order without any occurrence of the value: what is
    left is a subsequence of the old array, does not contain the value,
    and has every other item as many times as before.  In both cases an
    item other than the value is in the new array exactly when it was in
    the old one, and ticking then unticking a value that was not in the
    array gives the array back. *)
Theorem handleArrayChange_toggle prev value :
  (handleArrayChange prev value true = (prev ++ [value])%list /\
   List.length (handleArrayChange prev value true) = S (List.length prev) /\
   nth_error (handleArrayChange prev value true) (List.length prev)
   = Some value /\
   (forall i, (i < List.length prev)%nat ->
      nth_error (handleArrayChange prev value true) i = nth_error prev i)) /\
  (subsequence (handleArrayChange prev value false) prev /\
   ~ In value (handleArrayChange prev value false) /\
   (forall x, x <> value ->
      count_occ string_dec (handleArrayChange prev value false) x =
      count_occ string_dec prev x)) /\
  (forall x checked, x <> value ->
     (In x (handleArrayChange prev value checked) <-> In x prev)) /\
  In value (handleArrayChange prev value true) /\
  (~ In value prev ->
   handleArrayChange (handleArrayChange prev value true) value false = prev).
Proof.
  unfold handleArrayChange. split; [|split; [|split; [|split]]].
  - split; [reflexivity|]. split; [|split].
    + rewrite length_app. cbn. lia.
    + rewrite nth_error_app2 by lia. now rewrite Nat.sub_diag.
    + intros i Hi. now apply nth_error_app1.
  - split; [apply filter_subsequence|]. split.
    + intros H. apply filter_In in H as [_ H].
      now rewrite String.eqb_refl in H.
    + intros x N. now apply filter_other_count.
  - intros x [] N.
    + rewrite in_app_iff. split; [|now left].
      intros [H|[H|[]]]; [exact H | now symmetry in H].
    + rewrite filter_In. apply String.eqb_neq in N. rewrite N. tauto.
  - apply in_app_iff. right. now left.
  - intros H. rewrite filter_app, filter_absent by assumption. cbn.
    rewrite String.eqb_refl. cbn. apply app_nil_r.
Qed.

(** X22.  Started at 0, the progress shown while a house is generated is
    [10 * n] after [n] ticks up to 90 and stays at 90 from the ninth tick
    on: the timer alone never shows 100. *)
Theorem progress_after_ticks n :
  Nat.iter n progressTick 0%nat = Nat.min (10 * n) 90.
Proof.
  induction n as [|n IH]; [reflexivity|].
  change (Nat.iter (S n) progressTick 0%nat)
    with (progressTick (Nat.iter n progressTick 0%nat)).
  rewrite IH. unfold progressTick.
  destruct (Nat.ltb_spec (Nat.min (10 * n) 90) 90); lia.
Qed.

End Dashboard.

(* ===================================================================== *)
(** ** The frontend and the batch route at concrete inputs *)
(* ===================================================================== *)

Module ConcreteFrontend.

Import Reference.
Import Concrete.

Definition bobForm : Frontend.SignupForm :=
  Frontend.mkForm " Bob Ray " "Bob_77" "Bob@Mail.Example.org" "hunter22"
                  "hunter22".

Example bobForm_valid : Frontend.validateForm bobForm = None.
Proof. vm_compute. reflexivity. Qed.

Example bobForm_body :
  Frontend.userData bobForm =
  mkSignup (Some "Bob Ray") (Some "Bob_77") (Some "bob@mail.example.org")
           (Some "hunter22").
Proof. reflexivity. Qed.

Lemma validated_form_is_stored_witness :
  signup true envB janeOnly (Frontend.userData bobForm) =
  (mkResponse 201
     (JObject [("message", JString "Account created successfully!");
               ("token",
                JString (jwt_sign (nowMs envB)
                           (claimsOf (createdBy envB (Frontend.userData bobForm)))
                           JWT_SECRET expiresIn_7d));
               ("user", userView (createdBy envB (Frontend.userData bobForm)))]),
   (janeOnly ++ [createdBy envB (Frontend.userData bobForm)])%list) /\
  fullName (createdBy envB (Frontend.userData bobForm)) =
  trim (Frontend.f_fullName bobForm) /\
  username (createdBy envB (Frontend.userData bobForm)) =
  toLowerCase (Frontend.f_username bobForm) /\
  email (createdBy envB (Frontend.userData bobForm)) =
  toLowerCase (Frontend.f_email bobForm) /\
  Frontend.isValidUsername
    (username (createdBy envB (Frontend.userData bobForm))) = true /\
  Frontend.isValidEmail
    (email (createdBy envB (Frontend.userData bobForm))) = true.
Proof.
  apply (Frontend.validated_form_is_stored true envB janeOnly bobForm).
  - vm_compute. reflexivity.
  - exact janeOnly_reachable.
  - intros d [<-|[]]. repeat split; discriminate.
Defined.

(** The same form sent twice: the second time the email is taken. *)
Definition janeAndBob : Store :=
  (janeOnly ++ [createdBy envB (Frontend.userData bobForm)])%list.

Lemma validated_form_outcomes_witness :
  (status (fst (signup true envC janeAndBob (Frontend.userData bobForm))) =
   201%Z /\
   snd (signup true envC janeAndBob (Frontend.userData bobForm)) =
   (janeAndBob ++ [createdBy envC (Frontend.userData bobForm)])%list) \/
  ((fst (signup true envC janeAndBob (Frontend.userData bobForm)) =
    errorResponse 400 "Email already registered" \/
    fst (signup true envC janeAndBob (Frontend.userData bobForm)) =
    errorResponse 400 "Username already taken" \/
    (fst (signup true envC janeAndBob (Frontend.userData bobForm)) =
     serverError /\
     violatesUnique janeAndBob
       (createdBy envC (Frontend.userData bobForm)) = true)) /\
   snd (signup true envC janeAndBob (Frontend.userData bobForm)) = janeAndBob).
Proof.
  apply (Frontend.validated_form_outcomes true envC janeAndBob bobForm).
  vm_compute. reflexivity.
Defined.

Example bob_again :
  fst (signup true envC janeAndBob (Frontend.userData bobForm)) =
  errorResponse 400 "Email already registered".
Proof. reflexivity. Qed.

Lemma login_succeeds_for_validated_accounts_witness :
  exists plain,
    bcrypt_compare plain (password jane) = true /\
    forall env ident,
      toLowerCase ident = email jane \/ toLowerCase ident = username jane ->
      login true env janeOnly (mkLogin (Some ident) (Some plain)) =
      (mkResponse 200
         (JObject [("message", JString "Login successful!");
                   ("token",
                    JString (jwt_sign (nowMs env) (claimsOf jane)
                               JWT_SECRET expiresIn_7d));
                   ("user", userView jane)]),
       janeOnly).
Proof.
  apply (Frontend.login_succeeds_for_validated_accounts true janeOnly jane).
  - exact janeOnly_reachable.
  - intros d [<-|[]]. split; vm_compute; reflexivity.
  - now left.
Defined.

Lemma backend_reply_sets_session_witness :
  (exists msg,
      body (fst (handle true envA [] (PostSignup janeBody))) =
      JObject [("error", JString msg)] /\
      Session.ok (fst (handle true envA [] (PostSignup janeBody))) = false /\
      Session.authenticate "Signup failed"
        (Session.Replied (fst (handle true envA [] (PostSignup janeBody))))
        (Session.mkService None None) (Session.mkStorage None None) =
      (Session.Failure msg, Session.mkService None None,
       Session.mkStorage None None)) \/
  (exists u,
      In u (snd (handle true envA [] (PostSignup janeBody))) /\
      Session.ok (fst (handle true envA [] (PostSignup janeBody))) = true /\
      let this' :=
        Session.mkService
          (Some (jwt_sign (nowMs envA) (claimsOf u) JWT_SECRET expiresIn_7d))
          (Some (userView u)) in
      let ls' :=
        Session.mkStorage
          (Some (jwt_sign (nowMs envA) (claimsOf u) JWT_SECRET expiresIn_7d))
          (Some (Session.ItemJson (userView u))) in
      Session.authenticate "Signup failed"
        (Session.Replied (fst (handle true envA [] (PostSignup janeBody))))
        (Session.mkService None None) (Session.mkStorage None None) =
      (Session.Success
         (field "message" (body (fst (handle true envA [] (PostSignup janeBody)))))
         (Some (userView u)), this', ls') /\
      Session.isAuthenticated this' = true /\
      Session.construct ls' = Some this').
Proof.
  apply (backend_reply_sets_session true envA [] (PostSignup janeBody)).
  left. now exists janeBody.
Defined.

Definition eightDaysLater : Env :=
  mkEnv (nowMs envA + 8 * day_ms)%Z 9 tt.

(** Jane signs up; eight days later the page is loaded again. *)
Lemma checkAuth_follows_token_lifetime_witness :
  exists u,
    In u (snd (handle true envA [] (PostSignup janeBody))) /\
    let opened :=
      Session.authenticate "Signup failed"
        (Session.Replied (fst (handle true envA [] (PostSignup janeBody))))
        (Session.mkService None None) (Session.mkStorage None None) in
    let fetch := fun h =>
      Session.Replied
        (fst (profile eightDaysLater
                (run true (snd (handle true envA [] (PostSignup janeBody)))
                   [(envB, PostSignup malloryBody)])
                (Some h))) in
    Session.checkAuth fetch (snd (fst opened)) (snd opened) =
    if (nowMs envA / 1000 + expiresIn_7d <=? nowMs eightDaysLater / 1000)%Z
    then (None, Session.mkService None None, Session.mkStorage None None)
    else (Some (JObject [("id", JObjectId (_id u));
                         ("fullName", JString (fullName u));
                         ("username", JString (username u));
                         ("email", JString (email u));
                         ("createdAt", JDate (createdAt u))]),
          snd (fst opened), snd opened).
Proof.
  apply (checkAuth_follows_token_lifetime true envA [] (PostSignup janeBody)).
  - exact (reach_empty true).
  - left. now exists janeBody.
  - reflexivity.
Defined.

(** A batch of four descriptions: one blank, one refused, one thrown. *)
Definition villaData : Bulk.Object unit :=
  [("files", Bulk.VString unit "villa.blend")].

Definition sampleService (i : nat) (description : string)
    : Bulk.MlReply unit :=
  match i with
  | 0 => Bulk.MlSuccess unit villaData
  | 2 => Bulk.MlFailure unit (Some "no such style")
  | _ => Bulk.MlThrown unit "timeout of 300000ms exceeded"
  end.

Definition sampleBatch : Bulk.BulkRequest :=
  Bulk.mkBulk None
    (Some (Bulk.Many [" a villa "; "   "; "a hut"; "a tower"])).

Definition villaEntry : Bulk.Object unit :=
  [("index", Bulk.VNumber unit 1);
   ("description", Bulk.VString unit "a villa");
   ("files", Bulk.VString unit "villa.blend")].

Example sampleBatch_response :
  Bulk.bulkGenerate unit sampleService sampleBatch =
  Bulk.Completed unit
    "Batch generation completed. 1 successful, 2 failed."
    [villaEntry]
    [Bulk.mkError 3 "a hut" (Some "no such style");
     Bulk.mkError 4 "a tower" (Some "timeout of 300000ms exceeded")]
    (Bulk.mkSummary 4 1 2).
Proof. reflexivity. Qed.

Example sampleFile_response :
  Bulk.bulkGenerate unit sampleService
    (Bulk.mkBulk (Some "a villa
   
a hut
") None) =
  Bulk.Completed unit
    "Batch generation completed. 1 successful, 1 failed."
    [villaEntry]
    [Bulk.mkError 2 "a hut" (Some "timeout of 300000ms exceeded")]
    (Bulk.mkSummary 2 1 1).
Proof. reflexivity. Qed.

(** Data that has an [index] and a [description] of its own replaces the
    handler's. *)
Example data_keys_replace_the_handlers :
  Bulk.resultEntry unit 0 "a villa"
    [("description", Bulk.VString unit "generated");
     ("index", Bulk.VNumber unit 7)] =
  [("index", Bulk.VNumber unit 7);
   ("description", Bulk.VString unit "generated")].
Proof. reflexivity. Qed.

Lemma bulk_results_are_the_successes_witness :
  exists ds,
    Bulk.descriptionsOf sampleBatch = Some ds /\
    (exists ks,
       StronglySorted lt ks /\
       (forall k, In k ks <->
                  exists d data,
                    nth_error ds k = Some d /\ Bulk.blank d = false /\
                    sampleService k (trim d) = Bulk.MlSuccess unit data) /\
       Forall2 (fun k x => exists d data,
                    nth_error ds k = Some d /\
                    sampleService k (trim d) = Bulk.MlSuccess unit data /\
                    x = Bulk.resultEntry unit k (trim d) data)
               ks [villaEntry]) /\
    (forall k d data key,
       Bulk.prop unit key (Bulk.resultEntry unit k d data) =
       match Bulk.prop unit key (rev data) with
       | Some v => Some v
       | None =>
           Bulk.prop unit key
             [("index", Bulk.VNumber unit (k + 1));
              ("description", Bulk.VString unit d)]
       end) /\
    (forall k d data,
       (Bulk.prop unit "index" data = None ->
        Bulk.prop unit "index" (Bulk.resultEntry unit k d data) =
        Some (Bulk.VNumber unit (k + 1))) /\
       (Bulk.prop unit "description" data = None ->
        Bulk.prop unit "description" (Bulk.resultEntry unit k d data) =
        Some (Bulk.VString unit d))).
Proof.
  apply (Bulk.bulk_results_are_the_successes unit sampleService sampleBatch
           "Batch generation completed. 1 successful, 2 failed."
           [villaEntry]
           [Bulk.mkError 3 "a hut" (Some "no such style");
            Bulk.mkError 4 "a tower" (Some "timeout of 300000ms exceeded")]
           (Bulk.mkSummary 4 1 2)).
  reflexivity.
Defined.

Lemma bulk_errors_are_the_failures_witness :
  exists ds,
    Bulk.descriptionsOf sampleBatch = Some ds /\
    (forall e,
       In e [Bulk.mkError 3 "a hut" (Some "no such style");
             Bulk.mkError 4 "a tower" (Some "timeout of 300000ms exceeded")] ->
       exists k d,
         nth_error ds k = Some d /\ Bulk.blank d = false /\
         ((exists err, sampleService k (trim d) = Bulk.MlFailure unit err /\
                       e = Bulk.mkError (k + 1) (trim d) err) \/
          (exists msg, sampleService k (trim d) = Bulk.MlThrown unit msg /\
                       e = Bulk.mkError (k + 1) d (Some msg)))) /\
    StronglySorted lt
      (map Bulk.e_index
         [Bulk.mkError 3 "a hut" (Some "no such style");
          Bulk.mkError 4 "a tower" (Some "timeout of 300000ms exceeded")]) /\
    (forall e k d data,
       In e [Bulk.mkError 3 "a hut" (Some "no such style");
             Bulk.mkError 4 "a tower" (Some "timeout of 300000ms exceeded")] ->
       Bulk.e_index e = (k + 1)%nat -> nth_error ds k = Some d ->
       sampleService k (trim d) <> Bulk.MlSuccess unit data).
Proof.
  apply (Bulk.bulk_errors_are_the_failures unit sampleService sampleBatch
           "Batch generation completed. 1 successful, 2 failed."
           [villaEntry]
           [Bulk.mkError 3 "a hut" (Some "no such style");
            Bulk.mkError 4 "a tower" (Some "timeout of 300000ms exceeded")]
           (Bulk.mkSummary 4 1 2)).
  reflexivity.
Defined.

Lemma formatAddress_shape_witness :
  ((2 * 4 + 2 <= String.length "0x52908400098527886E0F7030069857D2E4169EE7")%nat ->
   exists middle,
     "0x52908400098527886E0F7030069857D2E4169EE7" =
     Regex.take (4 + 2) "0x52908400098527886E0F7030069857D2E4169EE7" ++ middle ++
     Regex.drop
       (String.length "0x52908400098527886E0F7030069857D2E4169EE7" - 4)
       "0x52908400098527886E0F7030069857D2E4169EE7" /\
     Web3.formatAddress (Some "0x52908400098527886E0F7030069857D2E4169EE7") 4 =
     Regex.take (4 + 2) "0x52908400098527886E0F7030069857D2E4169EE7" ++ "..." ++
     Regex.drop
       (String.length "0x52908400098527886E0F7030069857D2E4169EE7" - 4)
       "0x52908400098527886E0F7030069857D2E4169EE7" /\
     String.length
       (Web3.formatAddress (Some "0x52908400098527886E0F7030069857D2E4169EE7") 4) =
     (2 * 4 + 5)%nat) /\
  ((String.length "0x52908400098527886E0F7030069857D2E4169EE7" <= 4)%nat ->
   Web3.formatAddress (Some "0x52908400098527886E0F7030069857D2E4169EE7") 4 =
   "0x52908400098527886E0F7030069857D2E4169EE7" ++ "..." ++
   "0x52908400098527886E0F7030069857D2E4169EE7").
Proof.
  apply (Web3.formatAddress_shape "0x52908400098527886E0F7030069857D2E4169EE7" 4).
  discriminate.
Defined.

End ConcreteFrontend.
